(** * Imperative: config builder, legacy profile converter and auth handler

    A shallow embedding of [packages/config/src/ConfigBuilder.ts] and of the
    [BaseAuthHandler] class, with the properties of their specification.

    JavaScript data is modelled as the code uses it:
    - a value is a primitive or an object/array that carries the identity
      (heap location) the engine compares it by; values are data, as a YAML
      or JSON reader or an object literal gives them: there are no functions
      among them and every object has [Object.prototype] as prototype;
    - an object used as a map is the association list of its own properties,
      kept in the order in which [Object.entries] enumerates them; what a
      read finds on the prototype when the object has no own property of the
      name is told apart by [Obj.read];
    - code that can throw returns a [result]. *)

From Stdlib Require Import List String Ascii ZArith NArith Bool Arith Lia.
Import ListNotations.
Open Scope string_scope.
Open Scope list_scope.

Set Warnings "-register-all".

(* ===================================================================== *)
(** * Definitions *)
(* ===================================================================== *)

(** ** Thrown values and outcomes *)

Inductive error : Type :=
| TypeError                       (* engine: property access on undefined or null *)
| SyntaxError                     (* engine: JSON.parse on malformed text *)
| ImperativeError (msg : string)  (* the project's own error class *)
| ExternalError (msg : string).   (* whatever a collaborator throws *)

Inductive result (A : Type) : Type :=
| Ok (a : A)
| Throw (e : error).

Arguments Ok {A} a.
Arguments Throw {A} e.

Definition bind {A B : Type} (m : result A) (f : A -> result B) : result B :=
  match m with
  | Ok a => f a
  | Throw e => Throw e
  end.

Notation "x <- m ;; k" := (bind m (fun x => k))
  (at level 61, m at next level, right associativity).
Notation "' p <- m ;; k" := (bind m (fun x => match x with p => k end))
  (at level 61, p pattern, m at next level, right associativity).

(** A [for ... of] loop whose body may throw: the first throw ends it. *)
Fixpoint foldM {A S : Type} (body : S -> A -> result S) (xs : list A) (s : S)
  : result S :=
  match xs with
  | [] => Ok s
  | x :: xs' => s' <- body s x ;; foldM body xs' s'
  end.

(** ** JavaScript values *)

Module Js.

(** [VNum n]: a number, named by an integer code that two numbers share
    exactly when a [Set] holds them as one element ([NaN] has one code, [-0]
    has the code of [0]); a whole number is its own code. [VObject l _] and
    [VArray l _]: the object or array living at location [l]. *)
Inductive value : Type :=
| VUndefined
| VNull
| VBool (b : bool)
| VNum (n : Z)
| VStr (s : string)
| VObject (l : nat) (fields : list (string * value))
| VArray (l : nat) (items : list value).

(** SameValueZero, the comparison [Set] uses: primitives by value, objects
    and arrays by identity. *)
Definition same_value_zero (v w : value) : bool :=
  match v, w with
  | VUndefined, VUndefined => true
  | VNull, VNull => true
  | VBool a, VBool b => Bool.eqb a b
  | VNum a, VNum b => Z.eqb a b
  | VStr a, VStr b => String.eqb a b
  | VObject l _, VObject l' _ => Nat.eqb l l'
  | VArray l _, VArray l' _ => Nat.eqb l l'
  | _, _ => false
  end.

(** Equality by value: same shape and same contents, whatever the identity. *)
Fixpoint value_equal (v w : value) {struct v} : bool :=
  match v, w with
  | VUndefined, VUndefined => true
  | VNull, VNull => true
  | VBool a, VBool b => Bool.eqb a b
  | VNum a, VNum b => Z.eqb a b
  | VStr a, VStr b => String.eqb a b
  | VObject _ fs, VObject _ gs =>
      (fix fields_equal (fs gs : list (string * value)) {struct fs} : bool :=
         match fs, gs with
         | [], [] => true
         | (k, x) :: fs', (k', y) :: gs' =>
             String.eqb k k' && value_equal x y && fields_equal fs' gs'
         | _, _ => false
         end) fs gs
  | VArray _ xs, VArray _ ys =>
      (fix items_equal (xs ys : list value) {struct xs} : bool :=
         match xs, ys with
         | [], [] => true
         | x :: xs', y :: ys' => value_equal x y && items_equal xs' ys'
         | _, _ => false
         end) xs ys
  | _, _ => false
  end.

(** The values of a list are pairwise the same for [Set]. *)
Definition all_same (vs : list value) : Prop :=
  forall v w, In v vs -> In w vs -> same_value_zero v w = true.

(** [new Set(vs)]: the distinct elements of [vs] in first-occurrence order. *)
Definition Set_add (s : list value) (v : value) : list value :=
  if existsb (same_value_zero v) s then s else s ++ [v].

Definition Set_of (vs : list value) : list value := fold_left Set_add vs [].

Definition Set_size (vs : list value) : nat := List.length (Set_of vs).

(** The abstract operation ToString; [num] renders a number. An object is
    rendered by its [toString] method: the one of [Object.prototype], unless
    the object has a field of that name, which is data and cannot be called;
    then the conversion throws. An array joins the renderings of its items,
    the empty text standing for [undefined] and [null]. *)
Fixpoint ToString (num : Z -> string) (v : value) {struct v}
  : result string :=
  match v with
  | VUndefined => Ok "undefined"
  | VNull => Ok "null"
  | VBool true => Ok "true"
  | VBool false => Ok "false"
  | VNum n => Ok (num n)
  | VStr s => Ok s
  | VObject _ fields =>
      if existsb (fun f => String.eqb (fst f) "toString") fields
      then Throw TypeError
      else Ok "[object Object]"
  | VArray _ items =>
      (fix join (xs : list value) : result string :=
         match xs with
         | [] => Ok ""
         | x :: xs' =>
             here <- match x with
                     | VUndefined | VNull => Ok ""
                     | _ => ToString num x
                     end ;;
             match xs' with
             | [] => Ok here
             | _ :: _ =>
                 rest <- join xs' ;;
                 Ok (here ++ "," ++ rest)%string
             end
         end) items
  end.

(** [v.toString()]: [undefined] and [null] have no such method. *)
Definition toString (num : Z -> string) (v : value) : result string :=
  match v with
  | VUndefined | VNull => Throw TypeError
  | _ => ToString num v
  end.

(** [names.includes(k)] *)
Definition includes (k : string) (names : list string) : bool :=
  existsb (String.eqb k) names.

(** [v != null] *)
Definition not_nullish (v : value) : bool :=
  match v with
  | VUndefined | VNull => false
  | _ => true
  end.

End Js.

(** ** Objects used as maps *)

Module Obj.

Section Operations.
Context {A : Type}.

Definition t : Type := list (string * A).

Definition keys (o : t) : list string := map fst o.
Definition values (o : t) : list A := map snd o.

(** [o[k]]; [None] is [undefined]. *)
Fixpoint get (k : string) (o : t) : option A :=
  match o with
  | [] => None
  | (k', v) :: o' => if String.eqb k k' then Some v else get k o'
  end.

(** [delete o[k]] *)
Definition delete (k : string) (o : t) : t :=
  filter (fun e => negb (String.eqb k (fst e))) o.

(** Assignment to a property that exists keeps its place. *)
Fixpoint replace (k : string) (v : A) (o : t) : t :=
  match o with
  | [] => []
  | (k', v') :: o' =>
      if String.eqb k k' then (k, v) :: o' else (k', v') :: replace k v o'
  end.

End Operations.

Arguments t A : clear implicits.

(** Own properties are enumerated array indices first, in ascending order,
    then the other names in creation order. *)
Definition digit (c : ascii) : option N :=
  let n := N_of_ascii c in
  if (48 <=? n)%N && (n <=? 57)%N then Some (n - 48)%N else None.

Fixpoint digits (s : string) (acc : N) : option N :=
  match s with
  | EmptyString => Some acc
  | String c s' =>
      match digit c with
      | Some d => digits s' (10 * acc + d)%N
      | None => None
      end
  end.

(** A canonical numeric string below [2^32 - 1]. *)
Definition array_index (k : string) : option N :=
  match k with
  | EmptyString => None
  | String "0"%char EmptyString => Some 0%N
  | String "0"%char _ => None
  | _ =>
      match digits k 0 with
      | Some n => if (n <? 4294967295)%N then Some n else None
      | None => None
      end
  end.

Section Assignment.
Context {A : Type}.

(** A new array-index name goes before the first larger index and before
    every other name. *)
Fixpoint insert_index (i : N) (k : string) (v : A) (o : t A) : t A :=
  match o with
  | [] => [(k, v)]
  | (k', v') :: o' =>
      match array_index k' with
      | Some j =>
          if (j <? i)%N then (k', v') :: insert_index i k v o'
          else (k, v) :: o
      | None => (k, v) :: o
      end
  end.

(** [o[k] = v] *)
Definition set (k : string) (v : A) (o : t A) : t A :=
  match get k o with
  | Some _ => replace k v o
  | None =>
      match array_index k with
      | Some i => insert_index i k v o
      | None => o ++ [(k, v)]
      end
  end.

(** [{ ...target, ...source }] onto an existing [target]. *)
Definition spread (target source : t A) : t A :=
  fold_left (fun o e => set (fst e) (snd e) o) source target.

End Assignment.

(** *** What the prototype adds

    Every plain object inherits the members of [Object.prototype]. A read of
    one of these names on an object that has no own property of the name
    finds the inherited member: a function, and for [__proto__] the
    prototype itself. *)
Definition prototype_names : list string :=
  [ "constructor"; "__defineGetter__"; "__defineSetter__"; "hasOwnProperty";
    "__lookupGetter__"; "__lookupSetter__"; "isPrototypeOf";
    "propertyIsEnumerable"; "toString"; "valueOf"; "__proto__";
    "toLocaleString" ].

Definition inherited (k : string) : bool :=
  existsb (String.eqb k) prototype_names.

Inductive lookup (A : Type) : Type :=
| Own (v : A)
| Inherited
| Undefined.

Arguments Own {A} v.
Arguments Inherited {A}.
Arguments Undefined {A}.

(** [o[k]] as an expression. *)
Definition read {A : Type} (k : string) (o : t A) : lookup A :=
  match get k o with
  | Some v => Own v
  | None => if inherited k then Inherited else Undefined
  end.

(** [o[k] = v] as a statement. Assigning to [__proto__] on an object that
    has no own property of that name runs the setter of [Object.prototype]:
    no own property is made. What the setter does to the prototype is not
    kept; the places that use [assign] read own properties only. *)
Definition assign {A : Type} (k : string) (v : A) (o : t A) : t A :=
  match get k o with
  | Some _ => set k v o
  | None => if String.eqb k "__proto__" then o else set k v o
  end.

(** Visit every entry in order with a body that may throw. *)
Fixpoint mapM {A B : Type} (f : A -> result B) (o : t A) : result (t B) :=
  match o with
  | [] => Ok []
  | (k, v) :: o' =>
      v' <- f v ;;
      o'' <- mapM f o' ;;
      Ok ((k, v') :: o'')
  end.

Definition map_values {A B : Type} (f : A -> B) (o : t A) : t B :=
  map (fun e => (fst e, f (snd e))) o.

(** An object has each of its own property names once. *)
Fixpoint unique (ks : list string) : bool :=
  match ks with
  | [] => true
  | k :: ks' => negb (existsb (String.eqb k) ks') && unique ks'
  end.

Definition unique_keys {A : Type} (o : t A) : bool := unique (keys o).

End Obj.

(** ** The config document

    The document is a tree, as it is when read from JSON or built by the
    functions below: no two entries are one and the same object. *)

Module IConfigProfile.

(** [type] and [secure] are optional: [lodash.set] creates the objects a path
    lacks, and an object created that way has neither. *)
Record t : Type := mk {
  type : option string;
  properties : Obj.t Js.value;
  secure : option (list string)
}.

Definition with_properties (p : t) (props : Obj.t Js.value) : t :=
  {| type := type p; properties := props; secure := secure p |}.

(** The names in [secure]; none when the list is absent. *)
Definition secure_names (p : t) : list string :=
  match secure p with
  | Some l => l
  | None => []
  end.

End IConfigProfile.

Module IConfig.

Record t : Type := mk {
  defaults : Obj.t string;
  profiles : Obj.t IConfigProfile.t;
  plugins : list string;
  secure : list string;
  properties : Obj.t Js.value;
  autoStore : option bool
}.

Definition with_profiles (c : t) (ps : Obj.t IConfigProfile.t) : t :=
  {| defaults := defaults c; profiles := ps; plugins := plugins c;
     secure := secure c; properties := properties c;
     autoStore := autoStore c |}.

Definition with_defaults (c : t) (ds : Obj.t string) : t :=
  {| defaults := ds; profiles := profiles c; plugins := plugins c;
     secure := secure c; properties := properties c;
     autoStore := autoStore c |}.

Definition with_autoStore (c : t) (b : bool) : t :=
  {| defaults := defaults c; profiles := profiles c; plugins := plugins c;
     secure := secure c; properties := properties c;
     autoStore := Some b |}.

End IConfig.

(** Modelled from the spec: [Config.empty] lives in [Config.ts], which is not
    among the sources; the document it returns has every collection of
    [IConfig] empty and no [autoStore] yet. *)
Definition Config_empty : IConfig.t :=
  {| IConfig.defaults := []; IConfig.profiles := []; IConfig.plugins := [];
     IConfig.secure := []; IConfig.properties := [];
     IConfig.autoStore := None |}.

(** ** ConfigBuilder.hoistTemplateProperties *)

Module Hoist.

Import Js.

(** [({ type }) => type !== baseProfileType] *)
Definition is_child (baseProfileType : string) (p : IConfigProfile.t) : bool :=
  match IConfigProfile.type p with
  | Some ty => negb (String.eqb ty baseProfileType)
  | None => true
  end.

Definition children (baseProfileType : string)
  (profiles : Obj.t IConfigProfile.t) : list IConfigProfile.t :=
  filter (is_child baseProfileType) (Obj.values profiles).

(** [[...(flattenedProps[k] || []), v]]: the values the object has under
    [k], none when it has no such property. When the name is one of
    [Object.prototype] and the object has no own property of it, the read
    finds the inherited member, which cannot be spread: a TypeError. *)
Definition seen (k : string) (flattenedProps : Obj.t (list value))
  : result (list value) :=
  match Obj.read k flattenedProps with
  | Obj.Own vs => Ok vs
  | Obj.Inherited => Throw TypeError
  | Obj.Undefined => Ok []
  end.

(** [flattenedProps[k] = [...(flattenedProps[k] || []), v]] *)
Definition flatten_entry (flattenedProps : Obj.t (list value))
  (e : string * value) : result (Obj.t (list value)) :=
  let (k, v) := e in
  vs <- seen k flattenedProps ;;
  Ok (Obj.set k (vs ++ [v]) flattenedProps).

Definition flatten_profile (flattenedProps : Obj.t (list value))
  (childProfile : IConfigProfile.t) : result (Obj.t (list value)) :=
  foldM flatten_entry (IConfigProfile.properties childProfile) flattenedProps.

Definition flattenProps (baseProfileType : string)
  (profiles : Obj.t IConfigProfile.t) : result (Obj.t (list value)) :=
  foldM flatten_profile (children baseProfileType profiles) [].

(** For the proofs: what the first loop collects when it does not throw. *)
Definition collected (k : string) (flattenedProps : Obj.t (list value))
  : list value :=
  match Obj.get k flattenedProps with
  | Some vs => vs
  | None => []
  end.

Definition collect_entry (flattenedProps : Obj.t (list value))
  (e : string * value) : Obj.t (list value) :=
  let (k, v) := e in
  Obj.set k (collected k flattenedProps ++ [v]) flattenedProps.

Definition collect_profile (flattenedProps : Obj.t (list value))
  (childProfile : IConfigProfile.t) : Obj.t (list value) :=
  fold_left collect_entry (IConfigProfile.properties childProfile)
    flattenedProps.

Definition collectProps (baseProfileType : string)
  (profiles : Obj.t IConfigProfile.t) : Obj.t (list value) :=
  fold_left collect_profile (children baseProfileType profiles) [].

(** No property of a non-base profile has a name of [Object.prototype]. *)
Definition ordinary_names (p : IConfigProfile.t) : bool :=
  forallb (fun k => negb (Obj.inherited k))
    (Obj.keys (IConfigProfile.properties p)).

Definition ordinary_children (baseProfileType : string)
  (profiles : Obj.t IConfigProfile.t) : bool :=
  forallb ordinary_names (children baseProfileType profiles).

(** For stating what the function does: the non-base profiles that have a
    property named [k], and the values they give it, in order. *)
Definition has_property (k : string) (p : IConfigProfile.t) : bool :=
  match Obj.get k (IConfigProfile.properties p) with
  | Some _ => true
  | None => false
  end.

Definition holders (k baseProfileType : string)
  (profiles : Obj.t IConfigProfile.t) : list IConfigProfile.t :=
  filter (has_property k) (children baseProfileType profiles).

Definition value_of (k : string) (p : IConfigProfile.t) : list value :=
  match Obj.get k (IConfigProfile.properties p) with
  | Some v => [v]
  | None => []
  end.

Definition observed (k baseProfileType : string)
  (profiles : Obj.t IConfigProfile.t) : list value :=
  flat_map (value_of k) (children baseProfileType profiles).

(** Every profile of the map is an object with each property name once. *)
Definition well_formed (profiles : Obj.t IConfigProfile.t) : bool :=
  Obj.unique_keys profiles
  && forallb (fun p => Obj.unique_keys (IConfigProfile.properties p))
       (Obj.values profiles).

(** No property name of any profile is an array index. *)
Definition plain_name (k : string) : bool :=
  match Obj.array_index k with
  | Some _ => false
  | None => true
  end.

Definition plain_names (profiles : Obj.t IConfigProfile.t) : bool :=
  forallb
    (fun p => forallb plain_name (Obj.keys (IConfigProfile.properties p)))
    (Obj.values profiles).

(** [v.length > 1 && (new Set(v)).size === 1] *)
Definition is_duplicate (v : list value) : bool :=
  (1 <? List.length v)%nat && (Set_size v =? 1)%nat.

Definition duplicateProps (flattenedProps : Obj.t (list value))
  : list string :=
  map fst (filter (fun e => is_duplicate (snd e)) flattenedProps).

(** [delete childProfile.properties[propName]] in every non-base profile. *)
Definition strip (baseProfileType propName : string)
  (profiles : Obj.t IConfigProfile.t) : Obj.t IConfigProfile.t :=
  Obj.map_values
    (fun childProfile =>
       if is_child baseProfileType childProfile
       then IConfigProfile.with_properties childProfile
              (Obj.delete propName (IConfigProfile.properties childProfile))
       else childProfile)
    profiles.

(** [flattenedProps[propName][0]] *)
Definition first_seen (propName : string)
  (flattenedProps : Obj.t (list value)) : result value :=
  match Obj.read propName flattenedProps with
  | Obj.Own vs => Ok (nth 0 vs VUndefined)
  | Obj.Inherited => Ok VUndefined
  | Obj.Undefined => Throw TypeError
  end.

(** One round of the last loop. Reading [profiles[baseProfileType]] when the
    map has no such key and the name is not one of [Object.prototype] gives
    [undefined], whose [properties] cannot be read: the round throws before
    anything is changed. When the name is one of [Object.prototype] the read
    finds the inherited member, which has no [properties] and takes the
    assignment: the hoisted value is written onto that member, outside the
    profiles, and the non-base profiles lose the property all the same. *)
Definition hoistProp (baseProfileType : string)
  (flattenedProps : Obj.t (list value))
  (profiles : Obj.t IConfigProfile.t) (propName : string)
  : result (Obj.t IConfigProfile.t) :=
  match Obj.read baseProfileType profiles with
  | Obj.Own base =>
      v <- first_seen propName flattenedProps ;;
      let hoisted :=
        Obj.spread (Obj.set propName v []) (IConfigProfile.properties base) in
      Ok (strip baseProfileType propName
            (Obj.set baseProfileType
               (IConfigProfile.with_properties base hoisted) profiles))
  | Obj.Inherited =>
      v <- first_seen propName flattenedProps ;;
      Ok (strip baseProfileType propName profiles)
  | Obj.Undefined => Throw TypeError
  end.

(** For the proofs: what one round, and what all the rounds, make of the
    profile stored under [key]. *)
Definition hoistInto (baseProfileType : string)
  (flattenedProps : Obj.t (list value)) (key : string)
  (p : IConfigProfile.t) (propName : string) : IConfigProfile.t :=
  let p1 :=
    if String.eqb key baseProfileType
    then IConfigProfile.with_properties p
           (Obj.spread
              (Obj.set propName
                 (nth 0 (collected propName flattenedProps) VUndefined) [])
              (IConfigProfile.properties p))
    else p in
  if is_child baseProfileType p1
  then IConfigProfile.with_properties p1
         (Obj.delete propName (IConfigProfile.properties p1))
  else p1.

Definition hoistRounds (baseProfileType : string)
  (flattenedProps : Obj.t (list value)) (key : string)
  (propNames : list string) (p : IConfigProfile.t) : IConfigProfile.t :=
  fold_left (hoistInto baseProfileType flattenedProps key) propNames p.

Definition hoistAll (baseProfileType : string)
  (flattenedProps : Obj.t (list value)) (propNames : list string)
  (e : string * IConfigProfile.t) : string * IConfigProfile.t :=
  (fst e, hoistRounds baseProfileType flattenedProps (fst e) propNames (snd e)).

(** Returns the hoisted names together with the profiles as the call leaves
    them. *)
Definition hoistTemplateProperties (profiles : Obj.t IConfigProfile.t)
  (baseProfileType : string)
  : result (list string * Obj.t IConfigProfile.t) :=
  flattenedProps <- flattenProps baseProfileType profiles ;;
  let dups := duplicateProps flattenedProps in
  profiles' <- foldM (hoistProp baseProfileType flattenedProps) dups profiles ;;
  Ok (dups, profiles').

End Hoist.

(** ** ConfigBuilder.convertPropNames *)

Module IConvertFailure.

(** An entry of [profilesFailed]; a meta file failure has no [name]. *)
Record t : Type := mk {
  name : option string;
  type : string;
  error : error
}.

End IConvertFailure.

Module IConfigConvertResult.

Record t : Type := mk {
  config : IConfig.t;
  profilesConverted : Obj.t (list string);
  profilesFailed : list IConvertFailure.t
}.

Definition with_config (r : t) (c : IConfig.t) : t :=
  {| config := c; profilesConverted := profilesConverted r;
     profilesFailed := profilesFailed r |}.

End IConfigConvertResult.

Module Rename.

Import Js.

Definition nameConversions : list (string * string) :=
  [ ("hostname", "host");
    ("username", "user");
    ("pass", "password") ].

(** The inner [for ... of nameConversions] with its [break]: the first rule
    whose old name is [name]. *)
Fixpoint findConversion (name : string) (rules : list (string * string))
  : option (string * string) :=
  match rules with
  | [] => None
  | (oldPropName, newPropName) :: rest =>
      if String.eqb name oldPropName then Some (oldPropName, newPropName)
      else findConversion name rest
  end.

(** For stating what the renaming does: the old name of a new one. *)
Fixpoint findOldName (name : string) (rules : list (string * string))
  : option string :=
  match rules with
  | [] => None
  | (oldPropName, newPropName) :: rest =>
      if String.eqb name newPropName then Some oldPropName
      else findOldName name rest
  end.

(** A name is one the table renames, or one the table renames to. *)
Definition is_old (name : string) : bool :=
  match findConversion name nameConversions with
  | Some _ => true
  | None => false
  end.

Definition is_new (name : string) : bool :=
  match findOldName name nameConversions with
  | Some _ => true
  | None => false
  end.

(** The scan over [Object.entries(currProps)]: what to rename, in order. *)
Definition profPropsToConvert (currProps : Obj.t value)
  : list (string * string * value) :=
  flat_map
    (fun e =>
       match findConversion (fst e) nameConversions with
       | Some (oldPropName, newPropName) =>
           [(oldPropName, newPropName, snd e)]
       | None => []
       end)
    currProps.

(** For the proofs: the old names of what is staged. *)
Definition staged_old_names (st : list (string * string * value))
  : list string :=
  map (fun c => fst (fst c)) st.

(** [delete currProps[oldPropName]; currProps[newPropName] = propValue] *)
Definition applyConversion (currProps : Obj.t value)
  (c : string * string * value) : Obj.t value :=
  let '(oldPropName, newPropName, propValue) := c in
  Obj.set newPropName propValue (Obj.delete oldPropName currProps).

Definition convertProps (currProps : Obj.t value) : Obj.t value :=
  fold_left applyConversion (profPropsToConvert currProps) currProps.

(** The loop over [currSecProps] by index, one name at a time. *)
Definition convertSecureName (secProp : string) : string :=
  match findConversion secProp nameConversions with
  | Some (_, newPropName) => newPropName
  | None => secProp
  end.

Definition convertSecure (currSecProps : list string) : list string :=
  map convertSecureName currSecProps.

(** One round of the loop over the profiles. [currSecProps.length] throws
    when the profile has no [secure]; its properties are renamed by then. *)
Definition convertProfile (p : IConfigProfile.t) : result IConfigProfile.t :=
  let currProps := convertProps (IConfigProfile.properties p) in
  match IConfigProfile.secure p with
  | Some currSecProps =>
      Ok {| IConfigProfile.type := IConfigProfile.type p;
            IConfigProfile.properties := currProps;
            IConfigProfile.secure := Some (convertSecure currSecProps) |}
  | None => Throw TypeError
  end.

(** For the proofs: the profile [convertProfile] returns when it returns. *)
Definition renamed (p : IConfigProfile.t) : IConfigProfile.t :=
  {| IConfigProfile.type := IConfigProfile.type p;
     IConfigProfile.properties := convertProps (IConfigProfile.properties p);
     IConfigProfile.secure :=
       Some (convertSecure (IConfigProfile.secure_names p)) |}.

(** Every profile of the result is as [IConfigProfile] declares it, with a
    [secure] list, and is an object with each property name once. *)
Definition typed_profile (p : IConfigProfile.t) : bool :=
  match IConfigProfile.secure p with
  | Some _ => Obj.unique_keys (IConfigProfile.properties p)
  | None => false
  end.

Definition typed (conversionResult : IConfigConvertResult.t) : bool :=
  forallb typed_profile
    (Obj.values (IConfig.profiles (IConfigConvertResult.config conversionResult))).

(** No profile of the result has an old name, among its properties or in
    its secure list. *)
Definition no_old_names (conversionResult : IConfigConvertResult.t) : bool :=
  forallb
    (fun p =>
       forallb (fun k => negb (is_old k))
         (Obj.keys (IConfigProfile.properties p)
          ++ IConfigProfile.secure_names p))
    (Obj.values (IConfig.profiles (IConfigConvertResult.config conversionResult))).

Definition convertPropNames (conversionResult : IConfigConvertResult.t)
  : result IConfigConvertResult.t :=
  let config := IConfigConvertResult.config conversionResult in
  profiles <- Obj.mapM convertProfile (IConfig.profiles config) ;;
  Ok (IConfigConvertResult.with_config conversionResult
        (IConfig.with_profiles config profiles)).

End Rename.

(** ** ConfigBuilder.convert *)

Module IMetaProfile.

Record t : Type := mk {
  defaultProfile : option string
}.

End IMetaProfile.

(** What [convert] calls outside this class. [ProfileIO], [ProfileUtils],
    [ProfilesConstants] and the credential manager are not among the sources
    and are taken as they are declared; whatever reaches the file system or
    the vault may throw, the two listings too; [load] returns [None] for
    [null]. *)
Record Collaborators : Type := {
  getAllProfileDirectories : string -> result (list string);
  getAllProfileNames : string -> string -> string -> result (list string);
  readProfileFile : string -> string -> result (Obj.t Js.value);
  readMetaFile : string -> result IMetaProfile.t;
  load : string -> bool -> result (option string);
  getProfilePropertyKey : string -> string -> string -> string;
  getProfileMapKey : string -> string -> string;
  PROFILES_OPTION_SECURELY_STORED : string;
  path_join : string -> string -> string;
  JSON_parse : string -> result Js.value;
  Number_toString : Z -> string
}.

Module Convert.

Import Js.

Section WithCollaborators.
Variable io : Collaborators.

(** The body of the loop over [Object.entries(profileProps)]; the state is
    [profileProps] as mutated so far and [secureProps]. *)
Definition secureStep (profileType profileName : string)
  (st : Obj.t value * list string) (e : string * value)
  : result (Obj.t value * list string) :=
  let (profileProps, secureProps) := st in
  let (key, value) := e in
  str <- toString (Number_toString io) value ;;
  if String.prefix (PROFILES_OPTION_SECURELY_STORED io) str then
    secureValue <-
      load io (getProfilePropertyKey io profileType profileName key) true ;;
    match secureValue with
    | Some text =>
        parsed <- JSON_parse io text ;;
        Ok (Obj.set key parsed profileProps, secureProps ++ [key])
    | None => Ok (Obj.delete key profileProps, secureProps)
    end
  else Ok (profileProps, secureProps).

(** The [try] block of one profile, up to the profile it builds. *)
Definition readProfile (profileTypeDir profileType profileName : string)
  : result IConfigProfile.t :=
  let profileFilePath := path_join io profileTypeDir (profileName ++ ".yaml")%string in
  profileProps <- readProfileFile io profileFilePath profileType ;;
  ' (profileProps', secureProps) <-
    foldM (secureStep profileType profileName) profileProps
          (profileProps, []) ;;
  Ok {| IConfigProfile.type := Some profileType;
        IConfigProfile.properties := profileProps';
        IConfigProfile.secure := Some secureProps |}.

(** [result.profilesConverted[profileType] =
      [...(result.profilesConverted[profileType] || []), profileName]]. When
    the type has a name of [Object.prototype] and no name of it is recorded
    yet, the read finds the inherited member, which cannot be spread: a
    TypeError. *)
Definition recordConverted (profileType profileName : string)
  (profilesConverted : Obj.t (list string)) : result (Obj.t (list string)) :=
  match Obj.read profileType profilesConverted with
  | Obj.Own names =>
      Ok (Obj.set profileType (names ++ [profileName]) profilesConverted)
  | Obj.Inherited => Throw TypeError
  | Obj.Undefined => Ok (Obj.set profileType [profileName] profilesConverted)
  end.

Definition recordFailure (name : option string) (profileType : string)
  (error : error) (r : IConfigConvertResult.t) : IConfigConvertResult.t :=
  {| IConfigConvertResult.config := IConfigConvertResult.config r;
     IConfigConvertResult.profilesConverted :=
       IConfigConvertResult.profilesConverted r;
     IConfigConvertResult.profilesFailed :=
       IConfigConvertResult.profilesFailed r ++
       [ {| IConvertFailure.name := name;
            IConvertFailure.type := profileType;
            IConvertFailure.error := error |} ] |}.

(** One round of the loop over [profileNames], with its [catch]. The profile
    is stored in the document before its name is recorded: when recording
    the name throws, the profile stays stored and is reported as failed. *)
Definition convertName (profileTypeDir profileType : string)
  (r : IConfigConvertResult.t) (profileName : string)
  : IConfigConvertResult.t :=
  match readProfile profileTypeDir profileType profileName with
  | Ok profile =>
      let config := IConfigConvertResult.config r in
      let stored :=
        {| IConfigConvertResult.config :=
             IConfig.with_profiles config
               (Obj.assign (getProfileMapKey io profileType profileName)
                  profile (IConfig.profiles config));
           IConfigConvertResult.profilesConverted :=
             IConfigConvertResult.profilesConverted r;
           IConfigConvertResult.profilesFailed :=
             IConfigConvertResult.profilesFailed r |} in
      match recordConverted profileType profileName
              (IConfigConvertResult.profilesConverted r) with
      | Ok profilesConverted =>
          {| IConfigConvertResult.config := IConfigConvertResult.config stored;
             IConfigConvertResult.profilesConverted := profilesConverted;
             IConfigConvertResult.profilesFailed :=
               IConfigConvertResult.profilesFailed r |}
      | Throw error => recordFailure (Some profileName) profileType error stored
      end
  | Throw error => recordFailure (Some profileName) profileType error r
  end.

(** The second [try] of a type: its meta file. *)
Definition convertMeta (profileTypeDir profileType : string)
  (r : IConfigConvertResult.t) : IConfigConvertResult.t :=
  let metaFilePath := path_join io profileTypeDir (profileType ++ "_meta.yaml")%string in
  match readMetaFile io metaFilePath with
  | Ok profileMetaFile =>
      match IMetaProfile.defaultProfile profileMetaFile with
      | Some defaultProfile =>
          let config := IConfigConvertResult.config r in
          IConfigConvertResult.with_config r
            (IConfig.with_defaults config
               (Obj.assign profileType
                  (getProfileMapKey io profileType defaultProfile)
                  (IConfig.defaults config)))
      | None => r
      end
  | Throw error => recordFailure None profileType error r
  end.

(** One round of the loop over the profile types. The listing of the names
    is outside every [try]: when it throws, [convert] does. *)
Definition convertType (profilesRootDir : string)
  (r : IConfigConvertResult.t) (profileType : string)
  : result IConfigConvertResult.t :=
  let profileTypeDir := path_join io profilesRootDir profileType in
  profileNames <-
    getAllProfileNames io profileTypeDir ".yaml" (profileType ++ "_meta")%string ;;
  match profileNames with
  | [] => Ok r
  | _ :: _ =>
      Ok (convertMeta profileTypeDir profileType
            (fold_left (convertName profileTypeDir profileType) profileNames r))
  end.

Definition emptyResult : IConfigConvertResult.t :=
  {| IConfigConvertResult.config := Config_empty;
     IConfigConvertResult.profilesConverted := [];
     IConfigConvertResult.profilesFailed := [] |}.

(** The result once every type is visited, before the names are converted. *)
Definition convertTypes (profilesRootDir : string)
  : result IConfigConvertResult.t :=
  profileTypes <- getAllProfileDirectories io profilesRootDir ;;
  foldM (convertType profilesRootDir) profileTypes emptyResult.

Definition convert (profilesRootDir : string) : result IConfigConvertResult.t :=
  r0 <- convertTypes profilesRootDir ;;
  r <- Rename.convertPropNames r0 ;;
  Ok (IConfigConvertResult.with_config r
        (IConfig.with_autoStore (IConfigConvertResult.config r) true)).

(** *** For stating what the loops keep and bring about *)

(** The names recorded as secure are names of properties, each with a secret
    in the vault. *)
Definition secure_recorded (profileType profileName : string)
  (st : Obj.t value * list string) : Prop :=
  forall k, In k (snd st) ->
    In k (Obj.keys (fst st))
    /\ exists text,
         load io (getProfilePropertyKey io profileType profileName k) true
         = Ok (Some text).

Definition failed (f : IConvertFailure.t) (r : IConfigConvertResult.t) : Prop :=
  In f (IConfigConvertResult.profilesFailed r).

Definition converted (profileType profileName : string)
  (r : IConfigConvertResult.t) : Prop :=
  exists names,
    Obj.get profileType (IConfigConvertResult.profilesConverted r) = Some names
    /\ In profileName names.

Definition default_is (profileType key : string)
  (r : IConfigConvertResult.t) : Prop :=
  Obj.get profileType (IConfig.defaults (IConfigConvertResult.config r))
  = Some key.

Definition all_secure (r : IConfigConvertResult.t) : Prop :=
  forall e, In e (IConfig.profiles (IConfigConvertResult.config r)) ->
    exists secureProps,
      IConfigProfile.secure (snd e) = Some secureProps
      /\ forall k, In k secureProps ->
           In k (Obj.keys (IConfigProfile.properties (snd e))).

(** The directory of a type, the profile names listed in it and its meta
    file, as [convert] computes them. *)
Definition typeDir (profilesRootDir profileType : string) : string :=
  path_join io profilesRootDir profileType.

Definition listNames (profilesRootDir profileType : string)
  : result (list string) :=
  getAllProfileNames io (typeDir profilesRootDir profileType) ".yaml"
    (profileType ++ "_meta")%string.

Definition metaFileOf (profilesRootDir profileType : string) : string :=
  path_join io (typeDir profilesRootDir profileType)
    (profileType ++ "_meta.yaml")%string.

Definition fileOf (profilesRootDir profileType profileName : string)
  : string :=
  path_join io (typeDir profilesRootDir profileType)
    (profileName ++ ".yaml")%string.

(** The listings return: [profileTypes] are the types, and every type has
    its names listed. *)
Definition listed (profilesRootDir : string) (profileTypes : list string)
  : Prop :=
  getAllProfileDirectories io profilesRootDir = Ok profileTypes
  /\ forall profileType, In profileType profileTypes ->
       exists profileNames,
         listNames profilesRootDir profileType = Ok profileNames.

(** The names listed for a type; none when the listing throws. *)
Definition namesOf (profilesRootDir profileType : string) : list string :=
  match listNames profilesRootDir profileType with
  | Ok profileNames => profileNames
  | Throw _ => []
  end.

(** For the proofs: the round of a type with the names listed for it, and
    the rounds of all the types. *)
Definition convertListed (profilesRootDir : string)
  (r : IConfigConvertResult.t) (profileType : string)
  : IConfigConvertResult.t :=
  match namesOf profilesRootDir profileType with
  | [] => r
  | profileNames =>
      convertMeta (typeDir profilesRootDir profileType) profileType
        (fold_left
           (convertName (typeDir profilesRootDir profileType) profileType)
           profileNames r)
  end.

Definition convertAllListed (profilesRootDir : string)
  (profileTypes : list string) : IConfigConvertResult.t :=
  fold_left (convertListed profilesRootDir) profileTypes emptyResult.

(** The [try] block of the profile runs up to the profile it builds. *)
Definition succeeds (profilesRootDir profileType profileName : string)
  : bool :=
  match readProfile (typeDir profilesRootDir profileType) profileType
          profileName with
  | Ok _ => true
  | Throw _ => false
  end.

(** What is recorded comes from the listing: a failure from a listed
    profile that throws, or whose name cannot be recorded, or from the
    unreadable meta file of a type that has profiles; a default from a
    readable meta file; a profile from a listed profile that is read. *)
Definition sound_failure (profilesRootDir : string)
  (profileTypes : list string) (f : IConvertFailure.t) : Prop :=
  let profileType := IConvertFailure.type f in
  In profileType profileTypes
  /\ match IConvertFailure.name f with
     | Some profileName =>
         In profileName (namesOf profilesRootDir profileType)
         /\ (readProfile (typeDir profilesRootDir profileType) profileType
               profileName
             = Throw (IConvertFailure.error f)
             \/ (succeeds profilesRootDir profileType profileName = true
                 /\ Obj.inherited profileType = true
                 /\ IConvertFailure.error f = TypeError))
     | None =>
         namesOf profilesRootDir profileType <> []
         /\ readMetaFile io (metaFileOf profilesRootDir profileType)
            = Throw (IConvertFailure.error f)
     end.

Definition sound_failures (profilesRootDir : string)
  (profileTypes : list string) (r : IConfigConvertResult.t) : Prop :=
  forall f, In f (IConfigConvertResult.profilesFailed r) ->
    sound_failure profilesRootDir profileTypes f.

Definition sound_defaults (profilesRootDir : string)
  (profileTypes : list string) (r : IConfigConvertResult.t) : Prop :=
  forall profileType key,
    Obj.get profileType (IConfig.defaults (IConfigConvertResult.config r))
    = Some key ->
    In profileType profileTypes
    /\ namesOf profilesRootDir profileType <> []
    /\ exists defaultProfile,
         readMetaFile io (metaFileOf profilesRootDir profileType)
         = Ok {| IMetaProfile.defaultProfile := Some defaultProfile |}
         /\ key = getProfileMapKey io profileType defaultProfile.

Definition sound_profiles (profilesRootDir : string)
  (profileTypes : list string) (r : IConfigConvertResult.t) : Prop :=
  forall key p,
    Obj.get key (IConfig.profiles (IConfigConvertResult.config r)) = Some p ->
    exists profileType profileName,
      In profileType profileTypes
      /\ In profileName (namesOf profilesRootDir profileType)
      /\ readProfile (typeDir profilesRootDir profileType) profileType
           profileName = Ok p
      /\ key = getProfileMapKey io profileType profileName.

End WithCollaborators.

End Convert.

(** ** ConfigBuilder.build *)

Module ICommandOptionDefinition.

(** [defaultValue] is [VUndefined] when the definition gives none. *)
Record t : Type := mk {
  defaultValue : Js.value
}.

End ICommandOptionDefinition.

(** The [type] of a schema property: [string | string[]]. *)
Inductive PropType : Type :=
| OneType (tag : string)
| ManyTypes (tags : list string).

Module IProfileProperty.

Record t : Type := mk {
  type : PropType;
  secure : bool;
  includeInTemplate : bool;
  optionDefinition : option ICommandOptionDefinition.t
}.

End IProfileProperty.

Module IProfileSchema.

Record t : Type := mk {
  properties : Obj.t IProfileProperty.t
}.

End IProfileSchema.

Module IProfileTypeConfiguration.

Record t : Type := mk {
  type : string;
  schema : IProfileSchema.t
}.

End IProfileTypeConfiguration.

Module IImperativeConfig.

Record t : Type := mk {
  profiles : list IProfileTypeConfiguration.t;
  baseProfile : option IProfileTypeConfiguration.t
}.

End IImperativeConfig.

Module IConfigBuilderOpts.

(** [opts || {}] is the record with [populateProperties] false and no
    callback. *)
Record t : Type := mk {
  populateProperties : bool;
  getValueBack : option (string -> IProfileProperty.t -> result Js.value)
}.

End IConfigBuilderOpts.

Module Build.

Import Js.

(** [getDefaultValue]. The literals [{}] and [[]] make a new object each time
    they are evaluated: [next] is the first unused location, and the function
    returns the one that follows. *)
Definition getDefaultValue (propType : PropType) (next : nat) : value * nat :=
  let tag := match propType with
             | ManyTypes tags => hd_error tags
             | OneType tag => Some tag
             end in
  match tag with
  | None => (VNull, next)
  | Some tag =>
      if String.eqb tag "string" then (VStr "", next)
      else if String.eqb tag "number" then (VNum 0, next)
      else if String.eqb tag "object" then (VObject next [], S next)
      else if String.eqb tag "array" then (VArray next [], S next)
      else if String.eqb tag "boolean" then (VBool false, next)
      else (VNull, next)
  end.

(** [properties[k] === undefined]: an inherited member is not [undefined]. *)
Definition is_undefined_at (k : string) (properties : Obj.t value) : bool :=
  match Obj.read k properties with
  | Obj.Own VUndefined | Obj.Undefined => true
  | Obj.Own _ | Obj.Inherited => false
  end.

(** *** Steps the model does not cover

    Three things [build] can do are left outside the model, and a step
    that would do one of them has no outcome here, [None]:
    - [properties.__proto__ = v] with [v] an object, an array or [null]
      replaces the prototype of [properties], and the reads that follow go
      through the new one;
    - with a base type named [__proto__] the hoisted values are written to
      [Object.prototype.properties], and a profile [lodash.set] makes
      afterwards has them through its prototype;
    - [lodash.set] is not among the sources. It takes its path apart at
      dots and brackets and passes over the names [__proto__],
      [constructor] and [prototype]; for a name without any of this,
      [one_segment], the path [`profiles.${name}`] has the two segments
      [profiles] and [name]. Where the path leads through nothing,
      [lodash.set] makes an object, or an array when the segment that
      follows is an index. *)
Fixpoint foldO {A S : Type} (body : S -> A -> option S) (xs : list A) (s : S)
  : option S :=
  match xs with
  | [] => Some s
  | x :: xs' =>
      match body s x with
      | Some s' => foldO body xs' s'
      | None => None
      end
  end.

Fixpoint foldMO {A S : Type} (body : S -> A -> option (result S))
  (xs : list A) (s : S) : option (result S) :=
  match xs with
  | [] => Some (Ok s)
  | x :: xs' =>
      match body s x with
      | Some (Ok s') => foldMO body xs' s'
      | Some (Throw e) => Some (Throw e)
      | None => None
      end
  end.

Definition path_char (c : ascii) : bool :=
  Ascii.eqb c "."%char || Ascii.eqb c "["%char || Ascii.eqb c "]"%char.

Definition one_segment (name : string) : bool :=
  negb (String.eqb name "")
  && forallb (fun c => negb (path_char c)) (list_ascii_of_string name)
  && negb (includes name ["__proto__"; "constructor"; "prototype"]).

Definition all_digits (name : string) : bool :=
  forallb (fun c => match Obj.digit c with Some _ => true | None => false end)
    (list_ascii_of_string name).

(** [properties[k] = v] on the [properties] of the profile being built. *)
Definition assign_value (k : string) (v : value) (properties : Obj.t value)
  : option (Obj.t value) :=
  match Obj.get k properties with
  | Some _ => Some (Obj.set k v properties)
  | None =>
      if String.eqb k "__proto__" then
        match v with
        | VNull | VObject _ _ | VArray _ _ => None
        | _ => Some properties
        end
      else Some (Obj.set k v properties)
  end.

(** The body of the loop over [Object.entries(profile.schema.properties)];
    the state is [properties], [secureProps] and the next free location. *)
Definition schemaStep (populateProperties : bool)
  (st : Obj.t value * list string * nat) (e : string * IProfileProperty.t)
  : option (Obj.t value * list string * nat) :=
  let '(properties, secureProps, next) := st in
  let (k, v) := e in
  if populateProperties && IProfileProperty.includeInTemplate v then
    if IProfileProperty.secure v
    then Some (properties, secureProps ++ [k], next)
    else
      match
        match IProfileProperty.optionDefinition v with
        | Some optionDefinition =>
            assign_value k
              (ICommandOptionDefinition.defaultValue optionDefinition)
              properties
        | None => Some properties
        end
      with
      | Some properties1 =>
          if is_undefined_at k properties1 then
            let (d, next') := getDefaultValue (IProfileProperty.type v) next in
            match assign_value k d properties1 with
            | Some properties2 => Some (properties2, secureProps, next')
            | None => None
            end
          else Some (properties1, secureProps, next)
      | None => None
      end
  else Some st.

(** [lodash.set(config, `profiles.${name}`, profile)] *)
Definition lodash_set_profile (config : IConfig.t) (name : string)
  (profile : IConfigProfile.t) : option IConfig.t :=
  if one_segment name
  then Some (IConfig.with_profiles config
               (Obj.set name profile (IConfig.profiles config)))
  else None.

(** The body of the loop over [impConfig.profiles]. *)
Definition profileStep (opts : IConfigBuilderOpts.t)
  (st : IConfig.t * nat) (profile : IProfileTypeConfiguration.t)
  : option (IConfig.t * nat) :=
  let (config, next) := st in
  let populate := IConfigBuilderOpts.populateProperties opts in
  match
    foldO (schemaStep populate)
      (IProfileSchema.properties (IProfileTypeConfiguration.schema profile))
      ([], [], next)
  with
  | Some (properties, secureProps, next') =>
      let ty := IProfileTypeConfiguration.type profile in
      match
        lodash_set_profile config ty
          {| IConfigProfile.type := Some ty;
             IConfigProfile.properties := properties;
             IConfigProfile.secure := Some secureProps |}
      with
      | Some config1 =>
          if populate
          then Some (IConfig.with_defaults config1
                       (Obj.assign ty ty (IConfig.defaults config1)),
                     next')
          else Some (config1, next')
      | None => None
      end
  | None => None
  end.

(** With a base type named [__proto__], [profiles[baseProfileType]] is
    [Object.prototype], and the hoisted values are written to
    [Object.prototype.properties]: every object has them from then on. *)
Definition prototype_written (baseProfileType : string)
  (hoistedProps : list string) : bool :=
  String.eqb baseProfileType "__proto__"
  && match hoistedProps with
     | [] => false
     | _ :: _ => true
     end.

(** [lodash.set(config, `profiles.base.properties.${k}`, propValue)]: the
    profile and the [properties] the path lacks are made. The model does not
    cover the profile made after [Object.prototype] was written to: it has
    a [properties] through its prototype. *)
Definition lodash_set_base_property (written : bool) (config : IConfig.t)
  (k : string) (propValue : value) : option IConfig.t :=
  if one_segment k then
    match Obj.get "base" (IConfig.profiles config) with
    | Some p =>
        Some (IConfig.with_profiles config
                (Obj.set "base"
                   (IConfigProfile.with_properties p
                      (Obj.set k propValue (IConfigProfile.properties p)))
                   (IConfig.profiles config)))
    | None =>
        if written || all_digits k then None
        else
          Some (IConfig.with_profiles config
                  (Obj.set "base"
                     {| IConfigProfile.type := None;
                        IConfigProfile.properties := Obj.set k propValue [];
                        IConfigProfile.secure := None |}
                     (IConfig.profiles config)))
    end
  else None.

(** The body of the loop over the base profile's schema properties. *)
Definition valueBackStep
  (getValueBack : string -> IProfileProperty.t -> result value)
  (hoistedProps : list string) (written : bool) (config : IConfig.t)
  (e : string * IProfileProperty.t) : option (result IConfig.t) :=
  let (k, v) := e in
  if includes k hoistedProps
     || (IProfileProperty.includeInTemplate v && IProfileProperty.secure v)
  then
    match getValueBack k v with
    | Ok propValue =>
        if not_nullish propValue
        then option_map Ok
               (lodash_set_base_property written config k propValue)
        else Some (Ok config)
    | Throw error => Some (Throw error)
    end
  else Some (Ok config).






Definition templateValue (v : IProfileProperty.t) (next : nat) : value :=
  let fallBack := fst (getDefaultValue (IProfileProperty.type v) next) in
  match IProfileProperty.optionDefinition v with
  | Some optionDefinition =>
      match ICommandOptionDefinition.defaultValue optionDefinition with
      | VUndefined => fallBack
      | defaultValue => defaultValue
      end
  | None => fallBack
  end.

(** The profile of a type when nothing is populated. *)
Definition emptyProfile (ty : string) : IConfigProfile.t :=
  {| IConfigProfile.type := Some ty;
     IConfigProfile.properties := [];
     IConfigProfile.secure := Some [] |}.

Definition declare (profiles : Obj.t IConfigProfile.t)
  (profile : IProfileTypeConfiguration.t) : Obj.t IConfigProfile.t :=
  let ty := IProfileTypeConfiguration.type profile in
  Obj.set ty (emptyProfile ty) profiles.

(** [build]; [next] is the first location no value of the input uses. The
    outcome is [None] when a step is one the model does not cover. *)
Definition build (impConfig : IImperativeConfig.t)
  (opts : IConfigBuilderOpts.t) (next : nat) : option (result IConfig.t) :=
  match
    foldO (profileStep opts) (IImperativeConfig.profiles impConfig)
      (Config_empty, next)
  with
  | Some (config, _) =>
      match IImperativeConfig.baseProfile impConfig with
      | Some baseProfile =>
          match
            Hoist.hoistTemplateProperties (IConfig.profiles config)
              (IProfileTypeConfiguration.type baseProfile)
          with
          | Ok (hoistedProps, profiles) =>
              let config1 := IConfig.with_profiles config profiles in
              match IConfigBuilderOpts.getValueBack opts with
              | Some getValueBack =>
                  match
                    foldMO
                      (valueBackStep getValueBack hoistedProps
                         (prototype_written
                            (IProfileTypeConfiguration.type baseProfile)
                            hoistedProps))
                      (IProfileSchema.properties
                         (IProfileTypeConfiguration.schema baseProfile))
                      config1
                  with
                  | Some (Ok config2) =>
                      Some (Ok (IConfig.with_autoStore config2 true))
                  | Some (Throw error) => Some (Throw error)
                  | None => None
                  end
              | None => Some (Ok (IConfig.with_autoStore config1 true))
              end
          | Throw error => Some (Throw error)
          end
      | None => Some (Ok (IConfig.with_autoStore config true))
      end
  | None => None
  end.

End Build.

(** ** BaseAuthHandler *)

Module Auth.

(** [SessConstants.AUTH_TYPE_CHOICES]; the constants are declared in
    [SessConstants.ts], which is not among the sources. *)
Inductive AUTH_TYPE_CHOICES : Type :=
| AUTH_TYPE_NONE
| AUTH_TYPE_BASIC
| AUTH_TYPE_BEARER
| AUTH_TYPE_TOKEN
| AUTH_TYPE_CERT_PEM.

Module ISession.

(** The fields of a session the handler reads or writes, and the connection
    data that comes with them; an absent field is [None]. *)
Record t : Type := mk {
  hostname : option string;
  port : option Z;
  user : option string;
  password : option string;
  type : option AUTH_TYPE_CHOICES;
  tokenType : option string;
  tokenValue : option string
}.

Definition with_token (s : t) (ty : option AUTH_TYPE_CHOICES)
  (tokType tokValue : option string) : t :=
  {| hostname := hostname s; port := port s; user := user s;
     password := password s; type := ty; tokenType := tokType;
     tokenValue := tokValue |}.

End ISession.

Module ICommandArguments.

Record t : Type := mk {
  tokenType : option string;
  tokenValue : option string;
  host : option string;
  port : option Z;
  showToken : bool
}.

End ICommandArguments.

Module IProfile.

(** A loaded profile: its token fields and everything else it holds. *)
Record t : Type := mk {
  tokenType : option string;
  tokenValue : option string;
  others : Obj.t Js.value
}.

End IProfile.

Module IProfileLoaded.

(** Modelled from the spec: the answer of [getMeta] is declared in
    [IProfileLoaded.ts], which is not among the sources; it carries an
    optional [name], the [type] and the [profile]. *)
Record t : Type := mk {
  name : option string;
  type : string;
  profile : IProfile.t
}.

End IProfileLoaded.

(** Every call that leaves the handler, in the order it is made. *)
Inductive event : Type :=
| GetMeta (profileType : string) (failNotFound : bool)
| CreateSessCfgFromArgs (args : ICommandArguments.t)
| AddCredsOrPrompt (sessCfg : ISession.t) (requestToken : bool)
    (defaultTokenType : string)
| NewSession (sessCfg : ISession.t)
| DoLogin (session : ISession.t)
| DoLogout (session : ISession.t)
| Update (profileType name : string) (tokenType : option string)
    (tokenValue : string) (merge : bool)
| Save (profileType name type : string) (overwrite : bool)
    (profile : IProfile.t)
| ConsoleLog (msg : string).

(** The handler's field [mSession] (the [ISession] of the session object it
    refers to) and what the handler has done so far. *)
Record state : Type := mkState {
  mSession : option ISession.t;
  trace : list event
}.

(** Code that changes the handler and may throw: what it changed stays
    changed when it throws. *)
Definition M (A : Type) : Type := state -> result A * state.

Definition ret {A : Type} (a : A) : M A := fun s => (Ok a, s).

Definition throw {A : Type} (e : error) : M A := fun s => (Throw e, s).

Definition bindM {A B : Type} (m : M A) (f : A -> M B) : M B :=
  fun s =>
    match m s with
    | (Ok a, s') => f a s'
    | (Throw e, s') => (Throw e, s')
    end.

Declare Scope auth_scope.
Delimit Scope auth_scope with auth.

Notation "x <~ m ;; k" := (bindM m (fun x => k))
  (at level 61, m at next level, right associativity) : auth_scope.
Notation "m ;;; k" := (bindM m (fun _ => k))
  (at level 61, right associativity) : auth_scope.

Open Scope auth_scope.

(** A call to a collaborator: it is recorded, then its outcome is taken. *)
Definition call {A : Type} (e : event) (outcome : result A) : M A :=
  fun s => (outcome, {| mSession := mSession s; trace := trace s ++ [e] |}).

(** [this.mSession = new Session(...)] once the constructor has returned. *)
Definition setSession (session : ISession.t) : M unit :=
  fun s => (Ok tt, {| mSession := Some session; trace := trace s |}).

(** [this.mSession.ISession] *)
Definition getSession : M ISession.t :=
  fun s =>
    match mSession s with
    | Some session => (Ok session, s)
    | None => (Throw TypeError, s)
    end.

(** Modelled from the spec: [ImperativeExpect.toNotBeNullOrUndefined] is
    declared in the [expect] package, which is not among the sources; it
    fails with a validation error carrying [msg] when the value is absent. *)
Definition toNotBeNullOrUndefined {A : Type} (obj : option A) (msg : string)
  : M unit :=
  match obj with
  | Some _ => ret tt
  | None => throw (ImperativeError msg)
  end.

(** The abstract members a concrete handler supplies. [doLogin] and
    [doLogout] receive the session object itself: each returns its outcome
    and the session as it leaves it. *)
Record Handler : Type := {
  mProfileType : string;
  mDefaultTokenType : string;
  createSessCfgFromArgs : ICommandArguments.t -> result ISession.t;
  doLogin : ISession.t -> result string * ISession.t;
  doLogout : ISession.t -> result unit * ISession.t
}.

(** What the handler reaches through [params] and through the framework:
    the loaded profiles, the credential prompt, the [Session] constructor and
    the profile manager of a type. *)
Record Services : Type := {
  getMeta : string -> bool -> result IProfileLoaded.t;
  addCredsOrPrompt :
    ISession.t -> ICommandArguments.t -> bool -> string -> result ISession.t;
  newSession : ISession.t -> result ISession.t;
  update : string -> string -> option string -> string -> bool -> result unit;
  save : string -> string -> string -> bool -> IProfile.t -> result unit
}.

(** [a === b] on optional strings. *)
Definition strict_equal (a b : option string) : bool :=
  match a, b with
  | Some x, Some y => String.eqb x y
  | None, None => true
  | _, _ => false
  end.

(** The message that shows the token. *)
Definition tokenMessage (tokenType : option string) (tokenValue : string)
  : string :=
  ("
Received a token of type = " ++
   match tokenType with
   | Some ty => ty
   | None => "undefined"
   end ++
   ".
The following token was stored in your profile:
" ++ tokenValue)%string.

Section Handler.
Variable h : Handler.
Variable sv : Services.

(** [await this.doLogin(this.mSession)] and [await this.doLogout(...)] *)
Definition callDoLogin : M string :=
  session <~ getSession ;;
  let (outcome, session') := doLogin h session in
  setSession session' ;;;
  call (DoLogin session) outcome.

Definition callDoLogout : M unit :=
  session <~ getSession ;;
  let (outcome, session') := doLogout h session in
  setSession session' ;;;
  call (DoLogout session) outcome.

Definition processLogin (args : ICommandArguments.t) : M unit :=
  loadedProfile <~
    call (GetMeta (mProfileType h) false) (getMeta sv (mProfileType h) false) ;;
  sessCfg <~
    call (CreateSessCfgFromArgs args) (createSessCfgFromArgs h args) ;;
  sessCfgWithCreds <~
    call (AddCredsOrPrompt sessCfg true (mDefaultTokenType h))
         (addCredsOrPrompt sv sessCfg args true (mDefaultTokenType h)) ;;
  session <~ call (NewSession sessCfgWithCreds) (newSession sv sessCfgWithCreds) ;;
  setSession session ;;;
  tokenValue <~ callDoLogin ;;
  session <~ getSession ;;
  match IProfileLoaded.name loadedProfile with
  | Some name =>
      if negb (ICommandArguments.showToken args) then
        call (Update (mProfileType h) name (ISession.tokenType session)
                tokenValue true)
             (update sv (mProfileType h) name (ISession.tokenType session)
                tokenValue true)
      else ret tt
  | None => ret tt
  end ;;;
  call (ConsoleLog "Login successful.") (Ok tt) ;;;
  if ICommandArguments.showToken args then
    session <~ getSession ;;
    call (ConsoleLog (tokenMessage (ISession.tokenType session) tokenValue))
         (Ok tt)
  else ret tt.

Definition processLogout (args : ICommandArguments.t) : M unit :=
  loadedProfile <~
    call (GetMeta (mProfileType h) false) (getMeta sv (mProfileType h) false) ;;
  sessCfg <~
    call (CreateSessCfgFromArgs args) (createSessCfgFromArgs h args) ;;
  session <~ call (NewSession sessCfg) (newSession sv sessCfg) ;;
  setSession session ;;;
  toNotBeNullOrUndefined (ICommandArguments.tokenType args)
    "Token type not supplied, but is required for logout." ;;;
  toNotBeNullOrUndefined (ICommandArguments.tokenValue args)
    "Token value not supplied, but is required for logout." ;;;
  toNotBeNullOrUndefined (ICommandArguments.host args)
    "Host not supplied, but is required for logout." ;;;
  toNotBeNullOrUndefined (ICommandArguments.port args)
    "Port not supplied, but is required for logout." ;;;
  session <~ getSession ;;
  setSession
    (ISession.with_token session (Some AUTH_TYPE_TOKEN)
       (ICommandArguments.tokenType args)
       (ICommandArguments.tokenValue args)) ;;;
  callDoLogout ;;;
  match IProfileLoaded.name loadedProfile with
  | Some name =>
      let profile := IProfileLoaded.profile loadedProfile in
      if strict_equal (ICommandArguments.tokenValue args)
           (IProfile.tokenValue profile)
      then
        let cleared :=
          {| IProfile.tokenType := None; IProfile.tokenValue := None;
             IProfile.others := IProfile.others profile |} in
        call (Save (mProfileType h) name (IProfileLoaded.type loadedProfile)
                true cleared)
             (save sv (mProfileType h) name (IProfileLoaded.type loadedProfile)
                true cleared)
      else ret tt
  | None => ret tt
  end ;;;
  session <~ getSession ;;
  setSession (ISession.with_token session (Some AUTH_TYPE_BASIC) None None) ;;;
  call (ConsoleLog "Logout successful.") (Ok tt).

End Handler.


Definition quote : string := String (ascii_of_nat 34) EmptyString.




(** The calls only a login makes, and the calls only a logout makes. *)
Definition login_call (e : event) : bool :=
  match e with
  | AddCredsOrPrompt _ _ _ | DoLogin _ | Update _ _ _ _ _ => true
  | _ => false
  end.

Definition logout_call (e : event) : bool :=
  match e with
  | DoLogout _ | Save _ _ _ _ _ => true
  | _ => false
  end.

(** For stating the validation: the message of the first of the four checks
    that fails. *)
Definition firstMissing (args : ICommandArguments.t) : option string :=
  match ICommandArguments.tokenType args with
  | None => Some "Token type not supplied, but is required for logout."
  | Some _ =>
      match ICommandArguments.tokenValue args with
      | None => Some "Token value not supplied, but is required for logout."
      | Some _ =>
          match ICommandArguments.host args with
          | None => Some "Host not supplied, but is required for logout."
          | Some _ =>
              match ICommandArguments.port args with
              | None => Some "Port not supplied, but is required for logout."
              | Some _ => None
              end
          end
      end
  end.

End Auth.

(** ** Concrete inputs *)

Module Examples.

Import Js.

Definition profile (type : string) (properties : Obj.t value)
  (secure : list string) : IConfigProfile.t :=
  {| IConfigProfile.type := Some type;
     IConfigProfile.properties := properties;
     IConfigProfile.secure := Some secure |}.

(** Two service profiles with the same host and different ports, and a base
    profile. *)
Definition sameHost : Obj.t IConfigProfile.t :=
  [ ("base", profile "base" [("rejectUnauthorized", VBool true)] []);
    ("zosmf", profile "zosmf" [("host", VStr "example.com"); ("port", VNum 443)] []);
    ("tso", profile "tso" [("host", VStr "example.com"); ("port", VNum 22)] []) ].

(** Two service profiles whose [options] default is the empty object, each
    its own: what [build] makes of two schema properties of type "object". *)
Definition twoObjects : Obj.t IConfigProfile.t :=
  [ ("base", profile "base" [] []);
    ("zosmf", profile "zosmf" [("options", VObject 0 [])] []);
    ("tso", profile "tso" [("options", VObject 1 [])] []) ].

Definition objectProperty : IProfileProperty.t :=
  {| IProfileProperty.type := OneType "object";
     IProfileProperty.secure := false;
     IProfileProperty.includeInTemplate := true;
     IProfileProperty.optionDefinition := None |}.

Definition profileType (type : string)
  (properties : Obj.t IProfileProperty.t) : IProfileTypeConfiguration.t :=
  {| IProfileTypeConfiguration.type := type;
     IProfileTypeConfiguration.schema :=
       {| IProfileSchema.properties := properties |} |}.

Definition twoObjectsConfig : IImperativeConfig.t :=
  {| IImperativeConfig.profiles :=
       [ profileType "base" [];
         profileType "zosmf" [("options", objectProperty)];
         profileType "tso" [("options", objectProperty)] ];
     IImperativeConfig.baseProfile := Some (profileType "base" []) |}.

Definition populate : IConfigBuilderOpts.t :=
  {| IConfigBuilderOpts.populateProperties := true;
     IConfigBuilderOpts.getValueBack := None |}.

(** A base profile type named "root" with a secure token, and a callback
    that answers with the token. *)
Definition tokenProperty : IProfileProperty.t :=
  {| IProfileProperty.type := OneType "string";
     IProfileProperty.secure := true;
     IProfileProperty.includeInTemplate := true;
     IProfileProperty.optionDefinition := None |}.

Definition hostProperty : IProfileProperty.t :=
  {| IProfileProperty.type := OneType "string";
     IProfileProperty.secure := false;
     IProfileProperty.includeInTemplate := true;
     IProfileProperty.optionDefinition := None |}.

Definition rootBaseConfig : IImperativeConfig.t :=
  {| IImperativeConfig.profiles :=
       [ profileType "zosmf" [("host", hostProperty)];
         profileType "root" [("tokenValue", tokenProperty)] ];
     IImperativeConfig.baseProfile :=
       Some (profileType "root" [("tokenValue", tokenProperty)]) |}.

Definition askToken : IConfigBuilderOpts.t :=
  {| IConfigBuilderOpts.populateProperties := true;
     IConfigBuilderOpts.getValueBack :=
       Some (fun _ _ => Ok (VStr "abc123")) |}.

(** A conversion result with one profile that has a host under both the old
    and the new name. *)
Definition bothNames : IConfigConvertResult.t :=
  {| IConfigConvertResult.config :=
       IConfig.with_profiles Config_empty
         [ ("zosmf_lpar1",
            profile "zosmf"
              [("hostname", VStr "old.example.com");
               ("host", VStr "new.example.com");
               ("port", VNum 443)]
              ["pass"; "username"]) ];
     IConfigConvertResult.profilesConverted := [("zosmf", ["lpar1"])];
     IConfigConvertResult.profilesFailed := [] |}.

(** A profiles directory with one type, [zosmf], and two profiles: [a], whose
    password is in the vault, and [b], whose file is malformed. *)
Definition quote : string := String (ascii_of_nat 34) EmptyString.

Definition secretText : string := (quote ++ "pw" ++ quote)%string.

Definition legacy : Collaborators :=
  {| getAllProfileDirectories := fun _ => Ok ["zosmf"];
     getAllProfileNames := fun _ _ _ => Ok ["a"; "b"];
     readProfileFile :=
       fun path _ =>
         if String.eqb path "/profiles/zosmf/a.yaml"
         then Ok [("host", VStr "example.com");
                  ("pass", VStr "managed by Zowe CLI")]
         else Throw (ExternalError "malformed YAML");
     readMetaFile :=
       fun _ => Ok {| IMetaProfile.defaultProfile := Some "a" |};
     load :=
       fun key _ =>
         if String.eqb key "zosmf_a_pass" then Ok (Some secretText)
         else Ok None;
     getProfilePropertyKey :=
       fun type name field => (type ++ "_" ++ name ++ "_" ++ field)%string;
     getProfileMapKey := fun type name => (type ++ "_" ++ name)%string;
     PROFILES_OPTION_SECURELY_STORED := "managed by";
     path_join := fun a b => (a ++ "/" ++ b)%string;
     JSON_parse :=
       fun text =>
         if String.eqb text secretText then Ok (VStr "pw")
         else Throw SyntaxError;
     Number_toString := fun _ => "0" |}.



Definition convertedA : IConfigProfile.t :=
  profile "zosmf" [("host", VStr "example.com"); ("password", VStr "pw")]
    ["password"].

(** The auth handler of a [fruit] service and what surrounds it: a loaded
    profile [my_fruit] that holds a token, a session builder that copies the
    host and the port, a login that answers with a new token and a logout
    that succeeds. *)
Definition fruitHandler : Auth.Handler :=
  {| Auth.mProfileType := "fruit";
     Auth.mDefaultTokenType := "jwtToken";
     Auth.createSessCfgFromArgs :=
       fun args =>
         Ok {| Auth.ISession.hostname := Auth.ICommandArguments.host args;
               Auth.ISession.port := Auth.ICommandArguments.port args;
               Auth.ISession.user := None;
               Auth.ISession.password := None;
               Auth.ISession.type := None;
               Auth.ISession.tokenType := None;
               Auth.ISession.tokenValue := None |};
     Auth.doLogin := fun session => (Ok "fakeToken", session);
     Auth.doLogout := fun session => (Ok tt, session) |}.

Definition fruitServices : Auth.Services :=
  {| Auth.getMeta :=
       fun type _ =>
         Ok {| Auth.IProfileLoaded.name := Some "my_fruit";
               Auth.IProfileLoaded.type := type;
               Auth.IProfileLoaded.profile :=
                 {| Auth.IProfile.tokenType := Some "jwtToken";
                    Auth.IProfile.tokenValue := Some "storedToken";
                    Auth.IProfile.others := [("host", VStr "example.com")] |} |};
     Auth.addCredsOrPrompt :=
       fun sessCfg _ _ defaultTokenType =>
         Ok (Auth.ISession.with_token sessCfg (Some Auth.AUTH_TYPE_TOKEN)
               (Some defaultTokenType) None);
     Auth.newSession := fun sessCfg => Ok sessCfg;
     Auth.update := fun _ _ _ _ _ => Ok tt;
     Auth.save := fun _ _ _ _ _ => Ok tt |}.

(** The session both build from a host and a port. *)
Definition fruitSession : Auth.ISession.t :=
  {| Auth.ISession.hostname := Some "example.com";
     Auth.ISession.port := Some 443%Z;
     Auth.ISession.user := None;
     Auth.ISession.password := None;
     Auth.ISession.type := None;
     Auth.ISession.tokenType := None;
     Auth.ISession.tokenValue := None |}.

Definition idle : Auth.state :=
  {| Auth.mSession := None; Auth.trace := [] |}.

(** A logout without the token type. *)
Definition logoutNoTokenType : Auth.ICommandArguments.t :=
  {| Auth.ICommandArguments.tokenType := None;
     Auth.ICommandArguments.tokenValue := Some "storedToken";
     Auth.ICommandArguments.host := Some "example.com";
     Auth.ICommandArguments.port := Some 443%Z;
     Auth.ICommandArguments.showToken := false |}.

(** A logout with a token that is not the one of the profile. *)
Definition logoutOtherToken : Auth.ICommandArguments.t :=
  {| Auth.ICommandArguments.tokenType := Some "jwtToken";
     Auth.ICommandArguments.tokenValue := Some "anotherToken";
     Auth.ICommandArguments.host := Some "example.com";
     Auth.ICommandArguments.port := Some 443%Z;
     Auth.ICommandArguments.showToken := false |}.

Definition loginArgs (showToken : bool) : Auth.ICommandArguments.t :=
  {| Auth.ICommandArguments.tokenType := None;
     Auth.ICommandArguments.tokenValue := None;
     Auth.ICommandArguments.host := Some "example.com";
     Auth.ICommandArguments.port := Some 443%Z;
     Auth.ICommandArguments.showToken := showToken |}.

End Examples.

(** ** Proof steps *)

(** Compare the name [k] with each name it is tested against. *)
Ltac case_name k :=
  repeat match goal with
         | |- context [String.eqb k ?b] =>
             destruct (String.eqb_spec k b) as [->|?]
         end.

(** ** More concrete inputs *)

Module MoreExamples.

Import Js.

(** *** For the hoister *)

(** The two service profiles of [Examples.sameHost] without a base profile,
    and one of them with it. *)
Definition noBase : Obj.t IConfigProfile.t :=
  [ ("zosmf", Examples.profile "zosmf"
                [("host", VStr "example.com"); ("port", VNum 443)] []);
    ("tso", Examples.profile "tso"
              [("host", VStr "example.com"); ("port", VNum 22)] []) ].

Definition oneChild : Obj.t IConfigProfile.t :=
  [ ("base", Examples.profile "base" [("rejectUnauthorized", VBool true)] []);
    ("zosmf", Examples.profile "zosmf"
                [("host", VStr "example.com"); ("port", VNum 443)] []) ].

Definition sameHostBase : IConfigProfile.t :=
  Examples.profile "base" [("rejectUnauthorized", VBool true)] [].

Definition sameHostHoisted : Obj.t IConfigProfile.t :=
  match Hoist.hoistTemplateProperties Examples.sameHost "base" with
  | Ok (_, profiles) => profiles
  | Throw _ => []
  end.

(** Two service profiles with the same host and the same port. *)
Definition sameHostAndPort : Obj.t IConfigProfile.t :=
  [ ("base", Examples.profile "base" [] []);
    ("zosmf", Examples.profile "zosmf"
                [("host", VStr "example.com"); ("port", VNum 443)] []);
    ("tso", Examples.profile "tso"
              [("host", VStr "example.com"); ("port", VNum 443)] []) ].

Definition sameHostAndPortHoisted : Obj.t IConfigProfile.t :=
  match Hoist.hoistTemplateProperties sameHostAndPort "base" with
  | Ok (_, profiles) => profiles
  | Throw _ => []
  end.

(** *** For the renamer *)

Definition resultOf (profiles : Obj.t IConfigProfile.t)
  : IConfigConvertResult.t :=
  {| IConfigConvertResult.config := IConfig.with_profiles Config_empty profiles;
     IConfigConvertResult.profilesConverted := [("zosmf", ["lpar1"])];
     IConfigConvertResult.profilesFailed := [] |}.

(** A profile without a secure list. *)
Definition noSecureList : IConfigProfile.t :=
  {| IConfigProfile.type := Some "zosmf";
     IConfigProfile.properties := [("hostname", VStr "example.com")];
     IConfigProfile.secure := None |}.

(** A profile with old names only, and one with new names only. *)
Definition oldNames : IConfigProfile.t :=
  Examples.profile "zosmf"
    [("hostname", VStr "example.com"); ("port", VNum 443);
     ("username", VStr "ibmuser")]
    ["pass"].

Definition newNames : IConfigProfile.t :=
  Examples.profile "zosmf"
    [("host", VStr "example.com"); ("port", VNum 443);
     ("user", VStr "ibmuser")]
    ["password"].

Definition renamedBothNames : IConfigConvertResult.t :=
  match Rename.convertPropNames Examples.bothNames with
  | Ok r => r
  | Throw _ => Examples.bothNames
  end.

(** *** For the converter *)

(** A profiles directory as [Examples.legacy], with the listing of the
    directory, the file of profile [a] and the vault given. *)
Definition legacyWith (names : list string) (file : Obj.t value)
  (vault : string -> result (option string)) : Collaborators :=
  {| getAllProfileDirectories := getAllProfileDirectories Examples.legacy;
     getAllProfileNames := fun _ _ _ => Ok names;
     readProfileFile :=
       fun path _ =>
         if String.eqb path "/profiles/zosmf/a.yaml"
         then Ok file
         else Throw (ExternalError "malformed YAML");
     readMetaFile := readMetaFile Examples.legacy;
     load := fun key _ => vault key;
     getProfilePropertyKey := getProfilePropertyKey Examples.legacy;
     getProfileMapKey := getProfileMapKey Examples.legacy;
     PROFILES_OPTION_SECURELY_STORED :=
       PROFILES_OPTION_SECURELY_STORED Examples.legacy;
     path_join := path_join Examples.legacy;
     JSON_parse := JSON_parse Examples.legacy;
     Number_toString := Number_toString Examples.legacy |}.

Definition fileOfA : Obj.t value :=
  [("host", VStr "example.com"); ("pass", VStr "managed by Zowe CLI")].

(** The vault has no secret. *)
Definition emptyVault : Collaborators :=
  legacyWith ["a"; "b"] fileOfA (fun _ => Ok None).

Definition emptyVaultA : IConfigProfile.t :=
  Examples.profile "zosmf" [("host", VStr "example.com")] [].

(** The vault cannot be opened. *)
Definition lockedVault : Collaborators :=
  legacyWith ["a"; "b"] fileOfA
    (fun _ => Throw (ExternalError "vault is locked")).

(** The file of profile [a] has a property without a value. *)
Definition nullPort : Collaborators :=
  legacyWith ["a"; "b"] [("host", VStr "example.com"); ("port", VNull)]
    (fun _ => Ok None).

(** The directory of the type lists no profile. *)
Definition noProfiles : Collaborators :=
  legacyWith [] fileOfA (fun _ => Ok None).

Definition legacyA : IConfigProfile.t :=
  Examples.profile "zosmf"
    [("host", VStr "example.com"); ("pass", VStr "pw")] ["pass"].

(** *** For the builder *)

(** A property whose option definition has a default. *)
Definition portProperty : IProfileProperty.t :=
  {| IProfileProperty.type := OneType "number";
     IProfileProperty.secure := false;
     IProfileProperty.includeInTemplate := true;
     IProfileProperty.optionDefinition :=
       Some {| ICommandOptionDefinition.defaultValue := VNum 443 |} |}.

Definition zosmfType : IProfileTypeConfiguration.t :=
  Examples.profileType "zosmf"
    [("host", Examples.hostProperty); ("port", portProperty);
     ("tokenValue", Examples.tokenProperty)].


(** An application without a base profile. *)
Definition noBaseConfig : IImperativeConfig.t :=
  {| IImperativeConfig.profiles := [zosmfType];
     IImperativeConfig.baseProfile := None |}.



Definition answerNull (k : string) (v : IProfileProperty.t) : result value :=
  Ok VNull.

(** *** For the auth handler *)


(** A logout with the token of the profile. *)
Definition logoutSameToken : Auth.ICommandArguments.t :=
  {| Auth.ICommandArguments.tokenType := Some "jwtToken";
     Auth.ICommandArguments.tokenValue := Some "storedToken";
     Auth.ICommandArguments.host := Some "example.com";
     Auth.ICommandArguments.port := Some 443%Z;
     Auth.ICommandArguments.showToken := false |}.

(** A handler whose requests are refused. *)
Definition refusedHandler : Auth.Handler :=
  {| Auth.mProfileType := "fruit";
     Auth.mDefaultTokenType := "jwtToken";
     Auth.createSessCfgFromArgs :=
       Auth.createSessCfgFromArgs Examples.fruitHandler;
     Auth.doLogin :=
       fun session => (Throw (ExternalError "401 Unauthorized"), session);
     Auth.doLogout :=
       fun session => (Throw (ExternalError "401 Unauthorized"), session) |}.

(** No profile is loaded by name. *)
Definition namelessServices : Auth.Services :=
  {| Auth.getMeta :=
       fun type _ =>
         Ok {| Auth.IProfileLoaded.name := None;
               Auth.IProfileLoaded.type := type;
               Auth.IProfileLoaded.profile :=
                 {| Auth.IProfile.tokenType := None;
                    Auth.IProfile.tokenValue := None;
                    Auth.IProfile.others := [] |} |};
     Auth.addCredsOrPrompt := Auth.addCredsOrPrompt Examples.fruitServices;
     Auth.newSession := Auth.newSession Examples.fruitServices;
     Auth.update := Auth.update Examples.fruitServices;
     Auth.save := Auth.save Examples.fruitServices |}.

Definition fruitSessionWithCreds : Auth.ISession.t :=
  Auth.ISession.with_token Examples.fruitSession (Some Auth.AUTH_TYPE_TOKEN)
    (Some "jwtToken"%string) None.

Definition fruitLogoutSession : Auth.ISession.t :=
  Auth.ISession.with_token Examples.fruitSession (Some Auth.AUTH_TYPE_TOKEN)
    (Some "jwtToken"%string) (Some "storedToken"%string).

End MoreExamples.

(* ===================================================================== *)
(** * Properties *)
(* ===================================================================== *)

(** ** Objects used as maps *)

Module ObjFacts.

Lemma unique_NoDup (ks : list string) : Obj.unique ks = true <-> NoDup ks.
Proof.
  induction ks as [|k ks IH]; simpl.
  - split; [constructor | reflexivity].
  - rewrite andb_true_iff, negb_true_iff, IH. split.
    + intros [Hex Hnd]. constructor; [|assumption].
      intros Hin. assert (existsb (String.eqb k) ks = true) as E.
      { apply existsb_exists. exists k. split; [assumption|apply String.eqb_refl]. }
      congruence.
    + intros Hnd. inversion Hnd as [|? ? Hnotin Hnd']; subst. split; [|assumption].
      destruct (existsb (String.eqb k) ks) eqn:E; [|reflexivity].
      apply existsb_exists in E as (x & Hx & Heq).
      apply String.eqb_eq in Heq. subst x. contradiction.
Qed.

Section Lookup.
Context {A : Type}.
Implicit Types (o : Obj.t A) (k : string) (v : A).

Lemma unique_keys_NoDup o : Obj.unique_keys o = true <-> NoDup (Obj.keys o).
Proof. apply unique_NoDup. Qed.

Lemma get_In k v o : Obj.get k o = Some v -> In (k, v) o.
Proof.
  induction o as [|[k' v'] o IH]; simpl; [discriminate|].
  destruct (String.eqb_spec k k') as [->|Hne].
  - intros [= ->]. now left.
  - intros H. right. auto.
Qed.

Lemma get_None_not_In k o : Obj.get k o = None <-> ~ In k (Obj.keys o).
Proof.
  induction o as [|[k' v'] o IH]; simpl.
  - tauto.
  - destruct (String.eqb_spec k k') as [->|Hne].
    + split; [discriminate | intros H; exfalso; apply H; now left].
    + rewrite IH. split.
      * intros H [Heq|Hin]; [congruence | tauto].
      * tauto.
Qed.

Lemma In_entry_keys k v o : In (k, v) o -> In k (Obj.keys o).
Proof.
  intros H. unfold Obj.keys. change k with (fst (k, v)). now apply in_map.
Qed.

Lemma get_Some_In_keys k v o : Obj.get k o = Some v -> In k (Obj.keys o).
Proof. intros H. eapply In_entry_keys, get_In, H. Qed.

Lemma In_keys_get k o : In k (Obj.keys o) -> exists v, Obj.get k o = Some v.
Proof.
  intros Hin. destruct (Obj.get k o) as [v|] eqn:E; [eauto|].
  apply get_None_not_In in E. contradiction.
Qed.

Lemma In_get_unique k v o :
  NoDup (Obj.keys o) -> In (k, v) o -> Obj.get k o = Some v.
Proof.
  induction o as [|[k' v'] o IH]; simpl; [tauto|].
  intros Hnd [Heq|Hin].
  - injection Heq as -> ->. now rewrite String.eqb_refl.
  - inversion Hnd as [|? ? Hnotin Hnd']; subst.
    destruct (String.eqb_spec k k') as [->|Hne].
    + exfalso. apply Hnotin. eapply In_entry_keys, Hin.
    + auto.
Qed.

Lemma get_app k o1 o2 :
  Obj.get k (o1 ++ o2) =
  match Obj.get k o1 with
  | Some v => Some v
  | None => Obj.get k o2
  end.
Proof.
  induction o1 as [|[k' v'] o1 IH]; simpl; [reflexivity|].
  now destruct (String.eqb k k').
Qed.

(** *** Assignment *)

Lemma get_replace k k' v o :
  Obj.get k' (Obj.replace k v o) =
  if String.eqb k' k
  then match Obj.get k o with Some _ => Some v | None => None end
  else Obj.get k' o.
Proof.
  induction o as [|[k0 v0] o IH]; simpl.
  - now destruct (String.eqb k' k).
  - destruct (String.eqb_spec k k0) as [->|Hne]; simpl.
    + destruct (String.eqb_spec k' k0) as [->|Hne']; reflexivity.
    + destruct (String.eqb_spec k' k0) as [->|Hne'].
      * destruct (String.eqb_spec k0 k) as [->|_]; [congruence | reflexivity].
      * exact IH.
Qed.

Lemma keys_replace k v o : Obj.keys (Obj.replace k v o) = Obj.keys o.
Proof.
  induction o as [|[k0 v0] o IH]; simpl; [reflexivity|].
  destruct (String.eqb_spec k k0) as [->|Hne]; simpl; [reflexivity|].
  now rewrite IH.
Qed.

Lemma get_insert_index i k k' v o :
  Obj.array_index k = Some i ->
  Obj.get k' (Obj.insert_index i k v o) =
  if String.eqb k' k then Some v else Obj.get k' o.
Proof.
  intros Hi. induction o as [|[k0 v0] o IH]; simpl.
  - now destruct (String.eqb k' k).
  - destruct (Obj.array_index k0) as [j|] eqn:Ej.
    + destruct (N.ltb_spec j i) as [Hlt|Hge]; simpl.
      * destruct (String.eqb_spec k' k0) as [->|Hne0]; [|exact IH].
        destruct (String.eqb_spec k0 k) as [->|_]; [|reflexivity].
        rewrite Hi in Ej. injection Ej as ->. lia.
      * now destruct (String.eqb k' k).
    + simpl. now destruct (String.eqb k' k).
Qed.

Lemma In_keys_insert_index i k k' v o :
  In k' (Obj.keys (Obj.insert_index i k v o)) <-> k' = k \/ In k' (Obj.keys o).
Proof.
  induction o as [|[k0 v0] o IH]; simpl.
  - intuition.
  - destruct (Obj.array_index k0) as [j|]; [destruct (j <? i)%N|]; simpl;
      try rewrite IH; intuition.
Qed.

Lemma NoDup_keys_insert_index i k v o :
  ~ In k (Obj.keys o) -> NoDup (Obj.keys o) ->
  NoDup (Obj.keys (Obj.insert_index i k v o)).
Proof.
  induction o as [|[k0 v0] o IH]; simpl; intros Hnotin Hnd.
  - constructor; [tauto | constructor].
  - inversion Hnd as [|? ? Hnotin0 Hnd0]; subst.
    assert (Hfront : NoDup (k :: k0 :: Obj.keys o)) by (constructor; assumption).
    destruct (Obj.array_index k0) as [j|]; [destruct (j <? i)%N|]; simpl;
      try exact Hfront.
    constructor.
    + rewrite In_keys_insert_index. intros [->|Hin]; tauto.
    + apply IH; tauto.
Qed.

Lemma get_set k k' v o :
  Obj.get k' (Obj.set k v o) = if String.eqb k' k then Some v else Obj.get k' o.
Proof.
  unfold Obj.set. destruct (Obj.get k o) as [w|] eqn:E.
  - rewrite get_replace, E. reflexivity.
  - destruct (Obj.array_index k) as [i|] eqn:Ei.
    + now apply get_insert_index.
    + rewrite get_app. simpl.
      destruct (String.eqb_spec k' k) as [->|Hne].
      * now rewrite E.
      * now destruct (Obj.get k' o).
Qed.

Lemma get_set_eq k v o : Obj.get k (Obj.set k v o) = Some v.
Proof. now rewrite get_set, String.eqb_refl. Qed.

Lemma get_set_ne k k' v o : k' <> k -> Obj.get k' (Obj.set k v o) = Obj.get k' o.
Proof. intros H. rewrite get_set. now apply String.eqb_neq in H as ->. Qed.

Lemma In_keys_set k k' v o :
  In k' (Obj.keys (Obj.set k v o)) <-> k' = k \/ In k' (Obj.keys o).
Proof.
  unfold Obj.set. destruct (Obj.get k o) as [w|] eqn:E.
  - rewrite keys_replace. apply get_Some_In_keys in E.
    split; [tauto | intros [->|H]; assumption].
  - destruct (Obj.array_index k) as [i|].
    + apply In_keys_insert_index.
    + unfold Obj.keys. rewrite map_app, in_app_iff. simpl. intuition.
Qed.

Lemma NoDup_keys_set k v o :
  NoDup (Obj.keys o) -> NoDup (Obj.keys (Obj.set k v o)).
Proof.
  intros Hnd. unfold Obj.set. destruct (Obj.get k o) as [w|] eqn:E.
  - now rewrite keys_replace.
  - apply get_None_not_In in E. destruct (Obj.array_index k) as [i|].
    + now apply NoDup_keys_insert_index.
    + unfold Obj.keys. rewrite map_app. simpl.
      apply NoDup_app; [assumption | constructor; [tauto|constructor] |].
      intros x Hx [<-|[]]. contradiction.
Qed.

(** When the name is there, assignment is [replace]: the entries keep their
    places. *)
Lemma set_present k v w o :
  Obj.get k o = Some w -> Obj.set k v o = Obj.replace k v o.
Proof. intros E. unfold Obj.set. now rewrite E. Qed.

Lemma replace_as_map k (f : A -> A) w o :
  NoDup (Obj.keys o) -> Obj.get k o = Some w ->
  Obj.replace k (f w) o =
  map (fun e => (fst e, if String.eqb (fst e) k then f (snd e) else snd e)) o.
Proof.
  induction o as [|[k0 v0] o IH]; simpl; [discriminate|].
  intros Hnd. inversion Hnd as [|? ? Hnotin Hnd']; subst.
  destruct (String.eqb_spec k k0) as [->|Hne].
  - intros [= ->]. rewrite String.eqb_refl. f_equal.
    clear IH Hnd. induction o as [|[k1 v1] o IH]; simpl; [reflexivity|].
    simpl in Hnotin, Hnd'. inversion Hnd'; subst.
    destruct (String.eqb_spec k1 k0) as [->|Hne1]; [tauto|].
    f_equal. apply IH; tauto.
  - intros Hget. apply not_eq_sym, String.eqb_neq in Hne as Hne'.
    rewrite Hne'. f_equal. now apply IH.
Qed.

Lemma In_set k v e o :
  In e (Obj.set k v o) -> e = (k, v) \/ In e o.
Proof.
  unfold Obj.set. destruct (Obj.get k o) as [w|].
  - induction o as [|[k0 v0] o IH]; simpl; [tauto|].
    destruct (String.eqb k k0); simpl; intuition.
  - destruct (Obj.array_index k) as [i|].
    + induction o as [|[k0 v0] o IH]; simpl; [intuition|].
      destruct (Obj.array_index k0) as [j|]; [destruct (j <? i)%N|]; simpl;
        intuition.
    + rewrite in_app_iff. simpl. intuition.
Qed.

(** *** Deletion *)

Lemma get_delete k k' o :
  Obj.get k' (Obj.delete k o) = if String.eqb k' k then None else Obj.get k' o.
Proof.
  induction o as [|[k0 v0] o IH]; simpl.
  - now destruct (String.eqb k' k).
  - destruct (String.eqb_spec k k0) as [->|Hne]; simpl.
    + rewrite IH. now destruct (String.eqb k' k0).
    + destruct (String.eqb_spec k' k0) as [->|Hne'].
      * destruct (String.eqb_spec k0 k) as [->|_]; [congruence|reflexivity].
      * exact IH.
Qed.

Lemma In_keys_delete k k' o :
  In k' (Obj.keys (Obj.delete k o)) <-> k' <> k /\ In k' (Obj.keys o).
Proof.
  split.
  - intros H. apply In_keys_get in H as [v Hv]. rewrite get_delete in Hv.
    destruct (String.eqb_spec k' k) as [->|Hne]; [discriminate|].
    split; [assumption | eapply get_Some_In_keys, Hv].
  - intros [Hne Hin]. apply In_keys_get in Hin as [v Hv].
    apply (get_Some_In_keys _ v). rewrite get_delete.
    now apply String.eqb_neq in Hne as ->.
Qed.

Lemma NoDup_keys_delete k o :
  NoDup (Obj.keys o) -> NoDup (Obj.keys (Obj.delete k o)).
Proof.
  induction o as [|[k0 v0] o IH]; simpl; intros Hnd; [constructor|].
  inversion Hnd as [|? ? Hnotin Hnd']; subst.
  destruct (String.eqb k k0); simpl; [auto|].
  constructor; [|auto].
  intros Hin. apply In_keys_delete in Hin. tauto.
Qed.

Lemma delete_absent k o : Obj.get k o = None -> Obj.delete k o = o.
Proof.
  induction o as [|[k0 v0] o IH]; simpl; [reflexivity|].
  destruct (String.eqb_spec k k0) as [->|Hne]; [discriminate|].
  simpl. intros H. now rewrite IH.
Qed.

(** *** Spread *)

Lemma NoDup_keys_spread (target source : Obj.t A) :
  NoDup (Obj.keys target) -> NoDup (Obj.keys (Obj.spread target source)).
Proof.
  unfold Obj.spread. revert target.
  induction source as [|[k v] source IH]; simpl; intros target Hnd; [assumption|].
  apply IH. now apply NoDup_keys_set.
Qed.

Lemma get_spread k (target source : Obj.t A) :
  NoDup (Obj.keys source) ->
  Obj.get k (Obj.spread target source) =
  match Obj.get k source with
  | Some v => Some v
  | None => Obj.get k target
  end.
Proof.
  unfold Obj.spread. revert target.
  induction source as [|[k0 v0] source IH]; simpl; intros target Hnd;
    [reflexivity|].
  inversion Hnd as [|? ? Hnotin Hnd']; subst.
  rewrite IH by assumption. rewrite get_set.
  destruct (String.eqb_spec k k0) as [->|Hne]; [|reflexivity].
  apply get_None_not_In in Hnotin. now rewrite Hnotin.
Qed.

End Lookup.

(** *** Mapping over the values *)

Section MapValues.
Context {A B : Type}.

Lemma get_map_values (f : A -> B) k (o : Obj.t A) :
  Obj.get k (Obj.map_values f o) = option_map f (Obj.get k o).
Proof.
  induction o as [|[k0 v0] o IH]; simpl; [reflexivity|].
  now destruct (String.eqb k k0).
Qed.

Lemma keys_map_values (f : A -> B) (o : Obj.t A) :
  Obj.keys (Obj.map_values f o) = Obj.keys o.
Proof.
  unfold Obj.keys, Obj.map_values. rewrite map_map. reflexivity.
Qed.

End MapValues.

(** *** Reads and assignments *)

Section Prototype.
Context {A : Type}.
Implicit Types (o : Obj.t A).

Lemma read_own k v o : Obj.get k o = Some v -> Obj.read k o = Obj.Own v.
Proof. unfold Obj.read. now intros ->. Qed.

Lemma read_ordinary k o :
  Obj.inherited k = false ->
  Obj.read k o = match Obj.get k o with
                 | Some v => Obj.Own v
                 | None => Obj.Undefined
                 end.
Proof. unfold Obj.read. now intros ->. Qed.

Lemma read_inherited k o :
  Obj.inherited k = true -> Obj.get k o = None ->
  Obj.read k o = Obj.Inherited.
Proof. unfold Obj.read. now intros -> ->. Qed.

Lemma inherited_proto : Obj.inherited "__proto__" = true.
Proof. reflexivity. Qed.

Lemma assign_ordinary k v o :
  Obj.inherited k = false -> Obj.assign k v o = Obj.set k v o.
Proof.
  intros Hk. unfold Obj.assign. destruct (Obj.get k o); [reflexivity|].
  destruct (String.eqb_spec k "__proto__") as [->|_]; [discriminate|].
  reflexivity.
Qed.

Lemma assign_other k v o :
  k <> "__proto__"%string -> Obj.assign k v o = Obj.set k v o.
Proof.
  intros Hk. unfold Obj.assign. destruct (Obj.get k o); [reflexivity|].
  destruct (String.eqb_spec k "__proto__"); [contradiction | reflexivity].
Qed.

(** An assignment is the assignment to an own or new property, or none. *)
Lemma assign_cases k v o :
  Obj.assign k v o = Obj.set k v o
  \/ (Obj.assign k v o = o /\ k = "__proto__"%string /\ Obj.get k o = None).
Proof.
  unfold Obj.assign. destruct (Obj.get k o) eqn:E; [now left|].
  destruct (String.eqb_spec k "__proto__") as [->|_]; [|now left].
  right. auto.
Qed.

Lemma get_assign_ne k k' v o :
  k' <> k -> Obj.get k' (Obj.assign k v o) = Obj.get k' o.
Proof.
  intros Hne. destruct (assign_cases k v o) as [->|(-> & _)];
    [now apply get_set_ne | reflexivity].
Qed.

Lemma In_assign k v e o :
  In e (Obj.assign k v o) -> e = (k, v) \/ In e o.
Proof.
  destruct (assign_cases k v o) as [->|(-> & _)]; [apply In_set | now right].
Qed.

Lemma NoDup_keys_assign k v o :
  NoDup (Obj.keys o) -> NoDup (Obj.keys (Obj.assign k v o)).
Proof.
  destruct (assign_cases k v o) as [->|(-> & _)];
    [apply NoDup_keys_set | trivial].
Qed.

End Prototype.

End ObjFacts.

(** ** The comparison of [Set] *)

Module SetFacts.

Import Js.

Lemma same_value_zero_sym v w : same_value_zero v w = same_value_zero w v.
Proof.
  destruct v, w; simpl; try reflexivity.
  - now destruct b, b0.
  - apply Z.eqb_sym.
  - apply String.eqb_sym.
  - apply Nat.eqb_sym.
  - apply Nat.eqb_sym.
Qed.

Lemma same_value_zero_trans u v w :
  same_value_zero u v = true -> same_value_zero v w = true ->
  same_value_zero u w = true.
Proof.
  destruct u, v; simpl; try discriminate; destruct w; simpl;
    try discriminate; try reflexivity.
  - destruct b, b0, b1; simpl; congruence.
  - rewrite !Z.eqb_eq. congruence.
  - rewrite !String.eqb_eq. congruence.
  - rewrite !Nat.eqb_eq. congruence.
  - rewrite !Nat.eqb_eq. congruence.
Qed.

Lemma same_value_zero_refl v : same_value_zero v v = true.
Proof.
  destruct v; simpl; auto using Z.eqb_refl, String.eqb_refl, Nat.eqb_refl.
  now destruct b.
Qed.

Lemma Set_add_grows l s :
  List.length s <= List.length (fold_left Set_add l s).
Proof.
  revert s. induction l as [|x l IH]; simpl; intros s; [lia|].
  etransitivity; [|apply IH]. unfold Set_add.
  destruct (existsb (same_value_zero x) s); [lia|].
  rewrite length_app. simpl. lia.
Qed.

Lemma Set_size_cons v rest :
  Set_size (v :: rest) = 1 <->
  forall x, In x rest -> same_value_zero x v = true.
Proof.
  unfold Set_size, Set_of. simpl. unfold Set_add at 2. simpl.
  induction rest as [|x rest IH]; simpl.
  - split; [intros _ y []|reflexivity].
  - unfold Set_add at 2. simpl. rewrite orb_false_r.
    destruct (same_value_zero x v) eqn:E.
    + rewrite IH. split.
      * intros H y [<-|Hy]; auto.
      * intros H y Hy. auto.
    + split.
      * intros H. pose proof (Set_add_grows rest ([v] ++ [x])) as Hge.
        simpl in Hge. simpl in H. lia.
      * intros H. specialize (H x (or_introl eq_refl)). congruence.
Qed.

Lemma Set_size_one vs :
  Set_size vs = 1 <-> vs <> [] /\ all_same vs.
Proof.
  destruct vs as [|v rest].
  - unfold Set_size, Set_of. simpl. split; [discriminate | intros [H _]; congruence].
  - rewrite Set_size_cons. split.
    + intros H. split; [discriminate|].
      assert (Hv : forall x, In x (v :: rest) -> same_value_zero x v = true).
      { intros x [<-|Hx]; [apply same_value_zero_refl|auto]. }
      intros a b Ha Hb. apply same_value_zero_trans with v; [auto|].
      rewrite same_value_zero_sym. auto.
    + intros [_ H] x Hx. apply H; simpl; auto.
Qed.

End SetFacts.

(** ** hoistTemplateProperties: what is flattened and what is a duplicate *)

Module FlattenFacts.

Import Js Hoist ObjFacts.

Lemma get_flatten_entry k k' v fl :
  Obj.get k (collect_entry fl (k', v)) =
  if String.eqb k k' then Some (collected k' fl ++ [v]) else Obj.get k fl.
Proof. unfold collect_entry. now rewrite get_set. Qed.

Lemma NoDup_flatten_entries props fl :
  NoDup (Obj.keys fl) -> NoDup (Obj.keys (fold_left collect_entry props fl)).
Proof.
  revert fl. induction props as [|[k v] props IH]; simpl; intros fl H;
    [assumption|].
  apply IH. now apply NoDup_keys_set.
Qed.

Lemma get_flatten_profile k p fl :
  NoDup (Obj.keys (IConfigProfile.properties p)) ->
  Obj.get k (collect_profile fl p) =
  match Obj.get k (IConfigProfile.properties p) with
  | Some v => Some (collected k fl ++ [v])
  | None => Obj.get k fl
  end.
Proof.
  unfold collect_profile. generalize (IConfigProfile.properties p) as props.
  intros props. revert fl.
  induction props as [|[k0 v0] props IH]; simpl; intros fl Hnd; [reflexivity|].
  inversion Hnd as [|? ? Hnotin Hnd']; subst.
  rewrite IH by assumption.
  destruct (String.eqb_spec k k0) as [->|Hne].
  - apply get_None_not_In in Hnotin. rewrite Hnotin. apply get_set_eq.
  - unfold collected at 1. rewrite !get_set.
    apply String.eqb_neq in Hne. now rewrite Hne.
Qed.

Lemma get_flatten_children k cs fl :
  (forall p, In p cs -> NoDup (Obj.keys (IConfigProfile.properties p))) ->
  Obj.get k (fold_left collect_profile cs fl) =
  match flat_map (value_of k) cs with
  | [] => Obj.get k fl
  | vs => Some (collected k fl ++ vs)
  end.
Proof.
  revert fl. induction cs as [|c cs IH]; intros fl Hwf; [reflexivity|].
  cbn [fold_left flat_map].
  rewrite IH by (intros; apply Hwf; now right).
  unfold collected at 1.
  rewrite (get_flatten_profile k c fl) by (apply Hwf; now left).
  unfold value_of at 2.
  destruct (Obj.get k (IConfigProfile.properties c)) as [v|]; cbn [app].
  - destruct (flat_map (value_of k) cs); [reflexivity|].
    now rewrite <- app_assoc.
  - reflexivity.
Qed.

Lemma NoDup_flatten_children cs fl :
  NoDup (Obj.keys fl) -> NoDup (Obj.keys (fold_left collect_profile cs fl)).
Proof.
  revert fl. induction cs as [|c cs IH]; simpl; intros fl H; [assumption|].
  apply IH. now apply NoDup_flatten_entries.
Qed.

(** What [well_formed] gives. *)
Lemma well_formed_keys ps : well_formed ps = true -> NoDup (Obj.keys ps).
Proof.
  unfold well_formed. rewrite andb_true_iff. intros [H _].
  now apply unique_keys_NoDup.
Qed.

Lemma well_formed_In ps p :
  well_formed ps = true -> In p (Obj.values ps) ->
  NoDup (Obj.keys (IConfigProfile.properties p)).
Proof.
  unfold well_formed. rewrite andb_true_iff. intros [_ H] Hin.
  rewrite forallb_forall in H. now apply unique_keys_NoDup, H.
Qed.

Lemma well_formed_get ps key p :
  well_formed ps = true -> Obj.get key ps = Some p ->
  NoDup (Obj.keys (IConfigProfile.properties p)).
Proof.
  intros Hwf Hget. apply (well_formed_In ps); [assumption|].
  apply get_In in Hget. unfold Obj.values.
  change p with (snd (key, p)). now apply in_map.
Qed.

Lemma children_In b ps p :
  In p (children b ps) -> In p (Obj.values ps) /\ is_child b p = true.
Proof. unfold children. now rewrite filter_In. Qed.

Lemma get_flattenProps k b ps :
  well_formed ps = true ->
  Obj.get k (collectProps b ps) =
  match observed k b ps with
  | [] => None
  | vs => Some vs
  end.
Proof.
  intros Hwf. unfold collectProps, observed.
  rewrite get_flatten_children.
  - reflexivity.
  - intros p Hp. apply children_In in Hp as [Hp _].
    now apply (well_formed_In ps).
Qed.

Lemma NoDup_flattenProps b ps : NoDup (Obj.keys (collectProps b ps)).
Proof. apply NoDup_flatten_children. constructor. Qed.

Lemma In_duplicateProps_entries k (fl : Obj.t (list value)) :
  In k (duplicateProps fl) <->
  exists vs, In (k, vs) fl /\ is_duplicate vs = true.
Proof.
  unfold duplicateProps. rewrite in_map_iff. split.
  - intros ([k' vs] & <- & Hin). apply filter_In in Hin as [Hin Hd].
    exists vs. now split.
  - intros (vs & Hin & Hd). exists (k, vs). split; [reflexivity|].
    apply filter_In. now split.
Qed.

Lemma In_duplicateProps k b ps :
  well_formed ps = true ->
  In k (duplicateProps (collectProps b ps)) <->
  is_duplicate (observed k b ps) = true.
Proof.
  intros Hwf. rewrite In_duplicateProps_entries. split.
  - intros (vs & Hin & Hd).
    apply In_get_unique in Hin; [|apply NoDup_flattenProps].
    rewrite get_flattenProps in Hin by assumption.
    destruct (observed k b ps); [discriminate|]. now injection Hin as ->.
  - intros Hd. exists (observed k b ps). split; [|assumption].
    apply get_In. rewrite get_flattenProps by assumption.
    destruct (observed k b ps); [discriminate|reflexivity].
Qed.

(** *** When the first loop throws

    The loop runs to its end exactly when no property of a non-base profile
    has a name of [Object.prototype]; what it has collected then is
    [collectProps]. *)

Lemma seen_ordinary k fl :
  Obj.inherited k = false -> seen k fl = Ok (collected k fl).
Proof.
  intros Hk. unfold seen, collected. rewrite read_ordinary by assumption.
  now destruct (Obj.get k fl).
Qed.

Lemma flatten_entries props fl :
  (forall k, In k (Obj.keys fl) -> Obj.inherited k = false) ->
  foldM flatten_entry props fl =
  if forallb (fun k => negb (Obj.inherited k)) (Obj.keys props)
  then Ok (fold_left collect_entry props fl)
  else Throw TypeError.
Proof.
  revert fl. induction props as [|[k v] props IH]; intros fl Hfl;
    [reflexivity|].
  cbn [foldM Obj.keys map fst forallb fold_left]. unfold flatten_entry at 1.
  destruct (Obj.inherited k) eqn:Ek; cbn [negb andb].
  - unfold seen. rewrite read_inherited; [reflexivity | assumption |].
    apply get_None_not_In. intros Hin. rewrite (Hfl k Hin) in Ek.
    discriminate.
  - rewrite seen_ordinary by assumption. cbn [bind]. apply IH.
    intros k' Hk'. apply In_keys_set in Hk' as [->|Hk']; auto.
Qed.

Lemma keys_collect_entries props fl k :
  In k (Obj.keys (fold_left collect_entry props fl)) ->
  In k (Obj.keys fl) \/ In k (Obj.keys props).
Proof.
  revert fl. induction props as [|[k0 v0] props IH]; intros fl; [now left|].
  cbn [fold_left]. intros H. apply IH in H as [H|H].
  - unfold collect_entry in H. apply In_keys_set in H as [->|H].
    + right. now left.
    + now left.
  - right. now right.
Qed.

Lemma flatten_children cs fl :
  (forall k, In k (Obj.keys fl) -> Obj.inherited k = false) ->
  foldM flatten_profile cs fl =
  if forallb ordinary_names cs
  then Ok (fold_left collect_profile cs fl)
  else Throw TypeError.
Proof.
  revert fl. induction cs as [|c cs IH]; intros fl Hfl; [reflexivity|].
  cbn [foldM forallb fold_left]. unfold flatten_profile at 1.
  rewrite flatten_entries by assumption. fold (ordinary_names c).
  destruct (ordinary_names c) eqn:Ec; cbn [bind andb]; [|reflexivity].
  apply IH. intros k Hk. unfold collect_profile in Hk.
  apply keys_collect_entries in Hk as [Hk|Hk]; [auto|].
  unfold ordinary_names in Ec. rewrite forallb_forall in Ec.
  apply Ec in Hk. now destruct (Obj.inherited k).
Qed.

Lemma flattenProps_spec b ps :
  flattenProps b ps =
  if ordinary_children b ps then Ok (collectProps b ps) else Throw TypeError.
Proof.
  unfold flattenProps, ordinary_children, collectProps.
  apply flatten_children. intros k [].
Qed.

(** The hoisted value of a name is there for every duplicate. *)
Lemma duplicateProps_flattened k (fl : Obj.t (list value)) :
  In k (duplicateProps fl) -> exists vs, Obj.get k fl = Some vs.
Proof.
  rewrite In_duplicateProps_entries. intros (vs & Hin & _).
  apply In_keys_get. eapply In_entry_keys, Hin.
Qed.

Lemma length_observed k b ps :
  List.length (observed k b ps) = List.length (holders k b ps).
Proof.
  unfold observed, holders, value_of, has_property.
  induction (children b ps) as [|c cs IH]; simpl; [reflexivity|].
  destruct (Obj.get k (IConfigProfile.properties c)); simpl; now rewrite IH.
Qed.

Lemma is_duplicate_spec vs :
  is_duplicate vs = true <-> 1 < List.length vs /\ all_same vs.
Proof.
  unfold is_duplicate.
  rewrite andb_true_iff, Nat.ltb_lt, Nat.eqb_eq, SetFacts.Set_size_one.
  split.
  - tauto.
  - intros [Hlen Hsame]. repeat split; try assumption.
    intros ->. simpl in Hlen. lia.
Qed.

End FlattenFacts.

(** ** hoistTemplateProperties: the rounds of the last loop *)

Module HoistFacts.

Import Js Hoist ObjFacts FlattenFacts.

Lemma get_map_entries {A : Type} (f : string * A -> A) k (o : Obj.t A) :
  Obj.get k (map (fun e => (fst e, f e)) o) =
  option_map (fun v => f (k, v)) (Obj.get k o).
Proof.
  induction o as [|[k0 v0] o IH]; simpl; [reflexivity|].
  destruct (String.eqb_spec k k0) as [->|Hne]; [reflexivity | exact IH].
Qed.

Lemma keys_map_entries {A : Type} (f : string * A -> A) (o : Obj.t A) :
  Obj.keys (map (fun e => (fst e, f e)) o) = Obj.keys o.
Proof. unfold Obj.keys. rewrite map_map. reflexivity. Qed.

Lemma first_seen_own k fl vs :
  Obj.get k fl = Some vs -> first_seen k fl = Ok (nth 0 vs VUndefined).
Proof. intros Hk. unfold first_seen. now rewrite (read_own k vs). Qed.

(** One round is the same change made to every entry. *)
Lemma hoistProp_entries b fl ps k base vs :
  NoDup (Obj.keys ps) ->
  Obj.get b ps = Some base ->
  Obj.get k fl = Some vs ->
  hoistProp b fl ps k =
  Ok (map (fun e => (fst e, hoistInto b fl (fst e) (snd e) k)) ps).
Proof.
  intros Hnd Hb Hk. unfold hoistProp.
  rewrite (read_own b base), (first_seen_own k fl vs) by assumption.
  cbn [bind]. f_equal. unfold strip.
  rewrite (set_present _ _ base) by assumption.
  rewrite (replace_as_map b
             (fun p => IConfigProfile.with_properties p
                (Obj.spread (Obj.set k (nth 0 vs VUndefined) [])
                   (IConfigProfile.properties p))) base) by assumption.
  unfold Obj.map_values. rewrite map_map. apply map_ext.
  intros [key p]. simpl. unfold hoistInto, collected. rewrite Hk. reflexivity.
Qed.

(** So it is when the base type has a name of [Object.prototype] and no
    profile of its own: no entry is the base profile, and every non-base
    profile loses the property. *)
Lemma hoistProp_entries_inherited b fl ps k vs :
  Obj.get b ps = None ->
  Obj.inherited b = true ->
  Obj.get k fl = Some vs ->
  hoistProp b fl ps k =
  Ok (map (fun e => (fst e, hoistInto b fl (fst e) (snd e) k)) ps).
Proof.
  intros Hb Hin Hk. unfold hoistProp.
  rewrite (read_inherited b ps), (first_seen_own k fl vs) by assumption.
  cbn [bind]. f_equal. unfold strip, Obj.map_values.
  apply map_ext_in. intros [key p] He. cbn [fst snd]. unfold hoistInto.
  destruct (String.eqb_spec key b) as [->|_]; [|reflexivity].
  exfalso. apply get_None_not_In in Hb. apply Hb.
  eapply In_entry_keys, He.
Qed.

Lemma hoistProps_entries b fl ks ps :
  NoDup (Obj.keys ps) ->
  (exists base, Obj.get b ps = Some base)
  \/ (Obj.get b ps = None /\ Obj.inherited b = true) ->
  (forall k, In k ks -> exists vs, Obj.get k fl = Some vs) ->
  foldM (hoistProp b fl) ks ps = Ok (map (hoistAll b fl ks) ps).
Proof.
  revert ps. induction ks as [|k ks IH]; intros ps Hnd Hb Hks.
  - simpl. f_equal. unfold hoistAll, hoistRounds. simpl.
    rewrite <- (map_id ps) at 1. apply map_ext. now intros [key p].
  - destruct (Hks k (or_introl eq_refl)) as [vs Hk].
    cbn [foldM].
    assert (Hround :
      hoistProp b fl ps k =
      Ok (map (fun e => (fst e, hoistInto b fl (fst e) (snd e) k)) ps)).
    { destruct Hb as [[base Hb]|[Hb Hin]].
      - now apply (hoistProp_entries b fl ps k base vs).
      - now apply (hoistProp_entries_inherited b fl ps k vs). }
    rewrite Hround. cbn [bind].
    rewrite IH.
    + f_equal. rewrite map_map. apply map_ext. now intros [key p].
    + now rewrite keys_map_entries.
    + rewrite (get_map_entries (fun e => hoistInto b fl (fst e) (snd e) k)).
      destruct Hb as [[base Hb]|[Hb Hin]]; rewrite Hb; cbn [option_map];
        [left; eauto | right; auto].
    + intros k' Hk'. apply Hks. now right.
Qed.

(** The function throws in the first loop when a non-base profile has a
    property with a name of [Object.prototype]. *)
Lemma hoistTemplateProperties_throws ps b :
  ordinary_children b ps = false ->
  hoistTemplateProperties ps b = Throw TypeError.
Proof.
  intros Ho. unfold hoistTemplateProperties.
  now rewrite flattenProps_spec, Ho.
Qed.

(** Otherwise, with the base profile in the map, the function returns, and
    what it returns is [hoistAll] of every entry. *)
Lemma hoistTemplateProperties_entries ps b base :
  NoDup (Obj.keys ps) ->
  ordinary_children b ps = true ->
  Obj.get b ps = Some base ->
  hoistTemplateProperties ps b =
  Ok (duplicateProps (collectProps b ps),
      map (hoistAll b (collectProps b ps) (duplicateProps (collectProps b ps)))
        ps).
Proof.
  intros Hnd Ho Hb. unfold hoistTemplateProperties.
  rewrite flattenProps_spec, Ho. cbn [bind].
  rewrite hoistProps_entries; eauto using duplicateProps_flattened.
Qed.

(** Without it the function throws as soon as there is a name to hoist,
    unless the base type has a name of [Object.prototype]. *)
Lemma hoistTemplateProperties_no_base ps b :
  ordinary_children b ps = true ->
  Obj.get b ps = None ->
  Obj.inherited b = false ->
  hoistTemplateProperties ps b =
  match duplicateProps (collectProps b ps) with
  | [] => Ok ([], ps)
  | _ :: _ => Throw TypeError
  end.
Proof.
  intros Ho Hb Hin. unfold hoistTemplateProperties.
  rewrite flattenProps_spec, Ho. cbn [bind].
  destruct (duplicateProps (collectProps b ps)) as [|k ks]; [reflexivity|].
  cbn [foldM]. unfold hoistProp at 1.
  rewrite read_ordinary, Hb by assumption. reflexivity.
Qed.

Lemma hoistTemplateProperties_inherited ps b :
  NoDup (Obj.keys ps) ->
  ordinary_children b ps = true ->
  Obj.get b ps = None ->
  Obj.inherited b = true ->
  hoistTemplateProperties ps b =
  Ok (duplicateProps (collectProps b ps),
      map (hoistAll b (collectProps b ps) (duplicateProps (collectProps b ps)))
        ps).
Proof.
  intros Hnd Ho Hb Hin. unfold hoistTemplateProperties.
  rewrite flattenProps_spec, Ho. cbn [bind].
  rewrite hoistProps_entries; eauto using duplicateProps_flattened.
Qed.

Lemma hoistAll_none b fl (ps : Obj.t IConfigProfile.t) :
  map (hoistAll b fl []) ps = ps.
Proof.
  rewrite <- (map_id ps) at 2. apply map_ext. now intros [key p].
Qed.

(** Whenever the function returns, the names are the duplicates of what it
    has collected and the profiles are [hoistAll] of every entry. *)
Lemma hoistTemplateProperties_returns ps b hoisted ps' :
  NoDup (Obj.keys ps) ->
  hoistTemplateProperties ps b = Ok (hoisted, ps') ->
  ordinary_children b ps = true
  /\ hoisted = duplicateProps (collectProps b ps)
  /\ ps' = map (hoistAll b (collectProps b ps) hoisted) ps.
Proof.
  intros Hnd Hrun.
  destruct (ordinary_children b ps) eqn:Ho;
    [|rewrite hoistTemplateProperties_throws in Hrun by assumption;
      discriminate].
  split; [reflexivity|].
  destruct (Obj.get b ps) as [base|] eqn:Hb.
  - rewrite (hoistTemplateProperties_entries ps b base) in Hrun by assumption.
    injection Hrun as <- <-. auto.
  - destruct (Obj.inherited b) eqn:Hin.
    + rewrite hoistTemplateProperties_inherited in Hrun by assumption.
      injection Hrun as <- <-. auto.
    + rewrite hoistTemplateProperties_no_base in Hrun by assumption.
      destruct (duplicateProps (collectProps b ps)); [|discriminate].
      injection Hrun as <- <-. now rewrite hoistAll_none.
Qed.

(** *** What the rounds make of one profile *)

Lemma hoistInto_type b fl key p k :
  IConfigProfile.type (hoistInto b fl key p k) = IConfigProfile.type p.
Proof.
  unfold hoistInto.
  destruct (String.eqb key b); destruct (is_child b _); reflexivity.
Qed.

Lemma hoistInto_secure b fl key p k :
  IConfigProfile.secure (hoistInto b fl key p k) = IConfigProfile.secure p.
Proof.
  unfold hoistInto.
  destruct (String.eqb key b); destruct (is_child b _); reflexivity.
Qed.

Lemma hoistInto_is_child b fl key p k :
  is_child b (hoistInto b fl key p k) = is_child b p.
Proof. unfold is_child. now rewrite hoistInto_type. Qed.

Lemma hoistInto_NoDup b fl key p k :
  NoDup (Obj.keys (IConfigProfile.properties p)) ->
  NoDup (Obj.keys (IConfigProfile.properties (hoistInto b fl key p k))).
Proof.
  intros Hnd. unfold hoistInto.
  set (p1 := if String.eqb key b then _ else p).
  assert (H1 : NoDup (Obj.keys (IConfigProfile.properties p1))).
  { unfold p1. destruct (String.eqb key b); [|assumption].
    simpl. apply NoDup_keys_spread. apply NoDup_keys_set. constructor. }
  destruct (is_child b p1); [|assumption].
  simpl. now apply NoDup_keys_delete.
Qed.

(** A non-base profile loses the name, wherever it is stored. *)
Lemma hoistInto_child b fl key p k k' :
  NoDup (Obj.keys (IConfigProfile.properties p)) ->
  is_child b p = true ->
  Obj.get k' (IConfigProfile.properties (hoistInto b fl key p k)) =
  if String.eqb k' k then None
  else Obj.get k' (IConfigProfile.properties p).
Proof.
  intros Hnd Hc. unfold hoistInto.
  destruct (String.eqb key b).
  - replace (is_child b (IConfigProfile.with_properties p _)) with true.
    simpl. rewrite get_delete, get_spread by assumption.
    destruct (String.eqb_spec k' k) as [->|Hne]; [reflexivity|].
    destruct (Obj.get k' (IConfigProfile.properties p)); [reflexivity|].
    rewrite get_set. apply String.eqb_neq in Hne. now rewrite Hne.
  - rewrite Hc. simpl. apply get_delete.
Qed.

(** A profile of the base type stored elsewhere is left alone. *)
Lemma hoistInto_other b fl key p k :
  is_child b p = false -> key <> b -> hoistInto b fl key p k = p.
Proof.
  intros Hc Hne. unfold hoistInto.
  apply String.eqb_neq in Hne. now rewrite Hne, Hc.
Qed.

(** The base profile keeps what it has and gains the name if it lacks it. *)
Lemma hoistInto_base b fl p k k' :
  NoDup (Obj.keys (IConfigProfile.properties p)) ->
  is_child b p = false ->
  Obj.get k' (IConfigProfile.properties (hoistInto b fl b p k)) =
  match Obj.get k' (IConfigProfile.properties p) with
  | Some v => Some v
  | None =>
      if String.eqb k' k then Some (nth 0 (collected k fl) VUndefined) else None
  end.
Proof.
  intros Hnd Hc. unfold hoistInto. rewrite String.eqb_refl.
  replace (is_child b (IConfigProfile.with_properties p _)) with false.
  simpl. rewrite get_spread by assumption.
  destruct (Obj.get k' (IConfigProfile.properties p)); [reflexivity|].
  rewrite get_set. reflexivity.
Qed.

Section Rounds.
Variables (b : string) (fl : Obj.t (list value)).

Lemma rounds_type key ks p :
  IConfigProfile.type (hoistRounds b fl key ks p) = IConfigProfile.type p.
Proof.
  revert p. induction ks as [|k ks IH]; intros p; [reflexivity|].
  unfold hoistRounds in *. simpl. now rewrite IH, hoistInto_type.
Qed.

Lemma rounds_secure key ks p :
  IConfigProfile.secure (hoistRounds b fl key ks p) = IConfigProfile.secure p.
Proof.
  revert p. induction ks as [|k ks IH]; intros p; [reflexivity|].
  unfold hoistRounds in *. simpl. now rewrite IH, hoistInto_secure.
Qed.



Lemma rounds_child key ks p k' :
  NoDup (Obj.keys (IConfigProfile.properties p)) ->
  is_child b p = true ->
  Obj.get k' (IConfigProfile.properties (hoistRounds b fl key ks p)) =
  if includes k' ks then None
  else Obj.get k' (IConfigProfile.properties p).
Proof.
  revert p. induction ks as [|k ks IH]; intros p Hnd Hc; [reflexivity|].
  unfold hoistRounds in *. cbn [fold_left]. rewrite IH.
  - rewrite hoistInto_child by assumption. unfold includes. simpl.
    destruct (String.eqb k' k); simpl; [|reflexivity].
    now destruct (existsb (String.eqb k') ks).
  - now apply hoistInto_NoDup.
  - now rewrite hoistInto_is_child.
Qed.

Lemma rounds_other key ks p :
  is_child b p = false -> key <> b -> hoistRounds b fl key ks p = p.
Proof.
  intros Hc Hne. induction ks as [|k ks IH]; [reflexivity|].
  unfold hoistRounds in *. simpl. now rewrite hoistInto_other.
Qed.

Lemma rounds_base ks p k' :
  NoDup (Obj.keys (IConfigProfile.properties p)) ->
  is_child b p = false ->
  Obj.get k' (IConfigProfile.properties (hoistRounds b fl b ks p)) =
  match Obj.get k' (IConfigProfile.properties p) with
  | Some v => Some v
  | None =>
      if includes k' ks then Some (nth 0 (collected k' fl) VUndefined) else None
  end.
Proof.
  revert p. induction ks as [|k ks IH]; intros p Hnd Hc.
  - simpl. now destruct (Obj.get k' _).
  - unfold hoistRounds in *. cbn [fold_left]. rewrite IH.
    + rewrite hoistInto_base by assumption. unfold includes. simpl.
      destruct (Obj.get k' (IConfigProfile.properties p)); [reflexivity|].
      destruct (String.eqb_spec k' k) as [->|Hne]; simpl; reflexivity.
    + now apply hoistInto_NoDup.
    + now rewrite hoistInto_is_child.
Qed.

End Rounds.

End HoistFacts.

(** ** hoistTemplateProperties: the function as a whole *)

Module HoistSpec.

Import Js Hoist ObjFacts FlattenFacts HoistFacts.

Lemma includes_In k ks : includes k ks = true <-> In k ks.
Proof.
  unfold includes. rewrite existsb_exists. split.
  - intros (x & Hx & Heq). apply String.eqb_eq in Heq. now subst.
  - intros H. exists k. split; [assumption | apply String.eqb_refl].
Qed.

Lemma includes_not_In k ks : includes k ks = false <-> ~ In k ks.
Proof.
  rewrite <- includes_In. destruct (includes k ks); split; congruence.
Qed.

Lemma get_hoisted b fl ks key (ps : Obj.t IConfigProfile.t) :
  Obj.get key (map (hoistAll b fl ks) ps) =
  option_map (hoistRounds b fl key ks) (Obj.get key ps).
Proof.
  induction ps as [|[k0 p0] ps IH]; simpl; [reflexivity|].
  destruct (String.eqb_spec key k0) as [->|Hne]; [reflexivity | exact IH].
Qed.

Lemma keys_hoisted b fl ks (ps : Obj.t IConfigProfile.t) :
  Obj.keys (map (hoistAll b fl ks) ps) = Obj.keys ps.
Proof. unfold Obj.keys. rewrite map_map. reflexivity. Qed.






(** C2, as the code has it. When the profiles map has a profile under the
    base type's name and no property of a non-base profile has a name of
    [Object.prototype], the function returns; a name is hoisted if and only if
    more than one non-base profile has it and the values they give it are all
    the same for [Set], that is primitives equal by value and objects or
    arrays identical; every non-base profile loses the hoisted names and
    keeps its other properties; the profile of the base type stored under the
    base type's name keeps every property it had, and receives under each
    hoisted name it lacked one copy of the value, the first one observed;
    the other profiles of the base type are unchanged. *)
Theorem hoistTemplateProperties_spec
  (profiles : Obj.t IConfigProfile.t) (baseProfileType : string)
  (base : IConfigProfile.t) :
  well_formed profiles = true ->
  ordinary_children baseProfileType profiles = true ->
  Obj.get baseProfileType profiles = Some base ->
  exists hoisted profiles',
    hoistTemplateProperties profiles baseProfileType = Ok (hoisted, profiles')
    /\ (forall k,
          In k hoisted <->
          1 < List.length (holders k baseProfileType profiles)
          /\ all_same (observed k baseProfileType profiles))
    /\ (forall key p,
          Obj.get key profiles = Some p ->
          exists p',
            Obj.get key profiles' = Some p'
            /\ IConfigProfile.type p' = IConfigProfile.type p
            /\ IConfigProfile.secure p' = IConfigProfile.secure p
            /\ forall k,
                 Obj.get k (IConfigProfile.properties p') =
                 if is_child baseProfileType p then
                   if includes k hoisted then None
                   else Obj.get k (IConfigProfile.properties p)
                 else if String.eqb key baseProfileType then
                   match Obj.get k (IConfigProfile.properties p) with
                   | Some v => Some v
                   | None =>
                       if includes k hoisted
                       then hd_error (observed k baseProfileType profiles)
                       else None
                   end
                 else Obj.get k (IConfigProfile.properties p)).
Proof.
  intros Hwf Ho Hb.
  pose proof (well_formed_keys _ Hwf) as Hnd.
  rewrite (hoistTemplateProperties_entries _ _ base Hnd Ho Hb).
  set (fl := collectProps baseProfileType profiles).
  set (ks := duplicateProps fl).
  eexists _, _. split; [reflexivity|]. split.
  - intros k. unfold ks, fl. rewrite In_duplicateProps by assumption.
    rewrite is_duplicate_spec, length_observed. reflexivity.
  - intros key p Hp. rewrite get_hoisted, Hp. simpl.
    eexists. split; [reflexivity|].
    split; [apply rounds_type|]. split; [apply rounds_secure|].
    intros k.
    pose proof (well_formed_get _ _ _ Hwf Hp) as Hpnd.
    destruct (is_child baseProfileType p) eqn:Hc.
    + now apply rounds_child.
    + destruct (String.eqb_spec key baseProfileType) as [->|Hne].
      * rewrite rounds_base by assumption.
        destruct (Obj.get k (IConfigProfile.properties p)); [reflexivity|].
        destruct (includes k ks) eqn:Ek; [|reflexivity].
        f_equal. unfold collected, fl. rewrite get_flattenProps by assumption.
        apply includes_In in Ek. unfold ks, fl in Ek.
        apply In_duplicateProps in Ek; [|assumption].
        destruct (observed k baseProfileType profiles); [discriminate|].
        reflexivity.
      * now rewrite rounds_other.
Qed.

End HoistSpec.

(** ** hoistTemplateProperties: edges, order and what is never done *)

Module HoistMore.

Import Js Hoist ObjFacts FlattenFacts HoistFacts HoistSpec.

Lemma NoDup_map_fst_filter {A B : Type} (f : A * B -> bool) (l : list (A * B)) :
  NoDup (map fst l) -> NoDup (map fst (filter f l)).
Proof.
  induction l as [|e l IH]; simpl; intros Hnd; [constructor|].
  inversion Hnd as [|? ? Hnotin Hnd']; subst.
  destruct (f e); simpl; [|auto].
  constructor; [|auto].
  intros Hin. apply Hnotin. apply in_map_iff in Hin as (e' & He' & Hin).
  apply filter_In in Hin as [Hin _]. apply in_map_iff. eauto.
Qed.

Lemma NoDup_duplicateProps b ps : NoDup (duplicateProps (collectProps b ps)).
Proof.
  unfold duplicateProps. apply NoDup_map_fst_filter, NoDup_flattenProps.
Qed.

Lemma hoist_names ps b hoisted ps' :
  hoistTemplateProperties ps b = Ok (hoisted, ps') ->
  hoisted = duplicateProps (collectProps b ps).
Proof.
  unfold hoistTemplateProperties. rewrite flattenProps_spec.
  destruct (ordinary_children b ps); cbn [bind]; [|discriminate].
  destruct (foldM _ _ _); simpl; [|discriminate]. now intros [= <- <-].
Qed.

Lemma hoisted_criterion k b ps :
  well_formed ps = true ->
  In k (duplicateProps (collectProps b ps)) <->
  1 < List.length (holders k b ps) /\ all_same (observed k b ps).
Proof.
  intros Hwf. rewrite In_duplicateProps by assumption.
  now rewrite is_duplicate_spec, length_observed.
Qed.

(** X1. When the profiles map has no profile under the base type's name
    and no property of a non-base profile has a name of [Object.prototype]:
    the function returns no name and the map as it is if there is nothing to
    hoist; if there is, it throws a TypeError, unless the base type itself
    has a name of [Object.prototype]: then it returns the names, every
    non-base profile has lost them, and no profile has received them. *)
Theorem hoistTemplateProperties_without_base
  (profiles : Obj.t IConfigProfile.t) (baseProfileType : string) :
  well_formed profiles = true ->
  ordinary_children baseProfileType profiles = true ->
  Obj.get baseProfileType profiles = None ->
  ((forall k,
      ~ (1 < List.length (holders k baseProfileType profiles)
         /\ all_same (observed k baseProfileType profiles))) ->
   hoistTemplateProperties profiles baseProfileType = Ok ([], profiles))
  /\ ((exists k,
         1 < List.length (holders k baseProfileType profiles)
         /\ all_same (observed k baseProfileType profiles)) ->
      if Obj.inherited baseProfileType then
        exists hoisted profiles',
          hoistTemplateProperties profiles baseProfileType
          = Ok (hoisted, profiles')
          /\ hoisted <> []
          /\ forall key p,
               Obj.get key profiles = Some p ->
               exists p',
                 Obj.get key profiles' = Some p'
                 /\ forall k,
                      Obj.get k (IConfigProfile.properties p') =
                      if is_child baseProfileType p && includes k hoisted
                      then None
                      else Obj.get k (IConfigProfile.properties p)
      else
        hoistTemplateProperties profiles baseProfileType = Throw TypeError).
Proof.
  intros Hwf Ho Hb. pose proof (well_formed_keys _ Hwf) as Hnd. split.
  - intros Hnone.
    assert (E : duplicateProps (collectProps baseProfileType profiles) = []).
    { destruct (duplicateProps _) as [|k ks] eqn:E; [reflexivity|].
      exfalso. apply (Hnone k). apply hoisted_criterion; [assumption|].
      rewrite E. now left. }
    unfold hoistTemplateProperties. rewrite flattenProps_spec, Ho.
    cbn [bind]. rewrite E. reflexivity.
  - intros (k & Hk). apply hoisted_criterion in Hk; [|assumption].
    destruct (Obj.inherited baseProfileType) eqn:Hin.
    + rewrite hoistTemplateProperties_inherited by assumption.
      eexists _, _. split; [reflexivity|]. split.
      * intros E. rewrite E in Hk. contradiction.
      * intros key p Hp. rewrite get_hoisted, Hp. cbn [option_map].
        eexists. split; [reflexivity|]. intros k'.
        pose proof (well_formed_get _ _ _ Hwf Hp) as Hpnd.
        destruct (is_child baseProfileType p) eqn:Hc; cbn [andb].
        -- now apply rounds_child.
        -- rewrite rounds_other; [reflexivity | assumption |].
           intros ->. congruence.
    + rewrite hoistTemplateProperties_no_base by assumption.
      destruct (duplicateProps _); [contradiction | reflexivity].
Qed.

Lemma length_filter_le {A : Type} (f : A -> bool) (l : list A) :
  List.length (filter f l) <= List.length l.
Proof.
  induction l as [|a l IH]; simpl; [lia|]. destruct (f a); simpl; lia.
Qed.

(** X2. With fewer than two non-base profiles nothing is hoisted, whether
    the map holds the base profile or not: the function returns no name and
    the map as it is, unless a property of the non-base profile has a name
    of [Object.prototype]; then it throws a TypeError. *)
Theorem hoistTemplateProperties_single_child
  (profiles : Obj.t IConfigProfile.t) (baseProfileType : string) :
  well_formed profiles = true ->
  List.length (children baseProfileType profiles) <= 1 ->
  hoistTemplateProperties profiles baseProfileType =
  if ordinary_children baseProfileType profiles
  then Ok ([], profiles)
  else Throw TypeError.
Proof.
  intros Hwf Hfew.
  assert (Hnone : duplicateProps (collectProps baseProfileType profiles) = []).
  { destruct (duplicateProps _) as [|k ks] eqn:E; [reflexivity|].
    assert (Hk : In k (duplicateProps (collectProps baseProfileType profiles)))
      by (rewrite E; now left).
    apply hoisted_criterion in Hk as [Hlen _]; [|assumption].
    pose proof (length_filter_le (has_property k)
                  (children baseProfileType profiles)) as Hle.
    unfold holders in Hlen. lia. }
  unfold hoistTemplateProperties. rewrite flattenProps_spec.
  destruct (ordinary_children baseProfileType profiles); cbn [bind];
    [|reflexivity].
  rewrite Hnone. reflexivity.
Qed.

(** X3. No name is hoisted twice. *)
Theorem hoisted_names_distinct
  (profiles profiles' : Obj.t IConfigProfile.t) (baseProfileType : string)
  (hoisted : list string) :
  hoistTemplateProperties profiles baseProfileType = Ok (hoisted, profiles') ->
  NoDup hoisted.
Proof.
  intros H. rewrite (hoist_names _ _ _ _ H). apply NoDup_duplicateProps.
Qed.

Lemma observed_In k b ps v :
  In v (observed k b ps) ->
  exists p,
    In p (Obj.values ps)
    /\ Obj.get k (IConfigProfile.properties p) = Some v.
Proof.
  unfold observed. rewrite in_flat_map. intros (p & Hp & Hv).
  apply children_In in Hp as [Hp _]. exists p. split; [assumption|].
  unfold value_of in Hv.
  destruct (Obj.get k (IConfigProfile.properties p)); [|contradiction].
  destruct Hv as [->|[]]. reflexivity.
Qed.

Lemma In_values_get {A : Type} (o : Obj.t A) v :
  NoDup (Obj.keys o) -> In v (Obj.values o) ->
  exists key, Obj.get key o = Some v.
Proof.
  intros Hnd Hin. unfold Obj.values in Hin.
  apply in_map_iff in Hin as ([key v'] & <- & Hin).
  exists key. now apply In_get_unique.
Qed.

(** X4. Hoisting keeps the names under which the profiles are stored, in
    their order, and invents no value: a value a profile has for a property
    afterwards is a value some profile had for that property before. *)
Theorem hoisting_invents_nothing
  (profiles profiles' : Obj.t IConfigProfile.t) (baseProfileType : string)
  (hoisted : list string) :
  well_formed profiles = true ->
  hoistTemplateProperties profiles baseProfileType = Ok (hoisted, profiles') ->
  Obj.keys profiles' = Obj.keys profiles
  /\ forall key p' k v,
       Obj.get key profiles' = Some p' ->
       Obj.get k (IConfigProfile.properties p') = Some v ->
       exists key0 p0,
         Obj.get key0 profiles = Some p0
         /\ Obj.get k (IConfigProfile.properties p0) = Some v.
Proof.
  intros Hwf Hrun. pose proof (well_formed_keys _ Hwf) as Hnd.
  destruct (hoistTemplateProperties_returns _ _ _ _ Hnd Hrun)
    as (_ & -> & ->).
  split; [apply keys_hoisted|].
  intros key p' k v Hp' Hv. rewrite get_hoisted in Hp'.
  destruct (Obj.get key profiles) as [p|] eqn:Hp; [|discriminate].
  injection Hp' as <-.
  pose proof (well_formed_get _ _ _ Hwf Hp) as Hpnd.
  destruct (is_child baseProfileType p) eqn:Hc.
  - rewrite rounds_child in Hv by assumption.
    destruct (includes k _); [discriminate|]. eauto.
  - destruct (String.eqb_spec key baseProfileType) as [->|Hne].
    + rewrite rounds_base in Hv by assumption.
      destruct (Obj.get k (IConfigProfile.properties p)) as [w|] eqn:Hw.
      * injection Hv as <-. eauto.
      * destruct (includes k _) eqn:Ek; [|discriminate].
        injection Hv as <-. apply includes_In in Ek.
        apply In_duplicateProps in Ek; [|assumption].
        unfold collected. rewrite get_flattenProps by assumption.
        destruct (observed k baseProfileType profiles) as [|v0 vs] eqn:Eo;
          [discriminate|].
        assert (Hin : In v0 (observed k baseProfileType profiles))
          by (rewrite Eo; now left).
        apply observed_In in Hin as (p0 & Hp0 & Hv0).
        apply In_values_get in Hp0 as [key0 Hkey0]; [|assumption].
        simpl. eauto.
    + rewrite rounds_other in Hv by assumption. eauto.
Qed.

(** *** The order of the base profile's properties *)

Lemma set_fresh {A : Type} k (v : A) (o : Obj.t A) :
  Obj.get k o = None -> Obj.array_index k = None ->
  Obj.set k v o = o ++ [(k, v)].
Proof. intros Hget Hidx. unfold Obj.set. now rewrite Hget, Hidx. Qed.

Lemma spread_fresh {A : Type} (target source : Obj.t A) :
  NoDup (Obj.keys source) ->
  (forall k, In k (Obj.keys source) ->
     ~ In k (Obj.keys target) /\ Obj.array_index k = None) ->
  Obj.spread target source = target ++ source.
Proof.
  unfold Obj.spread. revert target.
  induction source as [|[k v] source IH]; intros target Hnd Hfresh.
  - simpl. now rewrite app_nil_r.
  - inversion Hnd as [|? ? Hnotin Hnd']; subst.
    destruct (Hfresh k (or_introl eq_refl)) as [Hk Hidx].
    cbn [fold_left fst snd]. rewrite set_fresh;
      [|now apply get_None_not_In|assumption].
    rewrite IH; [now rewrite <- app_assoc| assumption |].
    intros k' Hk'. destruct (Hfresh k' (or_intror Hk')) as [H1 H2].
    split; [|assumption]. unfold Obj.keys. rewrite map_app, in_app_iff.
    simpl. intros [Hin|[<-|[]]]; [now apply H1 | contradiction].
Qed.

Lemma hoistRounds_base_order b fl ks p :
  NoDup ks ->
  NoDup (Obj.keys (IConfigProfile.properties p)) ->
  is_child b p = false ->
  (forall k, In k ks ->
     ~ In k (Obj.keys (IConfigProfile.properties p))
     /\ Obj.array_index k = None) ->
  (forall k, In k (Obj.keys (IConfigProfile.properties p)) ->
     Obj.array_index k = None) ->
  IConfigProfile.properties (hoistRounds b fl b ks p) =
  map (fun k => (k, nth 0 (collected k fl) VUndefined)) (rev ks)
  ++ IConfigProfile.properties p.
Proof.
  unfold hoistRounds. revert p.
  induction ks as [|k ks IH]; intros p Hks Hnd Hc Hfresh Hplain;
    [reflexivity|].
  inversion Hks as [|? ? Hnotin Hks']; subst.
  destruct (Hfresh k (or_introl eq_refl)) as [Hk Hidx].
  assert (Hstep : IConfigProfile.properties (hoistInto b fl b p k) =
                  (k, nth 0 (collected k fl) VUndefined)
                  :: IConfigProfile.properties p).
  { unfold hoistInto. rewrite String.eqb_refl.
    replace (is_child b (IConfigProfile.with_properties p _)) with false.
    cbn [IConfigProfile.with_properties IConfigProfile.properties].
    rewrite (set_fresh k _ []) by auto. cbn [app].
    rewrite spread_fresh; [reflexivity|assumption|].
    intros k' Hk'. split; [|now apply Hplain].
    simpl. intros [<-|[]]. contradiction. }
  cbn [fold_left]. rewrite IH.
  - rewrite Hstep. cbn [rev]. rewrite map_app, <- app_assoc. reflexivity.
  - assumption.
  - rewrite Hstep. simpl. constructor; assumption.
  - now rewrite hoistInto_is_child.
  - intros k' Hk'. rewrite Hstep. simpl.
    destruct (Hfresh k' (or_intror Hk')) as [H1 H2]. split; [|assumption].
    intros [<-|Hin]; [contradiction | now apply H1].
  - intros k' Hk'. rewrite Hstep in Hk'. simpl in Hk'.
    destruct Hk' as [<-|Hk']; [assumption | now apply Hplain].
Qed.

Lemma plain_names_get ps key p k :
  plain_names ps = true ->
  Obj.get key ps = Some p ->
  In k (Obj.keys (IConfigProfile.properties p)) ->
  Obj.array_index k = None.
Proof.
  unfold plain_names. rewrite forallb_forall. intros Hplain Hp Hk.
  assert (Hin : In p (Obj.values ps)).
  { apply get_In in Hp. unfold Obj.values.
    change p with (snd (key, p)). now apply in_map. }
  specialize (Hplain p Hin). rewrite forallb_forall in Hplain.
  specialize (Hplain k Hk). unfold plain_name in Hplain.
  now destruct (Obj.array_index k).
Qed.

(** X5. The hoisted properties come first in the base profile, the last
    hoisted foremost, each with the first value observed for it, and the
    properties the base profile had follow in their order. This is so when
    the base profile has none of the hoisted names and no property name is
    an array index. *)
Theorem hoisted_properties_come_first
  (profiles profiles' : Obj.t IConfigProfile.t) (baseProfileType : string)
  (base : IConfigProfile.t) (hoisted : list string) :
  well_formed profiles = true ->
  plain_names profiles = true ->
  Obj.get baseProfileType profiles = Some base ->
  IConfigProfile.type base = Some baseProfileType ->
  hoistTemplateProperties profiles baseProfileType = Ok (hoisted, profiles') ->
  (forall k, In k hoisted ->
     Obj.get k (IConfigProfile.properties base) = None) ->
  exists base',
    Obj.get baseProfileType profiles' = Some base'
    /\ IConfigProfile.properties base' =
       map (fun k =>
              (k, nth 0 (observed k baseProfileType profiles) VUndefined))
           (rev hoisted)
       ++ IConfigProfile.properties base.
Proof.
  intros Hwf Hplain Hb Hty Hrun Hfresh.
  pose proof (well_formed_keys _ Hwf) as Hnd.
  destruct (hoistTemplateProperties_returns _ _ _ _ Hnd Hrun)
    as (_ & Hnames & ->).
  subst hoisted.
  eexists. rewrite get_hoisted, Hb. split; [reflexivity|].
  rewrite hoistRounds_base_order.
  - f_equal. apply map_ext_in. intros k Hk. f_equal.
    unfold collected. rewrite get_flattenProps by assumption.
    now destruct (observed k baseProfileType profiles).
  - apply NoDup_duplicateProps.
  - now apply (well_formed_get _ _ _ Hwf Hb).
  - unfold is_child. rewrite Hty. now rewrite String.eqb_refl.
  - intros k Hk. split; [now apply get_None_not_In, Hfresh|].
    apply hoisted_criterion in Hk as [Hlen _]; [|assumption].
    destruct (holders k baseProfileType profiles) as [|p0 rest] eqn:E;
      [simpl in Hlen; lia|].
    assert (Hp0 : In p0 (holders k baseProfileType profiles))
      by (rewrite E; now left).
    unfold holders in Hp0. apply filter_In in Hp0 as [Hp0 Hhas].
    apply children_In in Hp0 as [Hp0 _].
    apply In_values_get in Hp0 as [key0 Hkey0]; [|assumption].
    apply (plain_names_get profiles key0 p0); [assumption..|].
    unfold has_property in Hhas.
    destruct (Obj.get k (IConfigProfile.properties p0)) as [v|] eqn:Ev;
      [|discriminate].
    eapply get_Some_In_keys, Ev.
  - intros k Hk. now apply (plain_names_get profiles baseProfileType base).
Qed.

End HoistMore.

(** ** convertPropNames *)

Module RenameFacts.

Import Js Rename ObjFacts.

(** *** The table: old names and new names do not meet *)

Lemma findConversion_old k o n :
  findConversion k nameConversions = Some (o, n) ->
  o = k /\ findOldName n nameConversions = Some k
  /\ findConversion n nameConversions = None
  /\ findOldName k nameConversions = None.
Proof.
  unfold nameConversions. cbn [findConversion].
  case_name k; intros [= <- <-]; repeat split; reflexivity.
Qed.

Lemma findOldName_new k o :
  findOldName k nameConversions = Some o ->
  findConversion o nameConversions = Some (o, k)
  /\ findConversion k nameConversions = None.
Proof.
  unfold nameConversions. cbn [findOldName].
  case_name k; intros [= <-]; repeat split; reflexivity.
Qed.

Lemma findConversion_In o n :
  In (o, n) nameConversions <-> findConversion o nameConversions = Some (o, n).
Proof.
  split.
  - unfold nameConversions. simpl.
    intros [[= <- <-]|[[= <- <-]|[[= <- <-]|[]]]]; reflexivity.
  - unfold nameConversions. cbn [findConversion].
    case_name o; intros [= <-]; simpl; tauto.
Qed.

(** *** The plain properties *)

(** The renames staged from the entries [q], applied to [cur]. *)
Lemma get_staged (q cur : Obj.t value) k :
  NoDup (Obj.keys q) ->
  Obj.get k (fold_left applyConversion (profPropsToConvert q) cur) =
  match findConversion k nameConversions with
  | Some _ =>
      match Obj.get k q with
      | Some _ => None
      | None => Obj.get k cur
      end
  | None =>
      match findOldName k nameConversions with
      | Some o =>
          match Obj.get o q with
          | Some v => Some v
          | None => Obj.get k cur
          end
      | None => Obj.get k cur
      end
  end.
Proof.
  revert cur. induction q as [|[k0 v0] q IH]; intros cur Hnd.
  - cbn [profPropsToConvert flat_map fold_left Obj.get].
    destruct (findConversion k nameConversions); [reflexivity|].
    now destruct (findOldName k nameConversions).
  - inversion Hnd as [|? ? Hnotin Hnd']; subst.
    apply get_None_not_In in Hnotin.
    unfold profPropsToConvert. cbn [flat_map fst snd].
    fold (profPropsToConvert q). rewrite fold_left_app.
    cbn [Obj.get].
    destruct (findConversion k0 nameConversions) as [[o n]|] eqn:E0.
    + (* [k0] is an old name: it is deleted and [n] is assigned *)
      destruct (findConversion_old _ _ _ E0) as (-> & Hold & Hnew & Hk0).
      cbn [fold_left applyConversion]. rewrite IH by assumption.
      rewrite get_set, get_delete.
      destruct (findConversion k nameConversions) as [[o' n']|] eqn:E.
      * destruct (String.eqb_spec k n) as [->|Hn]; [congruence|].
        destruct (String.eqb_spec k k0) as [->|Hk].
        -- now rewrite Hnotin.
        -- reflexivity.
      * destruct (findOldName k nameConversions) as [o'|] eqn:Eo.
        -- destruct (findOldName_new _ _ Eo) as [Ho' _].
           destruct (String.eqb_spec o' k0) as [->|Hne].
           ++ assert (k = n) as -> by congruence.
              now rewrite Hnotin, String.eqb_refl.
           ++ destruct (String.eqb_spec k n) as [->|Hn]; [congruence|].
              destruct (String.eqb_spec k k0) as [->|Hk]; [congruence|].
              reflexivity.
        -- destruct (String.eqb_spec k n) as [->|Hn]; [congruence|].
           destruct (String.eqb_spec k k0) as [->|Hk]; [congruence|].
           reflexivity.
    + cbn [fold_left]. rewrite IH by assumption.
      destruct (findConversion k nameConversions) as [[o' n']|] eqn:E.
      * destruct (String.eqb_spec k k0) as [->|Hk]; [congruence|]. reflexivity.
      * destruct (findOldName k nameConversions) as [o'|] eqn:Eo;
          [|reflexivity].
        destruct (findOldName_new _ _ Eo) as [Ho' _].
        destruct (String.eqb_spec o' k0) as [->|Hne]; [congruence|].
        reflexivity.
Qed.

(** What a profile's properties are once renamed. *)
Lemma get_convertProps (props : Obj.t value) k :
  NoDup (Obj.keys props) ->
  Obj.get k (convertProps props) =
  match findConversion k nameConversions with
  | Some _ => None
  | None =>
      match findOldName k nameConversions with
      | Some o =>
          match Obj.get o props with
          | Some v => Some v
          | None => Obj.get k props
          end
      | None => Obj.get k props
      end
  end.
Proof.
  intros Hnd. unfold convertProps. rewrite get_staged by assumption.
  destruct (findConversion k nameConversions); [|reflexivity].
  now destruct (Obj.get k props).
Qed.

Lemma NoDup_convertProps (props : Obj.t value) :
  NoDup (Obj.keys props) -> NoDup (Obj.keys (convertProps props)).
Proof.
  unfold convertProps. generalize (profPropsToConvert props) as st.
  intros st. revert props.
  induction st as [|[[o n] v] st IH]; intros props Hnd; [assumption|].
  simpl. apply IH. now apply NoDup_keys_set, NoDup_keys_delete.
Qed.

(** Renamed properties have nothing left to rename. *)
Lemma profPropsToConvert_renamed (props : Obj.t value) :
  NoDup (Obj.keys props) -> profPropsToConvert (convertProps props) = [].
Proof.
  intros Hnd.
  assert (H : forall e, In e (convertProps props) ->
                findConversion (fst e) nameConversions = None).
  { intros [k v] Hin. cbn [fst].
    apply In_entry_keys, In_keys_get in Hin as [w Hw].
    rewrite get_convertProps in Hw by assumption.
    now destruct (findConversion k nameConversions). }
  unfold profPropsToConvert.
  induction (convertProps props) as [|e rest IH]; [reflexivity|].
  cbn [flat_map]. rewrite (H e) by now left. cbn [app]. apply IH.
  intros e' He'. apply H. now right.
Qed.

Lemma convertProps_idempotent (props : Obj.t value) :
  NoDup (Obj.keys props) ->
  convertProps (convertProps props) = convertProps props.
Proof.
  intros Hnd. unfold convertProps at 1.
  now rewrite profPropsToConvert_renamed.
Qed.

(** *** The secure names *)

Lemma convertSecureName_old o n :
  In (o, n) nameConversions -> convertSecureName o = n.
Proof.
  intros H. apply findConversion_In in H. unfold convertSecureName.
  now rewrite H.
Qed.

Lemma convertSecureName_not_old s :
  findConversion (convertSecureName s) nameConversions = None.
Proof.
  unfold convertSecureName.
  destruct (findConversion s nameConversions) as [[o n]|] eqn:E; [|assumption].
  now destruct (findConversion_old _ _ _ E) as (_ & _ & H & _).
Qed.

Lemma convertSecureName_idempotent s :
  convertSecureName (convertSecureName s) = convertSecureName s.
Proof.
  unfold convertSecureName at 1. now rewrite convertSecureName_not_old.
Qed.

Lemma convertSecure_idempotent l :
  convertSecure (convertSecure l) = convertSecure l.
Proof.
  unfold convertSecure. rewrite map_map. apply map_ext.
  apply convertSecureName_idempotent.
Qed.

(** *** The loop over the profiles *)

Lemma convertProfile_typed p :
  typed_profile p = true -> convertProfile p = Ok (renamed p).
Proof.
  unfold typed_profile, convertProfile, renamed, IConfigProfile.secure_names.
  now destruct (IConfigProfile.secure p).
Qed.

Lemma typed_profile_NoDup p :
  typed_profile p = true -> NoDup (Obj.keys (IConfigProfile.properties p)).
Proof.
  unfold typed_profile. destruct (IConfigProfile.secure p); [|discriminate].
  apply unique_keys_NoDup.
Qed.

Lemma renamed_typed p : typed_profile p = true -> typed_profile (renamed p) = true.
Proof.
  intros H. unfold typed_profile. simpl.
  now apply unique_keys_NoDup, NoDup_convertProps, typed_profile_NoDup.
Qed.

Lemma renamed_idempotent p :
  typed_profile p = true -> renamed (renamed p) = renamed p.
Proof.
  intros H. unfold renamed at 1 3. cbn [IConfigProfile.type
    IConfigProfile.properties IConfigProfile.secure_names IConfigProfile.secure renamed].
  rewrite convertProps_idempotent by now apply typed_profile_NoDup.
  now rewrite convertSecure_idempotent.
Qed.

Lemma mapM_all_Ok {A B : Type} (f : A -> result B) (g : A -> B) (o : Obj.t A) :
  (forall v, In v (Obj.values o) -> f v = Ok (g v)) ->
  Obj.mapM f o = Ok (Obj.map_values g o).
Proof.
  induction o as [|[k v] o IH]; intros H; [reflexivity|].
  simpl. rewrite (H v) by now left. simpl.
  rewrite IH by (intros v' Hv'; apply H; now right). reflexivity.
Qed.

Lemma convertProfile_secure p :
  IConfigProfile.secure p <> None -> convertProfile p = Ok (renamed p).
Proof.
  unfold convertProfile, renamed, IConfigProfile.secure_names.
  now destruct (IConfigProfile.secure p).
Qed.

(** When every profile has its [secure] list the renamer returns, and
    renames every profile. *)
Lemma convertPropNames_all_secure r :
  (forall p,
     In p (Obj.values (IConfig.profiles (IConfigConvertResult.config r))) ->
     IConfigProfile.secure p <> None) ->
  convertPropNames r =
  Ok (IConfigConvertResult.with_config r
        (IConfig.with_profiles (IConfigConvertResult.config r)
           (Obj.map_values renamed
              (IConfig.profiles (IConfigConvertResult.config r))))).
Proof.
  intros Hsec. unfold convertPropNames.
  rewrite (mapM_all_Ok convertProfile renamed); [reflexivity|].
  intros p Hp. now apply convertProfile_secure, Hsec.
Qed.

Lemma convertPropNames_typed r :
  typed r = true ->
  convertPropNames r =
  Ok (IConfigConvertResult.with_config r
        (IConfig.with_profiles (IConfigConvertResult.config r)
           (Obj.map_values renamed
              (IConfig.profiles (IConfigConvertResult.config r))))).
Proof.
  intros Hty. apply convertPropNames_all_secure. intros p Hp.
  unfold typed in Hty. rewrite forallb_forall in Hty.
  specialize (Hty p Hp). unfold typed_profile in Hty.
  destruct (IConfigProfile.secure p); [discriminate|discriminate].
Qed.

(** *** The names of the properties, whatever the object *)

Lemma staged_old (props : Obj.t value) o n v :
  In (o, n, v) (profPropsToConvert props) ->
  findConversion o nameConversions = Some (o, n).
Proof.
  unfold profPropsToConvert. rewrite in_flat_map.
  intros ([k w] & _ & Hin). cbn [fst snd] in Hin.
  destruct (findConversion k nameConversions) as [[o' n']|] eqn:E; [|contradiction].
  destruct Hin as [[= <- <- <-]|[]].
  now destruct (findConversion_old _ _ _ E) as (-> & _).
Qed.

Lemma staged_complete (props : Obj.t value) k n :
  In k (Obj.keys props) ->
  findConversion k nameConversions = Some (k, n) ->
  exists v, In (k, n, v) (profPropsToConvert props).
Proof.
  intros Hin E. unfold Obj.keys in Hin.
  apply in_map_iff in Hin as ([k' v] & <- & Hin). cbn [fst] in E.
  exists v. unfold profPropsToConvert. apply in_flat_map.
  exists (k', v). split; [assumption|]. cbn [fst snd]. rewrite E. now left.
Qed.




End RenameFacts.

Module RenameSpec.

Import Js Rename ObjFacts RenameFacts.

Lemma typed_get r key p :
  typed r = true ->
  Obj.get key (IConfig.profiles (IConfigConvertResult.config r)) = Some p ->
  typed_profile p = true.
Proof.
  unfold typed. rewrite forallb_forall. intros Hty Hget. apply Hty.
  apply get_In in Hget. unfold Obj.values.
  change p with (snd (key, p)). now apply in_map.
Qed.

Lemma typed_renamed r :
  typed r = true ->
  typed (IConfigConvertResult.with_config r
           (IConfig.with_profiles (IConfigConvertResult.config r)
              (Obj.map_values renamed
                 (IConfig.profiles (IConfigConvertResult.config r))))) = true.
Proof.
  unfold typed. rewrite !forallb_forall. intros Hty p' Hin.
  cbn [IConfigConvertResult.with_config IConfigConvertResult.config
       IConfig.with_profiles IConfig.profiles] in Hin.
  unfold Obj.values, Obj.map_values in Hin. rewrite map_map in Hin.
  apply in_map_iff in Hin as ([key p] & <- & Hin). cbn [fst snd].
  apply renamed_typed, Hty. unfold Obj.values.
  change p with (snd (key, p)). now apply in_map.
Qed.

Lemma map_values_renamed_twice (ps : Obj.t IConfigProfile.t) :
  forallb typed_profile (Obj.values ps) = true ->
  Obj.map_values renamed (Obj.map_values renamed ps) =
  Obj.map_values renamed ps.
Proof.
  rewrite forallb_forall. intros Hty. unfold Obj.map_values.
  rewrite map_map. apply map_ext_in. intros [key p] Hin. cbn [fst snd].
  f_equal. apply renamed_idempotent, Hty. unfold Obj.values.
  change p with (snd (key, p)). now apply in_map.
Qed.

(** C9. On every conversion result the renamer returns; in each profile a
    plain property named hostname, username or pass is found afterwards
    under host, user or password with its value and no longer under the old
    name; each entry of the secure list named hostname, username or pass is
    replaced in place by host, user or password; no old name is left among
    the properties or in the secure list; the properties with other names
    than these six are as before; and the renamer applied to its own result
    returns that result unchanged. *)
Theorem convertPropNames_renames (conversionResult : IConfigConvertResult.t) :
  typed conversionResult = true ->
  exists renamedResult,
    convertPropNames conversionResult = Ok renamedResult
    /\ (forall key p,
          Obj.get key
            (IConfig.profiles (IConfigConvertResult.config conversionResult))
          = Some p ->
          exists p',
            Obj.get key
              (IConfig.profiles (IConfigConvertResult.config renamedResult))
            = Some p'
            /\ (forall oldPropName newPropName v,
                  In (oldPropName, newPropName)
                    [ ("hostname", "host"); ("username", "user");
                      ("pass", "password") ] ->
                  Obj.get oldPropName (IConfigProfile.properties p) = Some v ->
                  Obj.get newPropName (IConfigProfile.properties p') = Some v)
            /\ (forall oldPropName,
                  In oldPropName ["hostname"; "username"; "pass"] ->
                  Obj.get oldPropName (IConfigProfile.properties p') = None
                  /\ ~ In oldPropName (IConfigProfile.secure_names p'))
            /\ (forall k,
                  ~ In k [ "hostname"; "username"; "pass";
                           "host"; "user"; "password" ] ->
                  Obj.get k (IConfigProfile.properties p') =
                  Obj.get k (IConfigProfile.properties p))
            /\ IConfigProfile.secure_names p' =
               map (fun secProp =>
                      if String.eqb secProp "hostname" then "host"
                      else if String.eqb secProp "username" then "user"
                      else if String.eqb secProp "pass" then "password"
                      else secProp)
                   (IConfigProfile.secure_names p))
    /\ convertPropNames renamedResult = Ok renamedResult.
Proof.
  intros Hty. rewrite (convertPropNames_typed _ Hty).
  eexists. split; [reflexivity|]. split.
  - intros key p Hp.
    cbn [IConfigConvertResult.with_config IConfigConvertResult.config
         IConfig.with_profiles IConfig.profiles].
    rewrite get_map_values, Hp. cbn [option_map].
    eexists. split; [reflexivity|].
    pose proof (typed_profile_NoDup _ (typed_get _ _ _ Hty Hp)) as Hnd.
    cbn [renamed IConfigProfile.properties IConfigProfile.secure_names
         IConfigProfile.secure].
    split; [|split; [|split]].
    + intros o n v Hin Ho.
      change (In (o, n) nameConversions) in Hin.
      apply findConversion_In in Hin.
      destruct (findConversion_old _ _ _ Hin) as (_ & Hold & Hnew & _).
      rewrite get_convertProps by assumption. now rewrite Hnew, Hold, Ho.
    + intros o Hin.
      assert (Hrule : exists n, In (o, n) nameConversions).
      { destruct Hin as [<-|[<-|[<-|[]]]]; eexists; simpl; eauto. }
      destruct Hrule as [n Hrule]. apply findConversion_In in Hrule. split.
      * rewrite get_convertProps by assumption. now rewrite Hrule.
      * intros Hsec. unfold convertSecure in Hsec.
        apply in_map_iff in Hsec as (s0 & Hs & _).
        pose proof (convertSecureName_not_old s0) as Hnot. congruence.
    + intros k Hk. rewrite get_convertProps by assumption.
      assert (H1 : findConversion k nameConversions = None).
      { unfold nameConversions. cbn [findConversion].
        destruct (String.eqb_spec k "hostname") as [->|_];
          [exfalso; apply Hk; simpl; tauto|].
        destruct (String.eqb_spec k "username") as [->|_];
          [exfalso; apply Hk; simpl; tauto|].
        destruct (String.eqb_spec k "pass") as [->|_];
          [exfalso; apply Hk; simpl; tauto|].
        reflexivity. }
      assert (H2 : findOldName k nameConversions = None).
      { unfold nameConversions. cbn [findOldName].
        destruct (String.eqb_spec k "host") as [->|_];
          [exfalso; apply Hk; simpl; tauto|].
        destruct (String.eqb_spec k "user") as [->|_];
          [exfalso; apply Hk; simpl; tauto|].
        destruct (String.eqb_spec k "password") as [->|_];
          [exfalso; apply Hk; simpl; tauto|].
        reflexivity. }
      now rewrite H1, H2.
    + unfold convertSecure. apply map_ext. intros secProp.
      unfold convertSecureName, nameConversions. cbn [findConversion].
      destruct (String.eqb secProp "hostname"); [reflexivity|].
      destruct (String.eqb secProp "username"); [reflexivity|].
      destruct (String.eqb secProp "pass"); reflexivity.
  - rewrite (convertPropNames_typed _ (typed_renamed _ Hty)). f_equal.
    cbn [IConfigConvertResult.with_config IConfigConvertResult.config
         IConfig.with_profiles IConfig.profiles].
    unfold IConfigConvertResult.with_config, IConfig.with_profiles.
    cbn [IConfigConvertResult.config IConfigConvertResult.profilesConverted
         IConfigConvertResult.profilesFailed IConfig.defaults IConfig.plugins
         IConfig.secure IConfig.properties IConfig.autoStore IConfig.profiles].
    now rewrite map_values_renamed_twice.
Qed.

(** C10. When a profile has both a deprecated name and its current name among
    its properties, the renamer deletes the deprecated name and stores the
    deprecated name's value under the current name, in place of the value
    that was there. *)
Theorem convertPropNames_overwrites
  (conversionResult : IConfigConvertResult.t) (key : string)
  (p : IConfigProfile.t) (oldPropName newPropName : string)
  (oldValue currentValue : value) :
  typed conversionResult = true ->
  Obj.get key
    (IConfig.profiles (IConfigConvertResult.config conversionResult))
  = Some p ->
  In (oldPropName, newPropName) nameConversions ->
  Obj.get oldPropName (IConfigProfile.properties p) = Some oldValue ->
  Obj.get newPropName (IConfigProfile.properties p) = Some currentValue ->
  exists renamedResult p',
    convertPropNames conversionResult = Ok renamedResult
    /\ Obj.get key
         (IConfig.profiles (IConfigConvertResult.config renamedResult))
       = Some p'
    /\ Obj.get oldPropName (IConfigProfile.properties p') = None
    /\ Obj.get newPropName (IConfigProfile.properties p') = Some oldValue.
Proof.
  intros Hty Hp Hin Hold Hnew. rewrite (convertPropNames_typed _ Hty).
  eexists _, _. split; [reflexivity|].
  cbn [IConfigConvertResult.with_config IConfigConvertResult.config
       IConfig.with_profiles IConfig.profiles].
  rewrite get_map_values, Hp. cbn [option_map]. split; [reflexivity|].
  pose proof (typed_profile_NoDup _ (typed_get _ _ _ Hty Hp)) as Hnd.
  cbn [renamed IConfigProfile.properties].
  apply findConversion_In in Hin.
  destruct (findConversion_old _ _ _ Hin) as (_ & Ho & Hn & _).
  rewrite !get_convertProps by assumption.
  rewrite Hin, Hn, Ho, Hold. now split.
Qed.

End RenameSpec.

(** ** convertPropNames: edges, order and what is left alone *)

Module RenameMore.

Import Js Rename ObjFacts RenameFacts.

Lemma mapM_Throw {A B : Type} (f : A -> result B) (e0 : error) (o : Obj.t A) :
  (forall v e, f v = Throw e -> e = e0) ->
  (exists v e, In v (Obj.values o) /\ f v = Throw e) ->
  Obj.mapM f o = Throw e0.
Proof.
  intros Honly. induction o as [|[k v] o IH]; intros (v0 & e & Hin & Hv0).
  - contradiction.
  - simpl. destruct (f v) as [v'|e'] eqn:E; simpl.
    + destruct Hin as [<-|Hin]; [simpl in Hv0; congruence|].
      rewrite IH by eauto. reflexivity.
    + now rewrite (Honly v e' E).
Qed.

(** X6. When a profile of the result has no [secure] list the renamer
    throws a TypeError. *)
Theorem convertPropNames_missing_secure
  (conversionResult : IConfigConvertResult.t) (p : IConfigProfile.t) :
  In p (Obj.values
          (IConfig.profiles (IConfigConvertResult.config conversionResult))) ->
  IConfigProfile.secure p = None ->
  convertPropNames conversionResult = Throw TypeError.
Proof.
  intros Hin Hnone. unfold convertPropNames.
  rewrite (mapM_Throw convertProfile TypeError); [reflexivity| |].
  - intros v e. unfold convertProfile.
    destruct (IConfigProfile.secure v); [discriminate|]. now intros [= <-].
  - exists p, TypeError. split; [assumption|].
    unfold convertProfile. now rewrite Hnone.
Qed.

Lemma mapM_keys {A B : Type} (f : A -> result B) (o : Obj.t A) o' :
  Obj.mapM f o = Ok o' -> Obj.keys o' = Obj.keys o.
Proof.
  revert o'. induction o as [|[k v] o IH]; intros o'; simpl.
  - now intros [= <-].
  - destruct (f v) as [v'|]; simpl; [|discriminate].
    destruct (Obj.mapM f o) as [o1|]; simpl; [|discriminate].
    intros [= <-]. simpl. f_equal. now apply IH.
Qed.

Lemma mapM_get {A B : Type} (f : A -> result B) (o : Obj.t A) o' k v' :
  Obj.mapM f o = Ok o' -> Obj.get k o' = Some v' ->
  exists v, Obj.get k o = Some v /\ f v = Ok v'.
Proof.
  revert o'. induction o as [|[k0 v0] o IH]; intros o'; simpl.
  - intros [= <-]. discriminate.
  - destruct (f v0) as [v1|] eqn:E; simpl; [|discriminate].
    destruct (Obj.mapM f o) as [o1|]; simpl; [|discriminate].
    intros [= <-]. simpl.
    destruct (String.eqb k k0); [intros [= <-]; eauto|].
    now apply IH.
Qed.

(** X7. The renamer touches nothing but the properties and the secure
    lists of the profiles: the converted names, the failures, the defaults
    and the rest of the document are as before, the profiles are stored
    under the same names in the same order, and each keeps its type and the
    length of its secure list. *)
Theorem convertPropNames_leaves_the_rest
  (conversionResult renamedResult : IConfigConvertResult.t) :
  convertPropNames conversionResult = Ok renamedResult ->
  let config := IConfigConvertResult.config conversionResult in
  let config' := IConfigConvertResult.config renamedResult in
  IConfigConvertResult.profilesConverted renamedResult
  = IConfigConvertResult.profilesConverted conversionResult
  /\ IConfigConvertResult.profilesFailed renamedResult
     = IConfigConvertResult.profilesFailed conversionResult
  /\ IConfig.defaults config' = IConfig.defaults config
  /\ IConfig.plugins config' = IConfig.plugins config
  /\ IConfig.secure config' = IConfig.secure config
  /\ IConfig.properties config' = IConfig.properties config
  /\ IConfig.autoStore config' = IConfig.autoStore config
  /\ Obj.keys (IConfig.profiles config') = Obj.keys (IConfig.profiles config)
  /\ forall key p',
       Obj.get key (IConfig.profiles config') = Some p' ->
       exists p,
         Obj.get key (IConfig.profiles config) = Some p
         /\ IConfigProfile.type p' = IConfigProfile.type p
         /\ List.length (IConfigProfile.secure_names p')
            = List.length (IConfigProfile.secure_names p).
Proof.
  unfold convertPropNames.
  destruct (Obj.mapM convertProfile _) as [profiles'|] eqn:E; simpl;
    [|discriminate].
  intros [= <-]. simpl. repeat split.
  - eapply mapM_keys, E.
  - intros key p' Hp'.
    destruct (mapM_get _ _ _ _ _ E Hp') as (p & Hp & Hconv).
    exists p. split; [assumption|]. unfold convertProfile in Hconv.
    unfold IConfigProfile.secure_names.
    destruct (IConfigProfile.secure p) as [secs|]; [|discriminate].
    injection Hconv as <-. simpl. split; [reflexivity|].
    unfold convertSecure. apply length_map.
Qed.

Lemma is_old_false k :
  is_old k = false <-> findConversion k nameConversions = None.
Proof.
  unfold is_old. destruct (findConversion k nameConversions); split;
    congruence.
Qed.

Lemma profPropsToConvert_none (props : Obj.t value) :
  forallb (fun k => negb (is_old k)) (Obj.keys props) = true ->
  profPropsToConvert props = [].
Proof.
  unfold profPropsToConvert.
  induction props as [|[k v] props IH]; [reflexivity|].
  cbn [Obj.keys map forallb fst]. rewrite andb_true_iff, negb_true_iff.
  intros [Hk Hrest]. cbn [flat_map fst snd].
  apply is_old_false in Hk. rewrite Hk. cbn [app]. now apply IH.
Qed.

Lemma convertSecure_none l :
  forallb (fun k => negb (is_old k)) l = true -> convertSecure l = l.
Proof.
  unfold convertSecure. induction l as [|k l IH]; [reflexivity|].
  cbn [forallb map]. rewrite andb_true_iff, negb_true_iff.
  intros [Hk Hrest]. apply is_old_false in Hk.
  unfold convertSecureName at 1. rewrite Hk. f_equal. now apply IH.
Qed.

(** X8. A result whose profiles have their secure lists and no old name,
    among the properties or in the secure lists, is returned as it is. *)
Theorem convertPropNames_nothing_to_rename
  (conversionResult : IConfigConvertResult.t) :
  typed conversionResult = true ->
  no_old_names conversionResult = true ->
  convertPropNames conversionResult = Ok conversionResult.
Proof.
  intros Hty Hnone. rewrite (convertPropNames_typed _ Hty). f_equal.
  destruct conversionResult as [config converted failed].
  destruct config as [defaults profiles plugins secure properties autoStore].
  unfold IConfigConvertResult.with_config, IConfig.with_profiles. simpl.
  do 2 f_equal.
  unfold typed, no_old_names in *. simpl in Hty, Hnone.
  rewrite forallb_forall in Hty, Hnone.
  unfold Obj.map_values. rewrite <- (map_id profiles) at 2.
  apply map_ext_in. intros [key p] Hin. simpl. f_equal.
  assert (Hp : In p (Obj.values profiles)).
  { unfold Obj.values. change p with (snd (key, p)). now apply in_map. }
  specialize (Hty p Hp). specialize (Hnone p Hp).
  rewrite forallb_app, andb_true_iff in Hnone. destruct Hnone as [Hprops Hsecs].
  unfold typed_profile in Hty. unfold renamed, IConfigProfile.secure_names in *.
  destruct p as [ty props [secs|]]; simpl in *; [|discriminate].
  unfold convertProps. rewrite profPropsToConvert_none by assumption.
  simpl. now rewrite convertSecure_none.
Qed.

(** *** The order of the renamed properties *)

Lemma array_index_new o n :
  findConversion o nameConversions = Some (o, n) -> Obj.array_index n = None.
Proof.
  unfold nameConversions. cbn [findConversion].
  case_name o; intros [= <-]; reflexivity.
Qed.

Lemma delete_app {A : Type} k (o1 o2 : Obj.t A) :
  Obj.delete k (o1 ++ o2) = Obj.delete k o1 ++ Obj.delete k o2.
Proof. unfold Obj.delete. apply filter_app. Qed.

Lemma filter_filter {A : Type} (f g : A -> bool) (l : list A) :
  filter f (filter g l) = filter (fun x => g x && f x) l.
Proof.
  induction l as [|a l IH]; simpl; [reflexivity|].
  destruct (g a); simpl; [destruct (f a)|]; now rewrite IH.
Qed.

Lemma fold_staged_order st (base added : Obj.t value) :
  (forall o n v, In (o, n, v) st ->
     findConversion o nameConversions = Some (o, n)) ->
  NoDup (staged_old_names st) ->
  (forall o n v, In (o, n, v) st ->
     ~ In n (Obj.keys base) /\ ~ In n (Obj.keys added)) ->
  (forall k, In k (Obj.keys added) -> findConversion k nameConversions = None) ->
  fold_left applyConversion st (base ++ added) =
  filter (fun e => negb (includes (fst e) (staged_old_names st))) base
  ++ added ++ map (fun c => (snd (fst c), snd c)) st.
Proof.
  revert base added.
  induction st as [|[[o n] v] st IH]; intros base added Hst Hnd Hnew Hadded.
  - unfold includes, staged_old_names. simpl. rewrite app_nil_r. f_equal.
    clear. induction base as [|e base IHb]; simpl; [reflexivity|].
    now f_equal.
  - inversion Hnd as [|? ? Hnotin Hnd']; subst.
    pose proof (Hst o n v (or_introl eq_refl)) as Ho.
    destruct (Hnew o n v (or_introl eq_refl)) as [Hnb Hna].
    destruct (findConversion_old _ _ _ Ho) as (_ & Hon & Hnn & _).
    cbn [fold_left applyConversion].
    rewrite delete_app.
    rewrite (delete_absent o added).
    2:{ apply get_None_not_In. intros Hin. apply Hadded in Hin. congruence. }
    rewrite HoistMore.set_fresh.
    + rewrite <- app_assoc. rewrite IH.
      * unfold Obj.delete. rewrite filter_filter.
        cbn [staged_old_names map fst snd]. rewrite <- !app_assoc. cbn [app].
        f_equal. apply filter_ext. intros [k w]. cbn [fst].
        unfold includes. cbn [existsb]. rewrite negb_orb.
        now rewrite (String.eqb_sym o k).
      * intros o' n' v' H'. apply (Hst o' n' v'). now right.
      * assumption.
      * intros o' n' v' H'. destruct (Hnew o' n' v' (or_intror H')) as [H1 H2].
        split.
        -- intros Hin. apply In_keys_delete in Hin. tauto.
        -- unfold Obj.keys. rewrite map_app, in_app_iff. simpl.
           intros [Hin|[<-|[]]]; [tauto|].
           pose proof (Hst o' n v' (or_intror H')) as Ho'.
           destruct (findConversion_old _ _ _ Ho') as (_ & Hon' & _).
           apply Hnotin. unfold staged_old_names. apply in_map_iff.
           exists (o', n, v'). split; [simpl; congruence | assumption].
      * intros k Hk. unfold Obj.keys in Hk. rewrite map_app, in_app_iff in Hk.
        destruct Hk as [Hk|[<-|[]]]; [now apply Hadded | assumption].
    + apply get_None_not_In. unfold Obj.keys. rewrite map_app, in_app_iff.
      intros [Hin|Hin]; [|contradiction].
      apply In_keys_delete in Hin. tauto.
    + eapply array_index_new, Ho.
Qed.

Lemma staged_as_map (props : Obj.t value) :
  profPropsToConvert props =
  map (fun e => (fst e, convertSecureName (fst e), snd e))
      (filter (fun e => is_old (fst e)) props).
Proof.
  unfold profPropsToConvert.
  induction props as [|[k v] props IH]; [reflexivity|].
  cbn [flat_map filter fst snd].
  destruct (is_old k) eqn:Eold; unfold is_old in Eold;
    destruct (findConversion k nameConversions) as [[o n]|] eqn:E;
    try discriminate.
  - destruct (findConversion_old _ _ _ E) as (-> & _).
    cbn [map app fst snd]. f_equal; [|exact IH].
    unfold convertSecureName. now rewrite E.
  - cbn [app]. exact IH.
Qed.

Lemma convertProps_order (props : Obj.t value) :
  NoDup (Obj.keys props) ->
  forallb (fun k => negb (is_new k)) (Obj.keys props) = true ->
  convertProps props =
  filter (fun e => negb (is_old (fst e))) props
  ++ map (fun e => (convertSecureName (fst e), snd e))
       (filter (fun e => is_old (fst e)) props).
Proof.
  intros Hnd Hnew. rewrite forallb_forall in Hnew.
  unfold convertProps.
  rewrite <- (app_nil_r props) at 2.
  rewrite fold_staged_order.
  - cbn [app]. f_equal.
    + apply filter_ext_in. intros [k v] Hin. cbn [fst]. f_equal.
      destruct (is_old k) eqn:Eold.
      * apply HoistSpec.includes_In. unfold is_old in Eold.
        destruct (findConversion k nameConversions) as [[o n]|] eqn:E;
          [|discriminate].
        destruct (findConversion_old _ _ _ E) as (-> & _).
        destruct (staged_complete props k n) as [w Hw]; [|assumption|].
        -- eapply In_entry_keys, Hin.
        -- unfold staged_old_names. apply in_map_iff.
           exists (k, n, w). now split.
      * apply HoistSpec.includes_not_In. intros Hin'.
        unfold staged_old_names in Hin'.
        apply in_map_iff in Hin' as ([[o n] w] & Hk & Hst).
        cbn [fst] in Hk. subst o. apply staged_old in Hst.
        unfold is_old in Eold. now rewrite Hst in Eold.
    + rewrite staged_as_map, map_map. reflexivity.
  - intros o n v. apply staged_old.
  - unfold staged_old_names. rewrite staged_as_map, map_map. cbn [fst].
    apply HoistMore.NoDup_map_fst_filter. exact Hnd.
  - intros o n v Hst. apply staged_old in Hst.
    destruct (findConversion_old _ _ _ Hst) as (_ & Hon & _).
    split; [|intros []].
    intros Hin. specialize (Hnew n Hin). unfold is_new in Hnew.
    now rewrite Hon in Hnew.
  - intros k [].
Qed.

(** X9. In a profile that has none of the new names, the properties that
    are not renamed keep their order and the renamed ones follow them, under
    their new names and with their values, in the order they had. *)
Theorem convertPropNames_order
  (conversionResult : IConfigConvertResult.t) (key : string)
  (p : IConfigProfile.t) :
  typed conversionResult = true ->
  Obj.get key
    (IConfig.profiles (IConfigConvertResult.config conversionResult))
  = Some p ->
  forallb (fun k => negb (is_new k))
    (Obj.keys (IConfigProfile.properties p)) = true ->
  exists renamedResult p',
    convertPropNames conversionResult = Ok renamedResult
    /\ Obj.get key
         (IConfig.profiles (IConfigConvertResult.config renamedResult))
       = Some p'
    /\ IConfigProfile.properties p' =
       filter (fun e => negb (is_old (fst e))) (IConfigProfile.properties p)
       ++ map (fun e =>
                 (match findConversion (fst e) nameConversions with
                  | Some (_, newPropName) => newPropName
                  | None => fst e
                  end, snd e))
            (filter (fun e => is_old (fst e)) (IConfigProfile.properties p)).
Proof.
  intros Hty Hp Hnew. rewrite (convertPropNames_typed _ Hty).
  eexists _, _. split; [reflexivity|].
  cbn [IConfigConvertResult.with_config IConfigConvertResult.config
       IConfig.with_profiles IConfig.profiles].
  rewrite get_map_values, Hp. cbn [option_map]. split; [reflexivity|].
  cbn [renamed IConfigProfile.properties].
  apply convertProps_order; [|assumption].
  apply typed_profile_NoDup. eapply RenameSpec.typed_get; eauto.
Qed.

End RenameMore.

(** ** convert *)

Module ConvertFacts.

Import Js Convert ObjFacts RenameFacts.

(** *** Loops *)

Lemma fold_left_keeps {A S : Type} (f : S -> A -> S) (P : S -> Prop) l s :
  (forall s y, P s -> P (f s y)) -> P s -> P (fold_left f l s).
Proof.
  intros Hkeep. revert s. induction l as [|a l IH]; intros s Hs; [assumption|].
  simpl. apply IH, Hkeep, Hs.
Qed.

(** What the round of [x] brings about and no round undoes holds at the
    end. *)
Lemma fold_left_reaches {A S : Type} (f : S -> A -> S) (P : S -> Prop) x l s :
  In x l ->
  (forall s, P (f s x)) ->
  (forall s y, P s -> P (f s y)) ->
  P (fold_left f l s).
Proof.
  intros Hin Hx Hkeep. revert s.
  induction l as [|a l IH]; intros s; [contradiction|].
  simpl. destruct Hin as [->|Hin].
  - now apply fold_left_keeps.
  - now apply IH.
Qed.

Lemma foldM_keeps {A S : Type} (body : S -> A -> result S) (P : S -> Prop)
  xs s s' :
  (forall s x s', P s -> body s x = Ok s' -> P s') ->
  P s -> foldM body xs s = Ok s' -> P s'.
Proof.
  intros Hkeep. revert s. induction xs as [|x xs IH]; intros s Hs.
  - simpl. now intros [= <-].
  - simpl. destruct (body s x) as [s1|e] eqn:E; simpl; [|discriminate].
    apply IH. eapply Hkeep; eauto.
Qed.

Lemma foldM_reaches {A S : Type} (body : S -> A -> result S) (P : S -> Prop)
  x xs s s' :
  In x xs ->
  (forall s s1, body s x = Ok s1 -> P s1) ->
  (forall s y s1, P s -> body s y = Ok s1 -> P s1) ->
  foldM body xs s = Ok s' -> P s'.
Proof.
  intros Hin Hx Hkeep. revert s.
  induction xs as [|a xs IH]; intros s; [contradiction|].
  simpl. destruct (body s a) as [s1|e] eqn:E; simpl; [|discriminate].
  destruct Hin as [->|Hin].
  - apply (foldM_keeps body P xs s1 s'); [|eapply Hx, E].
    intros s0 y s2. apply Hkeep.
  - now apply IH.
Qed.

Section WithCollaborators.
Variable io : Collaborators.

(** *** One profile *)

Lemma secureStep_recorded profileType profileName st e st' :
  secure_recorded io profileType profileName st ->
  secureStep io profileType profileName st e = Ok st' ->
  secure_recorded io profileType profileName st'.
Proof.
  destruct st as [props secs], e as [key v]. unfold secureStep.
  intros Hinv.
  destruct (toString (Number_toString io) v) as [str|]; simpl; [|discriminate].
  destruct (prefix (PROFILES_OPTION_SECURELY_STORED io) str).
  - destruct (load io (getProfilePropertyKey io profileType profileName key) true)
      as [[text|]|] eqn:Eload; simpl; try discriminate.
    + destruct (JSON_parse io text) as [parsed|]; simpl; [|discriminate].
      intros [= <-]. intros k Hk. cbn [fst snd] in *.
      apply in_app_iff in Hk as [Hk|[<-|[]]].
      * destruct (Hinv k Hk) as [Hin Hload]. split; [|assumption].
        apply In_keys_set. now right.
      * split; [apply In_keys_set; now left | eauto].
    + intros [= <-]. intros k Hk. cbn [fst snd] in *.
      destruct (Hinv k Hk) as [Hin [text Hload]]. split; [|eauto].
      apply In_keys_delete. split; [|assumption].
      intros ->. congruence.
  - now intros [= <-].
Qed.

Lemma readProfile_secure profileTypeDir profileType profileName p :
  readProfile io profileTypeDir profileType profileName = Ok p ->
  exists secureProps,
    IConfigProfile.secure p = Some secureProps
    /\ forall k, In k secureProps ->
         In k (Obj.keys (IConfigProfile.properties p)).
Proof.
  unfold readProfile.
  destruct (readProfileFile io _ profileType) as [props|]; simpl; [|discriminate].
  destruct (foldM (secureStep io profileType profileName) props (props, []))
    as [[props' secs]|] eqn:E; simpl; [|discriminate].
  intros [= <-]. exists secs. split; [reflexivity|].
  intros k Hk. simpl.
  assert (Hinv : secure_recorded io profileType profileName (props', secs)).
  { eapply foldM_keeps; [| |exact E].
    - intros s x s'. apply secureStep_recorded.
    - intros k' []. }
  now destruct (Hinv k Hk).
Qed.

(** A name once recorded as secure stays recorded. *)
Lemma secureStep_keeps_secure profileType profileName st e st' k :
  In k (snd st) ->
  secureStep io profileType profileName st e = Ok st' ->
  In k (snd st').
Proof.
  destruct st as [props secs], e as [key v]. unfold secureStep. intros Hk.
  destruct (toString (Number_toString io) v) as [str|]; simpl; [|discriminate].
  destruct (prefix (PROFILES_OPTION_SECURELY_STORED io) str);
    [|now intros [= <-]].
  destruct (load io _ true) as [[text|]|]; simpl; try discriminate.
  - destruct (JSON_parse io text) as [parsed|]; simpl; [|discriminate].
    intros [= <-]. simpl. apply in_app_iff. now left.
  - now intros [= <-].
Qed.

(** The round of a property that carries the sentinel and has its secret in
    the vault records its name as secure. *)
Lemma secureStep_records profileType profileName st key v str text st' :
  toString (Number_toString io) v = Ok str ->
  prefix (PROFILES_OPTION_SECURELY_STORED io) str = true ->
  load io (getProfilePropertyKey io profileType profileName key) true
  = Ok (Some text) ->
  secureStep io profileType profileName st (key, v) = Ok st' ->
  In key (snd st').
Proof.
  destruct st as [props secs]. unfold secureStep.
  intros Hstr Hpre Hload. rewrite Hstr. cbn [bind].
  rewrite Hpre, Hload. cbn [bind].
  destruct (JSON_parse io text) as [parsed|]; simpl; [|discriminate].
  intros [= <-]. simpl. apply in_app_iff. right. now left.
Qed.

Lemma readProfile_sentinel profileTypeDir profileType profileName p
  profileProps key v str text :
  readProfile io profileTypeDir profileType profileName = Ok p ->
  readProfileFile io
    (path_join io profileTypeDir (profileName ++ ".yaml")%string) profileType
  = Ok profileProps ->
  In (key, v) profileProps ->
  toString (Number_toString io) v = Ok str ->
  prefix (PROFILES_OPTION_SECURELY_STORED io) str = true ->
  load io (getProfilePropertyKey io profileType profileName key) true
  = Ok (Some text) ->
  In key (IConfigProfile.secure_names p)
  /\ In key (Obj.keys (IConfigProfile.properties p)).
Proof.
  intros Hp Hfile Hin Hstr Hpre Hload.
  destruct (readProfile_secure _ _ _ _ Hp) as (secs & Hsecs & Hkeys).
  assert (Hk : In key (IConfigProfile.secure_names p)).
  { unfold IConfigProfile.secure_names. rewrite Hsecs.
    unfold readProfile in Hp. rewrite Hfile in Hp. simpl in Hp.
    destruct (foldM (secureStep io profileType profileName) profileProps
                (profileProps, [])) as [[props' secs']|] eqn:E;
      simpl in Hp; [|discriminate].
    injection Hp as <-. simpl in Hsecs. injection Hsecs as <-.
    apply (foldM_reaches (secureStep io profileType profileName)
             (fun st => In key (snd st)) (key, v) profileProps
             (profileProps, []) (props', secs') Hin); [| |exact E].
    - intros s s1. now apply (secureStep_records _ _ _ _ _ str text).
    - intros s y s1. apply secureStep_keeps_secure. }
  split; [assumption|]. apply Hkeys.
  unfold IConfigProfile.secure_names in Hk. now rewrite Hsecs in Hk.
Qed.

Lemma readProfile_file_fails profileTypeDir profileType profileName e :
  readProfileFile io
    (path_join io profileTypeDir (profileName ++ ".yaml")%string) profileType
  = Throw e ->
  readProfile io profileTypeDir profileType profileName = Throw e.
Proof. intros H. unfold readProfile. now rewrite H. Qed.

(** *** What the rounds keep *)

Lemma recordFailure_failed name t e f r :
  failed f r -> failed f (recordFailure name t e r).
Proof.
  unfold failed, recordFailure. cbn [IConfigConvertResult.profilesFailed].
  intros H. apply in_app_iff. now left.
Qed.

Lemma recordFailure_fails name t e r :
  failed {| IConvertFailure.name := name; IConvertFailure.type := t;
            IConvertFailure.error := e |}
         (recordFailure name t e r).
Proof.
  unfold failed, recordFailure. cbn [IConfigConvertResult.profilesFailed].
  apply in_app_iff. right. now left.
Qed.

Lemma convertName_failed dir t n f r :
  failed f r -> failed f (convertName io dir t r n).
Proof.
  unfold convertName. intros H.
  destruct (readProfile io dir t n); [|now apply recordFailure_failed].
  destruct (recordConverted t n _); [exact H|].
  now apply recordFailure_failed.
Qed.

Lemma convertMeta_failed dir t f r :
  failed f r -> failed f (convertMeta io dir t r).
Proof.
  unfold convertMeta. intros H.
  destruct (readMetaFile io _) as [meta|e].
  - now destruct (IMetaProfile.defaultProfile meta).
  - now apply recordFailure_failed.
Qed.

Lemma convertListed_failed root f r t :
  failed f r -> failed f (convertListed io root r t).
Proof.
  intros H. unfold convertListed.
  destruct (namesOf io root t) as [|n ns]; [assumption|].
  apply convertMeta_failed.
  apply fold_left_keeps; [|assumption].
  intros s y. apply convertName_failed.
Qed.

(** The names recorded for a type stay recorded. *)
Lemma recordConverted_keeps t' n' t n pc pc' :
  recordConverted t' n' pc = Ok pc' ->
  (exists names, Obj.get t pc = Some names /\ In n names) ->
  exists names, Obj.get t pc' = Some names /\ In n names.
Proof.
  unfold recordConverted, Obj.read. intros Hrec (names & Hget & Hin).
  destruct (String.eqb_spec t t') as [->|Hne].
  - rewrite Hget in Hrec. injection Hrec as <-. rewrite get_set_eq.
    eexists. split; [reflexivity|]. apply in_app_iff. now left.
  - destruct (Obj.get t' pc);
      [|destruct (Obj.inherited t'); [discriminate|]];
      injection Hrec as <-; rewrite get_set_ne by assumption; eauto.
Qed.

Lemma convertName_converted dir t' n' t n r :
  converted t n r -> converted t n (convertName io dir t' r n').
Proof.
  unfold converted, convertName. intros H.
  destruct (readProfile io dir t' n'); [|exact H].
  destruct (recordConverted t' n' _) as [pc|e] eqn:E; [|exact H].
  cbn [IConfigConvertResult.profilesConverted].
  eapply recordConverted_keeps; eauto.
Qed.

Lemma convertMeta_converted dir t' t n r :
  converted t n r -> converted t n (convertMeta io dir t' r).
Proof.
  unfold converted, convertMeta. intros H.
  destruct (readMetaFile io _) as [meta|e]; simpl; [|assumption].
  now destruct (IMetaProfile.defaultProfile meta).
Qed.

Lemma convertListed_converted root t n r t' :
  converted t n r -> converted t n (convertListed io root r t').
Proof.
  intros H. unfold convertListed.
  destruct (namesOf io root t') as [|n0 ns]; [assumption|].
  apply convertMeta_converted.
  apply fold_left_keeps; [|assumption].
  intros s y. apply convertName_converted.
Qed.

Lemma convertName_defaults dir t n r :
  IConfig.defaults (IConfigConvertResult.config (convertName io dir t r n)) =
  IConfig.defaults (IConfigConvertResult.config r).
Proof.
  unfold convertName. destruct (readProfile io dir t n); [|reflexivity].
  now destruct (recordConverted t n _).
Qed.

Lemma convertNames_defaults dir t ns r :
  IConfig.defaults
    (IConfigConvertResult.config (fold_left (convertName io dir t) ns r)) =
  IConfig.defaults (IConfigConvertResult.config r).
Proof.
  revert r. induction ns as [|n ns IH]; intros r; [reflexivity|].
  simpl. now rewrite IH, convertName_defaults.
Qed.

(** The default of a type is set again, to the same key, when the type is
    listed again. *)
Lemma convertListed_default root t d r t' :
  readMetaFile io (metaFileOf io root t)
  = Ok {| IMetaProfile.defaultProfile := Some d |} ->
  default_is t (getProfileMapKey io t d) r ->
  default_is t (getProfileMapKey io t d) (convertListed io root r t').
Proof.
  intros Hmeta H. unfold convertListed.
  destruct (namesOf io root t') as [|n0 ns]; [assumption|].
  pose proof (convertNames_defaults (typeDir io root t') t' (n0 :: ns) r)
    as Hsame.
  set (r1 := fold_left _ (n0 :: ns) r) in *.
  unfold default_is, convertMeta in *.
  fold (metaFileOf io root t').
  destruct (String.eqb_spec t t') as [<-|Hne].
  - rewrite Hmeta. simpl.
    destruct (assign_cases t (getProfileMapKey io t d)
                (IConfig.defaults (IConfigConvertResult.config r1)))
      as [->|(-> & _)]; [apply get_set_eq | now rewrite Hsame].
  - destruct (readMetaFile io (metaFileOf io root t')) as [meta|e]; simpl.
    + destruct (IMetaProfile.defaultProfile meta); simpl.
      * rewrite get_assign_ne by assumption. now rewrite Hsame.
      * now rewrite Hsame.
    + now rewrite Hsame.
Qed.

Lemma convertName_all_secure dir t n r :
  all_secure r -> all_secure (convertName io dir t r n).
Proof.
  unfold all_secure, convertName. intros H.
  destruct (readProfile io dir t n) as [p|e] eqn:E; [|exact H].
  assert (Hstored : forall entry,
            In entry
              (Obj.assign (getProfileMapKey io t n) p
                 (IConfig.profiles (IConfigConvertResult.config r))) ->
            exists secureProps,
              IConfigProfile.secure (snd entry) = Some secureProps
              /\ forall k, In k secureProps ->
                   In k (Obj.keys (IConfigProfile.properties (snd entry)))).
  { intros entry Hin. apply In_assign in Hin as [->|Hin]; [|auto].
    simpl. eapply readProfile_secure, E. }
  destruct (recordConverted t n _); exact Hstored.
Qed.

Lemma convertMeta_all_secure dir t r :
  all_secure r -> all_secure (convertMeta io dir t r).
Proof.
  unfold all_secure, convertMeta. intros H.
  destruct (readMetaFile io _) as [meta|e]; simpl; [|assumption].
  now destruct (IMetaProfile.defaultProfile meta).
Qed.

Lemma convertListed_all_secure root r t :
  all_secure r -> all_secure (convertListed io root r t).
Proof.
  intros H. unfold convertListed.
  destruct (namesOf io root t) as [|n ns]; [assumption|].
  apply convertMeta_all_secure.
  apply fold_left_keeps; [|assumption].
  intros s y. apply convertName_all_secure.
Qed.

Lemma convertAllListed_all_secure root types :
  all_secure (convertAllListed io root types).
Proof.
  unfold convertAllListed. apply fold_left_keeps.
  - intros s y. apply convertListed_all_secure.
  - intros e [].
Qed.

(** *** What the round of a profile, and of a type, brings about *)

Lemma convertName_fails dir t n e r :
  readProfile io dir t n = Throw e ->
  failed {| IConvertFailure.name := Some n; IConvertFailure.type := t;
            IConvertFailure.error := e |}
         (convertName io dir t r n).
Proof.
  intros H. unfold convertName. rewrite H. apply recordFailure_fails.
Qed.

Lemma recordConverted_ordinary t n pc :
  Obj.inherited t = false ->
  exists names,
    recordConverted t n pc = Ok (Obj.set t (names ++ [n]) pc).
Proof.
  intros Ht. unfold recordConverted. rewrite read_ordinary by assumption.
  destruct (Obj.get t pc) as [names|]; [now exists names | now exists []].
Qed.

Lemma convertName_converts dir t n p r :
  Obj.inherited t = false ->
  readProfile io dir t n = Ok p -> converted t n (convertName io dir t r n).
Proof.
  intros Ht H. unfold converted, convertName. rewrite H.
  destruct (recordConverted_ordinary t n
              (IConfigConvertResult.profilesConverted r) Ht) as [names ->].
  cbn [IConfigConvertResult.profilesConverted].
  rewrite get_set_eq. eexists. split; [reflexivity|].
  apply in_app_iff. right. now left.
Qed.

Lemma convertListed_fails root t n e r :
  In n (namesOf io root t) ->
  readProfile io (typeDir io root t) t n = Throw e ->
  failed {| IConvertFailure.name := Some n; IConvertFailure.type := t;
            IConvertFailure.error := e |}
         (convertListed io root r t).
Proof.
  intros Hin H. unfold convertListed.
  destruct (namesOf io root t) as [|n0 ns] eqn:E; [contradiction|].
  apply convertMeta_failed.
  apply fold_left_reaches with (x := n); [assumption| |].
  - intros s. now apply convertName_fails.
  - intros s y. apply convertName_failed.
Qed.

Lemma convertListed_converts root t n p r :
  Obj.inherited t = false ->
  In n (namesOf io root t) ->
  readProfile io (typeDir io root t) t n = Ok p ->
  converted t n (convertListed io root r t).
Proof.
  intros Ht Hin H. unfold convertListed.
  destruct (namesOf io root t) as [|n0 ns] eqn:E; [contradiction|].
  apply convertMeta_converted.
  apply fold_left_reaches with (x := n); [assumption| |].
  - intros s. now apply (convertName_converts _ _ _ p).
  - intros s y. apply convertName_converted.
Qed.

Lemma convertListed_meta_fails root t e r :
  namesOf io root t <> [] ->
  readMetaFile io (metaFileOf io root t) = Throw e ->
  failed {| IConvertFailure.name := None; IConvertFailure.type := t;
            IConvertFailure.error := e |}
         (convertListed io root r t).
Proof.
  intros Hne H. unfold convertListed.
  destruct (namesOf io root t) as [|n0 ns] eqn:E; [congruence|].
  unfold convertMeta. fold (metaFileOf io root t). rewrite H.
  apply recordFailure_fails.
Qed.

Lemma convertListed_meta_default root t d r :
  t <> "__proto__"%string ->
  namesOf io root t <> [] ->
  readMetaFile io (metaFileOf io root t)
  = Ok {| IMetaProfile.defaultProfile := Some d |} ->
  default_is t (getProfileMapKey io t d) (convertListed io root r t).
Proof.
  intros Ht Hne H. unfold convertListed.
  destruct (namesOf io root t) as [|n0 ns] eqn:E; [congruence|].
  unfold default_is, convertMeta. fold (metaFileOf io root t). rewrite H.
  simpl. rewrite assign_other by assumption. apply get_set_eq.
Qed.

(** *** The whole conversion *)

(** When the listings return, the loop over the types is the loop of
    [convertListed]. *)
Lemma convertType_listed root r t names :
  listNames io root t = Ok names ->
  convertType io root r t = Ok (convertListed io root r t).
Proof.
  intros H. unfold convertType, convertListed, namesOf.
  fold (typeDir io root t). fold (listNames io root t). rewrite H.
  cbn [bind]. now destruct names.
Qed.

Lemma convertTypes_listed root types :
  listed io root types ->
  convertTypes io root = Ok (convertAllListed io root types).
Proof.
  intros [Hdirs Hnames]. unfold convertTypes, convertAllListed.
  rewrite Hdirs. cbn [bind]. clear Hdirs. generalize (emptyResult).
  induction types as [|t types IH]; intros r; [reflexivity|].
  cbn [foldM fold_left].
  destruct (Hnames t (or_introl eq_refl)) as [names Ht].
  rewrite (convertType_listed root r t names Ht). cbn [bind].
  apply IH. intros t' Ht'. apply Hnames. now right.
Qed.

(** [convert] returns when the listings do: the profiles it has recorded
    all have their [secure] list. *)
Lemma convert_returns root types :
  listed io root types ->
  convert io root =
  Ok (let r := convertAllListed io root types in
      let config := IConfigConvertResult.config r in
      IConfigConvertResult.with_config r
        (IConfig.with_autoStore
           (IConfig.with_profiles config
              (Obj.map_values Rename.renamed (IConfig.profiles config)))
           true)).
Proof.
  intros Hl. unfold convert. rewrite (convertTypes_listed root types Hl).
  cbn [bind]. rewrite convertPropNames_all_secure; [reflexivity|].
  intros p Hp. unfold Obj.values in Hp.
  apply in_map_iff in Hp as (e & <- & He).
  destruct (convertAllListed_all_secure root types e He) as (s & Hs & _).
  congruence.
Qed.

(** It returns only then. *)
Lemma convert_listed root result :
  convert io root = Ok result ->
  exists types, listed io root types.
Proof.
  unfold convert, convertTypes.
  destruct (getAllProfileDirectories io root) as [types|e] eqn:Hdirs;
    [|discriminate].
  cbn [bind]. intros Hrun. exists types. split; [exact Hdirs|].
  destruct (foldM (convertType io root) types emptyResult) as [r|e] eqn:E;
    [|discriminate].
  clear Hrun Hdirs. revert E. generalize emptyResult.
  induction types as [|t types IH]; intros r0 E t' [].
  - subst t'. cbn [foldM] in E. unfold convertType in E.
    fold (typeDir io root t) in E. fold (listNames io root t) in E.
    destruct (listNames io root t) as [names|e]; [eauto | discriminate].
  - cbn [foldM] in E.
    destruct (convertType io root r0 t) as [r1|e]; [|discriminate].
    now apply (IH r1).
Qed.

End WithCollaborators.

End ConvertFacts.
Module ConvertSpec.

Import Js Convert ObjFacts RenameFacts ConvertFacts.

(** C7, as the code has it. When the listings return, [convert] returns.
    For every listed profile whose file cannot be read or parsed, or whose
    conversion throws later on, it records a failure with the profile's
    name, its type and the error; every profile whose conversion runs to its
    end (the file is read, every value is rendered, every secret is loaded
    and parsed) is among the names converted for its type; and for every
    type that has profiles the meta file is read whatever happened to the
    profiles: its default profile becomes the default of the type, and a
    failure to read it is recorded with the type and the error and without a
    name. The names converted are those of a type whose name is not a name
    of [Object.prototype], and the default is that of a type not named
    [__proto__]. *)
Theorem convert_records_and_continues
  (io : Collaborators) (profilesRootDir : string)
  (profileTypes : list string) :
  listed io profilesRootDir profileTypes ->
  exists result,
    convert io profilesRootDir = Ok result
    /\ forall profileType,
         In profileType profileTypes ->
         let profileTypeDir := typeDir io profilesRootDir profileType in
         let profileNames := namesOf io profilesRootDir profileType in
         let metaFilePath := metaFileOf io profilesRootDir profileType in
         (forall profileName,
            In profileName profileNames ->
            (forall e,
               readProfileFile io
                 (fileOf io profilesRootDir profileType profileName)
                 profileType = Throw e ->
               In {| IConvertFailure.name := Some profileName;
                     IConvertFailure.type := profileType;
                     IConvertFailure.error := e |}
                  (IConfigConvertResult.profilesFailed result))
            /\ (forall e,
                  readProfile io profileTypeDir profileType profileName
                  = Throw e ->
                  In {| IConvertFailure.name := Some profileName;
                        IConvertFailure.type := profileType;
                        IConvertFailure.error := e |}
                     (IConfigConvertResult.profilesFailed result))
            /\ (forall p,
                  Obj.inherited profileType = false ->
                  readProfile io profileTypeDir profileType profileName
                  = Ok p ->
                  exists names,
                    Obj.get profileType
                      (IConfigConvertResult.profilesConverted result)
                    = Some names
                    /\ In profileName names))
         /\ (profileNames <> [] ->
             (forall e,
                readMetaFile io metaFilePath = Throw e ->
                In {| IConvertFailure.name := None;
                      IConvertFailure.type := profileType;
                      IConvertFailure.error := e |}
                   (IConfigConvertResult.profilesFailed result))
             /\ (forall defaultProfile,
                   profileType <> "__proto__" ->
                   readMetaFile io metaFilePath
                   = Ok {| IMetaProfile.defaultProfile := Some defaultProfile |} ->
                   Obj.get profileType
                     (IConfig.defaults (IConfigConvertResult.config result))
                   = Some (getProfileMapKey io profileType defaultProfile))).
Proof.
  intros Hl. rewrite (convert_returns io profilesRootDir profileTypes Hl).
  eexists. split; [reflexivity|].
  intros t Ht dir names metaPath.
  cbn [IConfigConvertResult.with_config IConfigConvertResult.profilesFailed
       IConfigConvertResult.profilesConverted IConfigConvertResult.config
       IConfig.with_autoStore IConfig.with_profiles IConfig.defaults].
  assert (Hfail : forall n e,
            In n names -> readProfile io dir t n = Throw e ->
            failed
                   {| IConvertFailure.name := Some n;
                      IConvertFailure.type := t;
                      IConvertFailure.error := e |}
                   (convertAllListed io profilesRootDir profileTypes)).
  { intros n e Hn He. unfold convertAllListed.
    apply fold_left_reaches with (x := t); [assumption| |].
    - intros s. now apply convertListed_fails.
    - intros s y. apply convertListed_failed. }
  split.
  - intros n Hn. split; [|split].
    + intros e He. apply Hfail; [assumption|].
      now apply readProfile_file_fails.
    + intros e He. now apply Hfail.
    + intros p Hord Hp.
      change (converted t n
                (convertAllListed io profilesRootDir profileTypes)).
      unfold convertAllListed.
      apply fold_left_reaches with (x := t); [assumption| |].
      * intros s. now apply (convertListed_converts io _ _ _ p).
      * intros s y. apply convertListed_converted.
  - intros Hne. split.
    + intros e He.
      change (failed
                     {| IConvertFailure.name := None;
                        IConvertFailure.type := t;
                        IConvertFailure.error := e |}
                     (convertAllListed io profilesRootDir profileTypes)).
      unfold convertAllListed.
      apply fold_left_reaches with (x := t); [assumption| |].
      * intros s. now apply convertListed_meta_fails.
      * intros s y. apply convertListed_failed.
    + intros d Hord Hd.
      change (default_is t (getProfileMapKey io t d)
                (convertAllListed io profilesRootDir profileTypes)).
      unfold convertAllListed.
      apply fold_left_reaches with (x := t); [assumption| |].
      * intros s. now apply convertListed_meta_default.
      * intros s y. now apply convertListed_default.
Qed.

End ConvertSpec.

(** ** convert: property by property, and what is recorded *)

Module ConvertMore.

Import Js Convert ObjFacts RenameFacts ConvertFacts.

Lemma fold_left_keeps_In {A S : Type} (f : S -> A -> S) (P : S -> Prop) l s :
  (forall s y, In y l -> P s -> P (f s y)) -> P s -> P (fold_left f l s).
Proof.
  revert s. induction l as [|a l IH]; intros s Hkeep Hs; [assumption|].
  simpl. apply IH.
  - intros s' y Hy. apply Hkeep. now right.
  - apply Hkeep; [now left | assumption].
Qed.

Lemma foldM_keeps_In {A S : Type} (body : S -> A -> result S) (P : S -> Prop)
  xs s s' :
  (forall s x s', In x xs -> P s -> body s x = Ok s' -> P s') ->
  P s -> foldM body xs s = Ok s' -> P s'.
Proof.
  revert s. induction xs as [|x xs IH]; intros s Hkeep Hs.
  - simpl. now intros [= <-].
  - simpl. destruct (body s x) as [s1|e] eqn:E; simpl; [|discriminate].
    apply IH.
    + intros s0 y s2 Hy. apply Hkeep. now right.
    + eapply Hkeep; eauto. now left.
Qed.

Lemma foldM_app {A S : Type} (body : S -> A -> result S) xs ys s :
  foldM body (xs ++ ys) s = bind (foldM body xs s) (foldM body ys).
Proof.
  revert s. induction xs as [|x xs IH]; intros s; [reflexivity|].
  simpl. destruct (body s x); simpl; [apply IH | reflexivity].
Qed.

(** A round that always throws ends the loop with a throw, wherever it
    comes. *)
Lemma foldM_throws {A S : Type} (body : S -> A -> result S) x xs s :
  In x xs ->
  (forall s, exists e, body s x = Throw e) ->
  exists e, foldM body xs s = Throw e.
Proof.
  intros Hin Hx. revert s.
  induction xs as [|a xs IH]; intros s; [contradiction|].
  simpl. destruct (body s a) as [s1|e] eqn:E; simpl; [|eauto].
  destruct Hin as [->|Hin]; [|now apply IH].
  destruct (Hx s) as [e He]. congruence.
Qed.

Section WithCollaborators.
Variable io : Collaborators.

(** *** One property of one profile *)

Lemma secureStep_other profileType profileName st e st' key :
  key <> fst e ->
  secureStep io profileType profileName st e = Ok st' ->
  Obj.get key (fst st') = Obj.get key (fst st)
  /\ (In key (snd st') <-> In key (snd st)).
Proof.
  destruct st as [props secs], e as [key' v]. cbn [fst snd].
  intros Hne. unfold secureStep.
  destruct (toString (Number_toString io) v) as [str|]; simpl; [|discriminate].
  destruct (prefix (PROFILES_OPTION_SECURELY_STORED io) str);
    [|intros [= <-]; tauto].
  destruct (load io _ true) as [[text|]|]; simpl; try discriminate.
  - destruct (JSON_parse io text) as [parsed|]; simpl; [|discriminate].
    intros [= <-]. simpl. rewrite get_set_ne by assumption.
    split; [reflexivity|]. rewrite in_app_iff. simpl. intuition congruence.
  - intros [= <-]. simpl. rewrite get_delete.
    apply String.eqb_neq in Hne. rewrite Hne. tauto.
Qed.

Lemma secureSteps_others profileType profileName l st st' key :
  ~ In key (Obj.keys l) ->
  foldM (secureStep io profileType profileName) l st = Ok st' ->
  Obj.get key (fst st') = Obj.get key (fst st)
  /\ (In key (snd st') <-> In key (snd st)).
Proof.
  intros Hnotin Hrun.
  apply (foldM_keeps_In (secureStep io profileType profileName)
           (fun s => Obj.get key (fst s) = Obj.get key (fst st)
                     /\ (In key (snd s) <-> In key (snd st)))
           l st st'); [| tauto | assumption].
  intros s x s' Hx [H1 H2] Hstep.
  assert (Hne : key <> fst x).
  { intros Heq. apply Hnotin. rewrite Heq. unfold Obj.keys.
    now apply in_map. }
  destruct (secureStep_other _ _ _ _ _ key Hne Hstep) as [H3 H4].
  split; [congruence | tauto].
Qed.

(** With each name once in the file, what a property becomes is decided by
    its own round. *)
Lemma readProfile_own_round profileTypeDir profileType profileName p
  profileProps key v :
  readProfile io profileTypeDir profileType profileName = Ok p ->
  readProfileFile io
    (path_join io profileTypeDir (profileName ++ ".yaml")%string) profileType
  = Ok profileProps ->
  Obj.unique_keys profileProps = true ->
  In (key, v) profileProps ->
  exists st st1,
    secureStep io profileType profileName st (key, v) = Ok st1
    /\ Obj.get key (fst st) = Some v
    /\ ~ In key (snd st)
    /\ Obj.get key (IConfigProfile.properties p) = Obj.get key (fst st1)
    /\ (In key (IConfigProfile.secure_names p) <-> In key (snd st1)).
Proof.
  intros Hp Hfile Huniq Hin. apply unique_keys_NoDup in Huniq.
  unfold readProfile in Hp. rewrite Hfile in Hp. simpl in Hp.
  destruct (foldM (secureStep io profileType profileName) profileProps
              (profileProps, [])) as [[props' secs']|] eqn:E;
    simpl in Hp; [|discriminate].
  injection Hp as <-.
  pose proof (In_get_unique _ _ _ Huniq Hin) as Hget.
  destruct (in_split _ _ Hin) as (l1 & l2 & Hsplit).
  assert (Hkeys : ~ In key (Obj.keys l1) /\ ~ In key (Obj.keys l2)).
  { rewrite Hsplit in Huniq. unfold Obj.keys in *. rewrite map_app in Huniq.
    simpl in Huniq. apply NoDup_remove_2 in Huniq.
    rewrite in_app_iff in Huniq. tauto. }
  destruct Hkeys as [Hl1 Hl2].
  rewrite Hsplit in E at 1. rewrite foldM_app in E.
  destruct (foldM (secureStep io profileType profileName) l1 (profileProps, []))
    as [st|] eqn:E1; simpl in E; [|discriminate].
  destruct (secureStep io profileType profileName st (key, v))
    as [st1|] eqn:E2; simpl in E; [|discriminate].
  destruct (secureSteps_others _ _ _ _ _ key Hl1 E1) as [H1 H2].
  destruct (secureSteps_others _ _ _ _ _ key Hl2 E) as [H3 H4].
  exists st, st1. cbn [fst snd] in *. split; [exact E2|].
  split; [congruence|]. split; [tauto|].
  simpl. split; [assumption | tauto].
Qed.

(** X10. A property of a legacy profile whose value does not carry the
    sentinel is kept with its value in the profile built from the file, and
    is not recorded as secure. *)
Theorem plain_property_kept
  (profileTypeDir profileType profileName : string) (p : IConfigProfile.t)
  (profileProps : Obj.t value) (key : string) (v : value) (str : string) :
  readProfile io profileTypeDir profileType profileName = Ok p ->
  readProfileFile io
    (path_join io profileTypeDir (profileName ++ ".yaml")%string) profileType
  = Ok profileProps ->
  Obj.unique_keys profileProps = true ->
  In (key, v) profileProps ->
  toString (Number_toString io) v = Ok str ->
  prefix (PROFILES_OPTION_SECURELY_STORED io) str = false ->
  Obj.get key (IConfigProfile.properties p) = Some v
  /\ ~ In key (IConfigProfile.secure_names p).
Proof.
  intros Hp Hfile Huniq Hin Hstr Hpre.
  destruct (readProfile_own_round _ _ _ _ _ _ _ Hp Hfile Huniq Hin)
    as ([props secs] & st1 & Hstep & Hget & Hsec & Hgetp & Hsecp).
  unfold secureStep in Hstep. rewrite Hstr in Hstep. cbn [bind] in Hstep.
  rewrite Hpre in Hstep. injection Hstep as <-.
  cbn [fst snd] in *. split; [congruence | tauto].
Qed.

(** X11. A property that carries the sentinel and for which the vault has
    no secret is dropped: in the profile built from the file it is neither
    a property nor a secure name. *)
Theorem missing_secret_dropped
  (profileTypeDir profileType profileName : string) (p : IConfigProfile.t)
  (profileProps : Obj.t value) (key : string) (v : value) (str : string) :
  readProfile io profileTypeDir profileType profileName = Ok p ->
  readProfileFile io
    (path_join io profileTypeDir (profileName ++ ".yaml")%string) profileType
  = Ok profileProps ->
  Obj.unique_keys profileProps = true ->
  In (key, v) profileProps ->
  toString (Number_toString io) v = Ok str ->
  prefix (PROFILES_OPTION_SECURELY_STORED io) str = true ->
  load io (getProfilePropertyKey io profileType profileName key) true
  = Ok None ->
  Obj.get key (IConfigProfile.properties p) = None
  /\ ~ In key (IConfigProfile.secure_names p).
Proof.
  intros Hp Hfile Huniq Hin Hstr Hpre Hload.
  destruct (readProfile_own_round _ _ _ _ _ _ _ Hp Hfile Huniq Hin)
    as ([props secs] & st1 & Hstep & Hget & Hsec & Hgetp & Hsecp).
  unfold secureStep in Hstep. rewrite Hstr in Hstep. cbn [bind] in Hstep.
  rewrite Hpre, Hload in Hstep. cbn [bind] in Hstep. injection Hstep as <-.
  cbn [fst snd] in *. split; [|tauto].
  rewrite Hgetp, get_delete. now rewrite String.eqb_refl.
Qed.

(** X12. A property that carries the sentinel and whose secret the vault
    returns has, in the profile built from the file, the value parsed from
    the secret in place of the placeholder. *)
Theorem secret_replaces_placeholder
  (profileTypeDir profileType profileName : string) (p : IConfigProfile.t)
  (profileProps : Obj.t value) (key : string) (v parsed : value)
  (str text : string) :
  readProfile io profileTypeDir profileType profileName = Ok p ->
  readProfileFile io
    (path_join io profileTypeDir (profileName ++ ".yaml")%string) profileType
  = Ok profileProps ->
  Obj.unique_keys profileProps = true ->
  In (key, v) profileProps ->
  toString (Number_toString io) v = Ok str ->
  prefix (PROFILES_OPTION_SECURELY_STORED io) str = true ->
  load io (getProfilePropertyKey io profileType profileName key) true
  = Ok (Some text) ->
  JSON_parse io text = Ok parsed ->
  Obj.get key (IConfigProfile.properties p) = Some parsed.
Proof.
  intros Hp Hfile Huniq Hin Hstr Hpre Hload Hparse.
  destruct (readProfile_own_round _ _ _ _ _ _ _ Hp Hfile Huniq Hin)
    as ([props secs] & st1 & Hstep & Hget & Hsec & Hgetp & Hsecp).
  unfold secureStep in Hstep. rewrite Hstr in Hstep. cbn [bind] in Hstep.
  rewrite Hpre, Hload in Hstep. cbn [bind] in Hstep.
  rewrite Hparse in Hstep. cbn [bind] in Hstep. injection Hstep as <-.
  cbn [fst snd] in *. rewrite Hgetp. apply get_set_eq.
Qed.

(** *** Profiles that fail *)

Lemma readProfile_round_throws profileTypeDir profileType profileName
  profileProps key v :
  readProfileFile io
    (path_join io profileTypeDir (profileName ++ ".yaml")%string) profileType
  = Ok profileProps ->
  In (key, v) profileProps ->
  (forall st, exists e,
     secureStep io profileType profileName st (key, v) = Throw e) ->
  exists e,
    readProfile io profileTypeDir profileType profileName = Throw e.
Proof.
  intros Hfile Hin Hthrows. unfold readProfile. rewrite Hfile. cbn [bind].
  destruct (foldM_throws (secureStep io profileType profileName) (key, v)
              profileProps (profileProps, []) Hin Hthrows) as [e He].
  exists e. now rewrite He.
Qed.

Lemma listed_failure_recorded profilesRootDir profileTypes profileType
  profileName e :
  listed io profilesRootDir profileTypes ->
  In profileType profileTypes ->
  In profileName (namesOf io profilesRootDir profileType) ->
  readProfile io (typeDir io profilesRootDir profileType) profileType
    profileName = Throw e ->
  exists result,
    convert io profilesRootDir = Ok result
    /\ In {| IConvertFailure.name := Some profileName;
             IConvertFailure.type := profileType;
             IConvertFailure.error := e |}
          (IConfigConvertResult.profilesFailed result).
Proof.
  intros Hl Ht Hn He. rewrite (convert_returns io _ _ Hl).
  eexists. split; [reflexivity|].
  cbn [IConfigConvertResult.with_config IConfigConvertResult.profilesFailed].
  unfold convertAllListed.
  apply (fold_left_reaches (convertListed io profilesRootDir)
           (failed {| IConvertFailure.name := Some profileName;
                      IConvertFailure.type := profileType;
                      IConvertFailure.error := e |}) profileType);
    [assumption| |].
  - intros s. now apply convertListed_fails.
  - intros s y. apply convertListed_failed.
Qed.

(** X13. A listed profile whose file has a property without a value, null
    or undefined, is not converted: [convert] records it as failed. *)
Theorem empty_property_fails_the_profile
  (profilesRootDir : string) (profileTypes : list string)
  (profileType profileName : string)
  (profileProps : Obj.t value) (key : string) (v : value) :
  listed io profilesRootDir profileTypes ->
  In profileType profileTypes ->
  In profileName (namesOf io profilesRootDir profileType) ->
  readProfileFile io (fileOf io profilesRootDir profileType profileName)
    profileType = Ok profileProps ->
  In (key, v) profileProps ->
  v = VNull \/ v = VUndefined ->
  succeeds io profilesRootDir profileType profileName = false
  /\ exists result e,
       convert io profilesRootDir = Ok result
       /\ In {| IConvertFailure.name := Some profileName;
                IConvertFailure.type := profileType;
                IConvertFailure.error := e |}
             (IConfigConvertResult.profilesFailed result).
Proof.
  intros Hl Ht Hn Hfile Hin Hv.
  destruct (readProfile_round_throws (typeDir io profilesRootDir profileType)
              profileType profileName profileProps key v Hfile Hin)
    as [e He].
  { intros [props secs]. exists TypeError. unfold secureStep.
    destruct Hv as [-> | ->]; reflexivity. }
  split; [unfold succeeds; now rewrite He|].
  destruct (listed_failure_recorded _ _ _ _ _ Hl Ht Hn He)
    as (result & H1 & H2).
  eauto.
Qed.

(** X14. A listed profile with a property that carries the sentinel and
    whose secret cannot be had, because the vault throws or because what it
    returns is not JSON, is not converted: [convert] records it as failed. *)
Theorem unreadable_secret_fails_the_profile
  (profilesRootDir : string) (profileTypes : list string)
  (profileType profileName : string)
  (profileProps : Obj.t value) (key : string) (v : value) (str : string) :
  listed io profilesRootDir profileTypes ->
  In profileType profileTypes ->
  In profileName (namesOf io profilesRootDir profileType) ->
  readProfileFile io (fileOf io profilesRootDir profileType profileName)
    profileType = Ok profileProps ->
  In (key, v) profileProps ->
  toString (Number_toString io) v = Ok str ->
  prefix (PROFILES_OPTION_SECURELY_STORED io) str = true ->
  (exists e,
     load io (getProfilePropertyKey io profileType profileName key) true
     = Throw e)
  \/ (exists text e,
        load io (getProfilePropertyKey io profileType profileName key) true
        = Ok (Some text)
        /\ JSON_parse io text = Throw e) ->
  succeeds io profilesRootDir profileType profileName = false
  /\ exists result e,
       convert io profilesRootDir = Ok result
       /\ In {| IConvertFailure.name := Some profileName;
                IConvertFailure.type := profileType;
                IConvertFailure.error := e |}
             (IConfigConvertResult.profilesFailed result).
Proof.
  intros Hl Ht Hn Hfile Hin Hstr Hpre Hsecret.
  destruct (readProfile_round_throws (typeDir io profilesRootDir profileType)
              profileType profileName profileProps key v Hfile Hin)
    as [e He].
  { intros [props secs]. unfold secureStep. rewrite Hstr. cbn [bind].
    rewrite Hpre.
    destruct Hsecret as [(e & ->)|(text & e & -> & Hparse)]; cbn [bind].
    - eauto.
    - rewrite Hparse. cbn [bind]. eauto. }
  split; [unfold succeeds; now rewrite He|].
  destruct (listed_failure_recorded _ _ _ _ _ Hl Ht Hn He)
    as (result & H1 & H2).
  eauto.
Qed.

(** *** The names converted, exactly *)

(** Under a type with a name of [Object.prototype] no name is recorded. *)
Lemma convertName_converted_inherited dir t' n r t :
  Obj.inherited t = true ->
  Obj.get t (IConfigConvertResult.profilesConverted r) = None ->
  Obj.get t
    (IConfigConvertResult.profilesConverted (convertName io dir t' r n))
  = None.
Proof.
  intros Hin Hr. unfold convertName.
  destruct (readProfile io dir t' n); [|exact Hr].
  destruct (recordConverted t' n _) as [pc|e] eqn:E; [|exact Hr].
  cbn [IConfigConvertResult.profilesConverted].
  unfold recordConverted, Obj.read in E.
  destruct (String.eqb_spec t t') as [<-|Hne].
  - rewrite Hr, Hin in E. discriminate.
  - destruct (Obj.get t' _);
      [|destruct (Obj.inherited t'); [discriminate|]];
      injection E as <-; now rewrite get_set_ne.
Qed.

Lemma convertMeta_profilesConverted profileTypeDir profileType r :
  IConfigConvertResult.profilesConverted
    (convertMeta io profileTypeDir profileType r)
  = IConfigConvertResult.profilesConverted r.
Proof.
  unfold convertMeta. destruct (readMetaFile io _) as [meta|]; [|reflexivity].
  now destruct (IMetaProfile.defaultProfile meta).
Qed.

Lemma convertListed_converted_inherited root t' r t :
  Obj.inherited t = true ->
  Obj.get t (IConfigConvertResult.profilesConverted r) = None ->
  Obj.get t
    (IConfigConvertResult.profilesConverted (convertListed io root r t'))
  = None.
Proof.
  intros Hin Hr. unfold convertListed.
  destruct (namesOf io root t') as [|n ns]; [exact Hr|].
  rewrite convertMeta_profilesConverted.
  apply fold_left_keeps; [|exact Hr].
  intros s y. now apply convertName_converted_inherited.
Qed.

Lemma convertName_converted_step root profileType r n :
  Obj.inherited profileType = false ->
  Obj.get profileType
    (IConfigConvertResult.profilesConverted
       (convertName io (typeDir io root profileType) profileType r n)) =
  if succeeds io root profileType n
  then Some (match Obj.get profileType
                     (IConfigConvertResult.profilesConverted r) with
             | Some before => before
             | None => []
             end ++ [n])
  else Obj.get profileType (IConfigConvertResult.profilesConverted r).
Proof.
  intros Hord. unfold convertName, succeeds.
  destruct (readProfile io (typeDir io root profileType) profileType n)
    as [p|e]; [|reflexivity].
  unfold recordConverted. rewrite read_ordinary by assumption.
  destruct (Obj.get profileType (IConfigConvertResult.profilesConverted r));
    cbn [IConfigConvertResult.profilesConverted]; apply get_set_eq.
Qed.

Lemma convertNames_converted_own profileType names r :
  forall profilesRootDir,
  Obj.inherited profileType = false ->
  Obj.get profileType
    (IConfigConvertResult.profilesConverted
       (fold_left (convertName io (typeDir io profilesRootDir profileType)
                     profileType) names r)) =
  match filter (succeeds io profilesRootDir profileType) names with
  | [] => Obj.get profileType (IConfigConvertResult.profilesConverted r)
  | done =>
      Some (match Obj.get profileType
                    (IConfigConvertResult.profilesConverted r) with
            | Some before => before
            | None => []
            end ++ done)
  end.
Proof.
  intros root Hord. revert r.
  induction names as [|n names IH]; intros r; [reflexivity|].
  cbn [fold_left filter]. rewrite IH.
  rewrite (convertName_converted_step root profileType r n Hord).
  destruct (succeeds io root profileType n).
  - destruct (filter (succeeds io root profileType) names) as [|m ms].
    + reflexivity.
    + now rewrite <- app_assoc.
  - reflexivity.
Qed.

Lemma convertName_converted_other dir profileType r n t :
  t <> profileType ->
  Obj.get t
    (IConfigConvertResult.profilesConverted
       (convertName io dir profileType r n)) =
  Obj.get t (IConfigConvertResult.profilesConverted r).
Proof.
  intros Hne. unfold convertName.
  destruct (readProfile io dir profileType n); [|reflexivity].
  destruct (recordConverted profileType n _) as [pc|e] eqn:E; [|reflexivity].
  cbn [IConfigConvertResult.profilesConverted].
  unfold recordConverted in E.
  destruct (Obj.read profileType _); [|discriminate|];
    injection E as <-; now apply get_set_ne.
Qed.

Lemma convertListed_converted_own profilesRootDir profileType r :
  Obj.inherited profileType = false ->
  Obj.get profileType
    (IConfigConvertResult.profilesConverted
       (convertListed io profilesRootDir r profileType)) =
  match filter (succeeds io profilesRootDir profileType)
          (namesOf io profilesRootDir profileType) with
  | [] => Obj.get profileType (IConfigConvertResult.profilesConverted r)
  | done =>
      Some (match Obj.get profileType
                    (IConfigConvertResult.profilesConverted r) with
            | Some before => before
            | None => []
            end ++ done)
  end.
Proof.
  intros Hord. unfold convertListed.
  destruct (namesOf io profilesRootDir profileType) as [|n ns] eqn:E;
    [reflexivity|].
  rewrite convertMeta_profilesConverted.
  now apply convertNames_converted_own.
Qed.

Lemma convertListed_converted_other profilesRootDir profileType r t :
  t <> profileType ->
  Obj.get t
    (IConfigConvertResult.profilesConverted
       (convertListed io profilesRootDir r profileType)) =
  Obj.get t (IConfigConvertResult.profilesConverted r).
Proof.
  intros Hne. unfold convertListed.
  destruct (namesOf io profilesRootDir profileType) as [|n ns];
    [reflexivity|].
  rewrite convertMeta_profilesConverted.
  apply (fold_left_keeps _
           (fun s => Obj.get t (IConfigConvertResult.profilesConverted s) =
                     Obj.get t (IConfigConvertResult.profilesConverted r)));
    [|reflexivity].
  intros s y Hs. now rewrite convertName_converted_other.
Qed.

Lemma convertAllListed_converted profilesRootDir types r t :
  Obj.inherited t = false ->
  NoDup types ->
  Obj.get t (IConfigConvertResult.profilesConverted r) = None ->
  Obj.get t
    (IConfigConvertResult.profilesConverted
       (fold_left (convertListed io profilesRootDir) types r)) =
  if in_dec string_dec t types then
    match filter (succeeds io profilesRootDir t)
            (namesOf io profilesRootDir t) with
    | [] => None
    | done => Some done
    end
  else None.
Proof.
  intros Hord Hnd. revert r. induction types as [|t0 types IH]; intros r Hr.
  - exact Hr.
  - inversion Hnd as [|? ? Hnotin Hnd']; subst. cbn [fold_left].
    destruct (string_dec t t0) as [->|Hne].
    + destruct (in_dec string_dec t0 (t0 :: types)) as [_|Hn];
        [|exfalso; apply Hn; now left].
      assert (Hkeep : forall r',
                Obj.get t0
                  (IConfigConvertResult.profilesConverted
                     (fold_left (convertListed io profilesRootDir) types r')) =
                Obj.get t0 (IConfigConvertResult.profilesConverted r')).
      { clear - Hnotin. induction types as [|t1 types IHt]; intros r';
          [reflexivity|].
        cbn [fold_left]. rewrite IHt by (intros Hin; apply Hnotin; now right).
        apply convertListed_converted_other.
        intros ->. apply Hnotin. now left. }
      rewrite Hkeep, convertListed_converted_own, Hr by assumption.
      reflexivity.
    + rewrite IH; [|assumption|].
      * destruct (in_dec string_dec t types) as [Hin|Hnin];
          destruct (in_dec string_dec t (t0 :: types)) as [Hin'|Hnin'];
          try reflexivity.
        -- exfalso. apply Hnin'. now right.
        -- exfalso. destruct Hin' as [->|Hin']; [congruence | contradiction].
      * rewrite convertListed_converted_other by assumption. exact Hr.
Qed.

(** X15. When the listings return and no type is listed twice, the names
    converted for a type are exactly the listed profiles of the type whose
    conversion does not throw, in the order of the listing; a type that is
    not listed, or none of whose profiles is converted, has no entry, and
    neither has a type with a name of [Object.prototype]. *)
Theorem profilesConverted_exactly
  (profilesRootDir : string) (profileTypes : list string) :
  listed io profilesRootDir profileTypes ->
  NoDup profileTypes ->
  exists result,
    convert io profilesRootDir = Ok result
    /\ forall profileType,
         Obj.get profileType (IConfigConvertResult.profilesConverted result) =
         if Obj.inherited profileType then None
         else if in_dec string_dec profileType profileTypes then
           match filter (succeeds io profilesRootDir profileType)
                   (namesOf io profilesRootDir profileType) with
           | [] => None
           | done => Some done
           end
         else None.
Proof.
  intros Hl Hnd. rewrite (convert_returns io _ _ Hl).
  eexists. split; [reflexivity|].
  intros t. cbn [IConfigConvertResult.with_config
                 IConfigConvertResult.profilesConverted].
  unfold convertAllListed. destruct (Obj.inherited t) eqn:Hin.
  - apply fold_left_keeps; [|reflexivity].
    intros s y. now apply convertListed_converted_inherited.
  - now apply convertAllListed_converted.
Qed.

(** *** Nothing is recorded that was not found *)

Lemma convertListed_sound_failures profilesRootDir types r profileType :
  In profileType types ->
  sound_failures io profilesRootDir types r ->
  sound_failures io profilesRootDir types
    (convertListed io profilesRootDir r profileType).
Proof.
  intros Ht Hr. unfold convertListed.
  destruct (namesOf io profilesRootDir profileType) as [|n0 ns] eqn:Enames;
    [assumption|].
  assert (Hnames :
    sound_failures io profilesRootDir types
      (fold_left (convertName io (typeDir io profilesRootDir profileType)
                    profileType) (n0 :: ns) r)).
  { apply fold_left_keeps_In; [|assumption].
    intros s n Hn Hs f. unfold convertName.
    destruct (readProfile io (typeDir io profilesRootDir profileType)
                profileType n) as [p|e] eqn:E.
    - destruct (recordConverted profileType n _) as [pc|e] eqn:Erec;
        cbn [IConfigConvertResult.profilesFailed recordFailure];
        [apply Hs|].
      rewrite in_app_iff. intros [Hf|[<-|[]]]; [now apply Hs|].
      unfold sound_failure. cbn [IConvertFailure.type IConvertFailure.name
                                 IConvertFailure.error].
      rewrite Enames. split; [assumption|]. split; [assumption|]. right.
      unfold succeeds. rewrite E. split; [reflexivity|].
      unfold recordConverted, Obj.read in Erec.
      destruct (Obj.get profileType _); [discriminate|].
      destruct (Obj.inherited profileType); [|discriminate].
      injection Erec as <-. auto.
    - cbn [IConfigConvertResult.profilesFailed recordFailure].
      rewrite in_app_iff. intros [Hf|[<-|[]]]; [now apply Hs|].
      unfold sound_failure. cbn [IConvertFailure.type IConvertFailure.name
                                 IConvertFailure.error].
      rewrite Enames. auto. }
  intros f. unfold convertMeta.
  fold (metaFileOf io profilesRootDir profileType).
  destruct (readMetaFile io (metaFileOf io profilesRootDir profileType))
    as [meta|e] eqn:E.
  - destruct (IMetaProfile.defaultProfile meta); apply Hnames.
  - cbn [IConfigConvertResult.profilesFailed recordFailure].
    rewrite in_app_iff.
    intros [Hf|[<-|[]]]; [now apply Hnames|].
    unfold sound_failure. cbn [IConvertFailure.type IConvertFailure.name
                               IConvertFailure.error].
    rewrite Enames. repeat split; [assumption|discriminate|assumption].
Qed.

(** X16. [convert] returns exactly when the listings do, and every failure
    it reports is one that happened: it is of a listed type, and either
    names a listed profile of the type whose conversion throws the reported
    error, or names a listed profile that was read but whose name could not
    be recorded, the type having a name of [Object.prototype], or names
    none and the reported error is thrown by reading the meta file of a type
    that has profiles. *)
Theorem reported_failures_happened (profilesRootDir : string) :
  (forall profileTypes,
     listed io profilesRootDir profileTypes ->
     exists result, convert io profilesRootDir = Ok result)
  /\ (forall result,
        convert io profilesRootDir = Ok result ->
        exists profileTypes,
          listed io profilesRootDir profileTypes
          /\ sound_failures io profilesRootDir profileTypes result).
Proof.
  split.
  - intros types Hl. rewrite (convert_returns io _ _ Hl). eauto.
  - intros result Hrun.
    destruct (convert_listed io _ _ Hrun) as [types Hl].
    exists types. split; [assumption|].
    rewrite (convert_returns io _ _ Hl) in Hrun. injection Hrun as <-.
    unfold sound_failures.
    cbn [IConfigConvertResult.with_config
         IConfigConvertResult.profilesFailed].
    change (sound_failures io profilesRootDir types
              (convertAllListed io profilesRootDir types)).
    unfold convertAllListed. apply fold_left_keeps_In.
    + intros s t Ht Hs. now apply convertListed_sound_failures.
    + intros f [].
Qed.

Lemma get_assign_Some {A : Type} k (v : A) o k' v' :
  Obj.get k' (Obj.assign k v o) = Some v' ->
  (k' = k /\ v' = v) \/ Obj.get k' o = Some v'.
Proof.
  destruct (assign_cases k v o) as [->|(-> & _)]; [|now right].
  rewrite get_set. destruct (String.eqb_spec k' k) as [->|_]; [|now right].
  intros [= <-]. now left.
Qed.

Lemma convertListed_sound_defaults profilesRootDir types r profileType :
  In profileType types ->
  sound_defaults io profilesRootDir types r ->
  sound_defaults io profilesRootDir types
    (convertListed io profilesRootDir r profileType).
Proof.
  intros Ht Hr. unfold convertListed.
  destruct (namesOf io profilesRootDir profileType) as [|n0 ns] eqn:Enames;
    [assumption|].
  set (r1 := fold_left _ (n0 :: ns) r).
  assert (Hr1 : sound_defaults io profilesRootDir types r1).
  { unfold sound_defaults, r1. rewrite convertNames_defaults. exact Hr. }
  clearbody r1. unfold convertMeta.
  fold (metaFileOf io profilesRootDir profileType).
  destruct (readMetaFile io (metaFileOf io profilesRootDir profileType))
    as [[[d|]]|e] eqn:E; cbn [IMetaProfile.defaultProfile]; try exact Hr1.
  unfold sound_defaults. intros t key.
  cbn [IConfigConvertResult.with_config IConfigConvertResult.config
       IConfig.with_defaults IConfig.defaults].
  intros Hget. apply get_assign_Some in Hget as [[-> ->]|Hget].
  - rewrite Enames.
    repeat split; [assumption|discriminate|]. exists d. now rewrite E.
  - now apply Hr1.
Qed.

(** X17. When the listings return, [convert] returns, and every default in
    the converted document was read from a meta file: its type is listed
    and has profiles, the meta file of the type is readable and names a
    default profile, and the default is the map key of that profile. *)
Theorem defaults_come_from_meta_files
  (profilesRootDir : string) (profileTypes : list string) :
  listed io profilesRootDir profileTypes ->
  exists result,
    convert io profilesRootDir = Ok result
    /\ sound_defaults io profilesRootDir profileTypes result.
Proof.
  intros Hl. rewrite (convert_returns io _ _ Hl).
  eexists. split; [reflexivity|].
  unfold sound_defaults.
  cbn [IConfigConvertResult.with_config IConfigConvertResult.config
       IConfig.with_autoStore IConfig.with_profiles IConfig.defaults].
  change (sound_defaults io profilesRootDir profileTypes
            (convertAllListed io profilesRootDir profileTypes)).
  unfold convertAllListed. apply fold_left_keeps_In.
  - intros s t Ht Hs. now apply convertListed_sound_defaults.
  - intros t key. discriminate.
Qed.

Lemma convertListed_sound_profiles profilesRootDir types r profileType :
  In profileType types ->
  sound_profiles io profilesRootDir types r ->
  sound_profiles io profilesRootDir types
    (convertListed io profilesRootDir r profileType).
Proof.
  intros Ht Hr. unfold convertListed.
  destruct (namesOf io profilesRootDir profileType) as [|n0 ns] eqn:Enames;
    [assumption|].
  assert (Hnames :
    sound_profiles io profilesRootDir types
      (fold_left (convertName io (typeDir io profilesRootDir profileType)
                    profileType) (n0 :: ns) r)).
  { apply fold_left_keeps_In; [|assumption].
    intros s n Hn Hs. unfold convertName.
    destruct (readProfile io (typeDir io profilesRootDir profileType)
                profileType n) as [p0|e] eqn:E; [|exact Hs].
    assert (Hstored : forall key p,
              Obj.get key
                (Obj.assign (getProfileMapKey io profileType n) p0
                   (IConfig.profiles (IConfigConvertResult.config s)))
              = Some p ->
              exists profileType0 profileName,
                In profileType0 types
                /\ In profileName (namesOf io profilesRootDir profileType0)
                /\ readProfile io (typeDir io profilesRootDir profileType0)
                     profileType0 profileName = Ok p
                /\ key = getProfileMapKey io profileType0 profileName).
    { intros key p Hget. apply get_assign_Some in Hget as [[-> ->]|Hget].
      - exists profileType, n. rewrite Enames. auto.
      - now apply Hs. }
    destruct (recordConverted profileType n _); exact Hstored. }
  unfold convertMeta.
  destruct (readMetaFile io _) as [[[d|]]|e]; cbn [IMetaProfile.defaultProfile];
    exact Hnames.
Qed.

(** X18. When the listings return, [convert] returns, and every profile of
    the converted document is a profile that was read: its key is the map
    key of a listed profile of a listed type, for which the file was read
    and every secret loaded and parsed, and it is the profile built from
    that with the old property names replaced. *)
Theorem converted_profiles_were_read
  (profilesRootDir : string) (profileTypes : list string) :
  listed io profilesRootDir profileTypes ->
  exists result,
    convert io profilesRootDir = Ok result
    /\ forall key p,
         Obj.get key (IConfig.profiles (IConfigConvertResult.config result))
         = Some p ->
         exists profileType profileName read,
           In profileType profileTypes
           /\ In profileName (namesOf io profilesRootDir profileType)
           /\ readProfile io (typeDir io profilesRootDir profileType)
                profileType profileName = Ok read
           /\ key = getProfileMapKey io profileType profileName
           /\ p = Rename.renamed read.
Proof.
  intros Hl. rewrite (convert_returns io _ _ Hl).
  eexists. split; [reflexivity|].
  intros key p.
  cbn [IConfigConvertResult.with_config IConfigConvertResult.config
       IConfig.with_autoStore IConfig.with_profiles IConfig.profiles].
  rewrite get_map_values.
  destruct (Obj.get key
              (IConfig.profiles
                 (IConfigConvertResult.config
                    (convertAllListed io profilesRootDir profileTypes))))
    as [p0|] eqn:E; [|discriminate].
  intros [= <-].
  assert (Hsound :
    sound_profiles io profilesRootDir profileTypes
      (convertAllListed io profilesRootDir profileTypes)).
  { unfold convertAllListed. apply fold_left_keeps_In.
    - intros s t Ht Hs. now apply convertListed_sound_profiles.
    - intros k q. discriminate. }
  destruct (Hsound key p0 E) as (t & n & H1 & H2 & H3 & H4).
  exists t, n, p0. auto.
Qed.

(** X19. When no listed type has a profile, the result is the empty
    document with [autoStore] set, no converted name and no failure,
    whatever the meta files hold: a type without profiles is passed over
    before its meta file is read. *)
Theorem convert_without_profiles
  (profilesRootDir : string) (profileTypes : list string) :
  getAllProfileDirectories io profilesRootDir = Ok profileTypes ->
  (forall profileType,
     In profileType profileTypes ->
     listNames io profilesRootDir profileType = Ok []) ->
  convert io profilesRootDir =
  Ok {| IConfigConvertResult.config := IConfig.with_autoStore Config_empty true;
        IConfigConvertResult.profilesConverted := [];
        IConfigConvertResult.profilesFailed := [] |}.
Proof.
  intros Hdirs Hnone.
  assert (Hl : listed io profilesRootDir profileTypes)
    by (split; [assumption | eauto]).
  rewrite (convert_returns io _ _ Hl).
  assert (E : convertAllListed io profilesRootDir profileTypes = emptyResult).
  { unfold convertAllListed. apply fold_left_keeps_In; [|reflexivity].
    intros s t Ht ->. unfold convertListed, namesOf.
    now rewrite (Hnone t Ht). }
  rewrite E. reflexivity.
Qed.

End WithCollaborators.

End ConvertMore.

(** ** build *)

Module BuildFacts.

Import Js Build ObjFacts ConvertFacts HoistFacts HoistSpec.

(** *** Loops with steps the model does not cover *)


Lemma foldO_app {A S : Type} (body : S -> A -> option S) xs ys s :
  foldO body (xs ++ ys) s =
  match foldO body xs s with
  | Some s' => foldO body ys s'
  | None => None
  end.
Proof.
  revert s. induction xs as [|x xs IH]; intros s; [reflexivity|].
  simpl. destruct (body s x); [apply IH | reflexivity].
Qed.

Lemma foldO_total {A S : Type} (body : S -> A -> option S) xs s :
  (forall s x, In x xs -> exists s', body s x = Some s') ->
  exists s', foldO body xs s = Some s'.
Proof.
  revert s. induction xs as [|x xs IH]; intros s Hbody; [now exists s|].
  simpl. destruct (Hbody s x (or_introl eq_refl)) as [s1 ->].
  apply IH. intros s0 y Hy. apply Hbody. now right.
Qed.


(** *** The loop over a schema *)

Lemma assign_value_keys k v props props' k' :
  assign_value k v props = Some props' ->
  In k' (Obj.keys props') -> k' = k \/ In k' (Obj.keys props).
Proof.
  unfold assign_value. destruct (Obj.get k props).
  - intros [= <-]. apply In_keys_set.
  - destruct (String.eqb k "__proto__").
    + destruct v; try discriminate; intros [= <-]; tauto.
    + intros [= <-]. apply In_keys_set.
Qed.

Lemma assign_value_other k v props props' k' :
  assign_value k v props = Some props' ->
  k' <> k -> Obj.get k' props' = Obj.get k' props.
Proof.
  unfold assign_value. intros H Hne. destruct (Obj.get k props).
  - injection H as <-. now apply get_set_ne.
  - destruct (String.eqb k "__proto__").
    + destruct v; try discriminate; now injection H as <-.
    + injection H as <-. now apply get_set_ne.
Qed.

(** A round either records a secure name, or touches no other property
    than its own. *)
Lemma schemaStep_effect populate props secs next k v props' secs' next' :
  schemaStep populate (props, secs, next) (k, v) = Some (props', secs', next') ->
  (populate && IProfileProperty.includeInTemplate v
   && IProfileProperty.secure v = true
   /\ props' = props /\ secs' = secs ++ [k])
  \/ (populate && IProfileProperty.includeInTemplate v
      && IProfileProperty.secure v = false
      /\ secs' = secs
      /\ (forall k', In k' (Obj.keys props') ->
            k' = k \/ In k' (Obj.keys props))
      /\ (forall k', k' <> k -> Obj.get k' props' = Obj.get k' props)).
Proof.
  unfold schemaStep.
  destruct (populate && IProfileProperty.includeInTemplate v); cbn [andb].
  - destruct (IProfileProperty.secure v).
    + intros [= <- <- <-]. left. auto.
    + intros H. right. split; [reflexivity|].
      destruct (match IProfileProperty.optionDefinition v with
                | Some od =>
                    assign_value k (ICommandOptionDefinition.defaultValue od)
                      props
                | None => Some props
                end) as [props1|] eqn:E1; [|discriminate].
      assert (K1 : forall k', In k' (Obj.keys props1) ->
                     k' = k \/ In k' (Obj.keys props)).
      { destruct (IProfileProperty.optionDefinition v).
        - intros k'. now apply (assign_value_keys _ _ _ _ _ E1).
        - injection E1 as <-. tauto. }
      assert (G1 : forall k', k' <> k ->
                     Obj.get k' props1 = Obj.get k' props).
      { destruct (IProfileProperty.optionDefinition v).
        - intros k'. now apply (assign_value_other _ _ _ _ _ E1).
        - now injection E1 as <-. }
      destruct (is_undefined_at k props1).
      * destruct (getDefaultValue (IProfileProperty.type v) next)
          as [d next1].
        destruct (assign_value k d props1) as [props2|] eqn:E2;
          [|discriminate].
        injection H as <- <- <-. split; [reflexivity|]. split.
        -- intros k' Hk'.
           apply (assign_value_keys _ _ _ _ _ E2) in Hk' as [->|Hk'];
             [now left | now apply K1].
        -- intros k' Hne.
           rewrite (assign_value_other _ _ _ _ _ E2) by assumption.
           now apply G1.
      * injection H as <- <- <-. auto.
  - intros [= <- <- <-]. right. auto.
Qed.


(** *** The loop over the profile types *)

(** What a round that the model covers has done. *)
Lemma profileStep_inv opts config next profile config' next' :
  profileStep opts (config, next) profile = Some (config', next') ->
  let populate := IConfigBuilderOpts.populateProperties opts in
  let ty := IProfileTypeConfiguration.type profile in
  exists props secs,
    foldO (schemaStep populate)
      (IProfileSchema.properties (IProfileTypeConfiguration.schema profile))
      ([], [], next) = Some (props, secs, next')
    /\ one_segment ty = true
    /\ IConfig.profiles config' =
       Obj.set ty
         {| IConfigProfile.type := Some ty;
            IConfigProfile.properties := props;
            IConfigProfile.secure := Some secs |}
         (IConfig.profiles config)
    /\ IConfig.defaults config' =
       (if populate then Obj.assign ty ty (IConfig.defaults config)
        else IConfig.defaults config).
Proof.
  cbv zeta. unfold profileStep, lodash_set_profile.
  destruct (foldO _ _ _) as [[[props secs] next1]|]; [|discriminate].
  destruct (one_segment (IProfileTypeConfiguration.type profile));
    [|discriminate].
  destruct (IConfigBuilderOpts.populateProperties opts);
    intros [= <- <-]; exists props, secs; auto.
Qed.



(** *** Hoisting and the profiles that are not the base profile *)




(** *** The values the callback gives back *)



(** *** The document [build] returns *)



End BuildFacts.

Module BuildSpec.

Import Js Build ObjFacts RenameFacts ConvertFacts BuildFacts.


(** C3, where the code departs from it. With a base profile type named
    "root", the value the callback gives back for the secure property of the
    base profile is not written into the profile stored under "root": it is
    written into a new entry named "base", which has no type and no secure
    list. *)
Theorem build_value_back_misses_base_profile :
  exists config rootProfile strayProfile,
    build Examples.rootBaseConfig Examples.askToken 0 = Some (Ok config)
    /\ Obj.get "root" (IConfig.profiles config) = Some rootProfile
    /\ IConfigProfile.type rootProfile = Some "root"%string
    /\ In "tokenValue"%string (IConfigProfile.secure_names rootProfile)
    /\ Obj.get "tokenValue" (IConfigProfile.properties rootProfile) = None
    /\ Obj.get "base" (IConfig.profiles config) = Some strayProfile
    /\ IConfigProfile.type strayProfile = None
    /\ Obj.get "tokenValue" (IConfigProfile.properties strayProfile)
       = Some (VStr "abc123").
Proof.
  eexists _, _, _. split; [vm_compute; reflexivity|].
  repeat split; try reflexivity. simpl. now left.
Qed.

End BuildSpec.

(** ** build: what the document holds *)

Module BuildMore.

Import Js Build ObjFacts ConvertFacts ConvertMore FlattenFacts HoistFacts HoistSpec
  BuildFacts.

(** *** The loop over a schema *)



Lemma schemaSteps_unpopulated schema st :
  foldO (schemaStep false) schema st = Some st.
Proof.
  induction schema as [|[k v] schema IH]; [reflexivity|].
  cbn [foldO]. destruct st as [[props secs] next]. exact IH.
Qed.

Lemma schemaSteps_other populate schema st st' k :
  ~ In k (Obj.keys schema) ->
  foldO (schemaStep populate) schema st = Some st' ->
  Obj.get k (fst (fst st')) = Obj.get k (fst (fst st)).
Proof.
  revert st. induction schema as [|[k0 v] schema IH]; intros st Hk H.
  - cbn [foldO] in H. now injection H as <-.
  - cbn [foldO] in H.
    destruct (schemaStep populate st (k0, v)) as [st1|] eqn:E;
      [|discriminate].
    rewrite (IH st1) by (try assumption; intros Hin; apply Hk; now right).
    destruct st as [[props secs] next], st1 as [[props1 secs1] next1].
    cbn [fst].
    apply schemaStep_effect in E as [(_ & -> & _)|(_ & _ & _ & Hget)];
      [reflexivity|].
    apply Hget. intros ->. apply Hk. now left.
Qed.

Lemma schemaSteps_keys populate schema st st' k :
  foldO (schemaStep populate) schema st = Some st' ->
  In k (Obj.keys (fst (fst st'))) ->
  In k (Obj.keys (fst (fst st))) \/ In k (Obj.keys schema).
Proof.
  intros H Hk. destruct (in_dec string_dec k (Obj.keys schema)) as [|Hnot];
    [now right|]. left.
  apply In_keys_get in Hk as [w Hw].
  rewrite (schemaSteps_other _ _ _ _ _ Hnot H) in Hw.
  eapply get_Some_In_keys; eauto.
Qed.

(** The round of a property of the template that is not secure, when the
    name is new and no name of [Object.prototype]. *)
Lemma schemaStep_own props secs next k v :
  IProfileProperty.includeInTemplate v = true ->
  IProfileProperty.secure v = false ->
  Obj.get k props = None ->
  Obj.inherited k = false ->
  exists st',
    schemaStep true (props, secs, next) (k, v) = Some st'
    /\ Obj.get k (fst (fst st')) = Some (templateValue v next).
Proof.
  intros Hin Hsec Hfresh Hord. unfold schemaStep, templateValue.
  rewrite Hin, Hsec. cbn [andb].
  assert (Hk : String.eqb k "__proto__" = false).
  { apply String.eqb_neq. intros ->. discriminate Hord. }
  assert (Hnew : forall d, assign_value k d props = Some (Obj.set k d props)).
  { intros d. unfold assign_value. now rewrite Hfresh, Hk. }
  assert (Hold : forall d d',
            assign_value k d' (Obj.set k d props) =
            Some (Obj.set k d' (Obj.set k d props))).
  { intros d d'. unfold assign_value. now rewrite get_set_eq. }
  destruct (IProfileProperty.optionDefinition v) as [[d]|].
  - cbn [ICommandOptionDefinition.defaultValue]. rewrite Hnew.
    unfold is_undefined_at. rewrite (read_own _ d) by apply get_set_eq.
    destruct d;
      try (eexists; split; [reflexivity|]; cbn [fst]; apply get_set_eq).
    destruct (getDefaultValue (IProfileProperty.type v) next) as [d' next'].
    rewrite Hold. eexists. split; [reflexivity|]. cbn [fst].
    apply get_set_eq.
  - unfold is_undefined_at. rewrite read_ordinary, Hfresh by assumption.
    destruct (getDefaultValue (IProfileProperty.type v) next) as [d' next'].
    rewrite Hnew. eexists. split; [reflexivity|]. cbn [fst].
    apply get_set_eq.
Qed.

Lemma schemaSteps_own schema next k v st' :
  NoDup (Obj.keys schema) ->
  In (k, v) schema ->
  IProfileProperty.includeInTemplate v = true ->
  IProfileProperty.secure v = false ->
  Obj.inherited k = false ->
  foldO (schemaStep true) schema ([], [], next) = Some st' ->
  exists n, Obj.get k (fst (fst st')) = Some (templateValue v n).
Proof.
  intros Hnd Hin Hinc Hsec Hord Hrun.
  apply in_split in Hin as (before & after & ->).
  unfold Obj.keys in Hnd. rewrite map_app in Hnd. cbn [map fst] in Hnd.
  apply NoDup_remove in Hnd as [_ Hnot].
  rewrite foldO_app in Hrun.
  destruct (foldO (schemaStep true) before ([], [], next))
    as [[[props secs] n]|] eqn:E; [|discriminate].
  cbn [foldO] in Hrun.
  assert (Hfresh : Obj.get k props = None).
  { apply get_None_not_In. intros Hk.
    destruct (schemaSteps_keys _ _ _ _ k E Hk) as [[]|Hk'].
    apply Hnot, in_or_app. now left. }
  destruct (schemaStep_own props secs n k v Hinc Hsec Hfresh Hord)
    as (st1 & Hstep & Hget).
  rewrite Hstep in Hrun. exists n.
  rewrite (schemaSteps_other _ _ _ _ k
             (fun H => Hnot (in_or_app _ _ _ (or_intror H))) Hrun).
  exact Hget.
Qed.

(** The schema loop has an outcome when no property is named
    [__proto__]. *)
Lemma assign_value_returns k v props :
  k <> "__proto__"%string ->
  exists props', assign_value k v props = Some props'.
Proof.
  intros Hk. unfold assign_value. destruct (Obj.get k props); [eauto|].
  apply String.eqb_neq in Hk. rewrite Hk. eauto.
Qed.

Lemma schemaSteps_return populate schema st :
  ~ In "__proto__"%string (Obj.keys schema) ->
  exists st', foldO (schemaStep populate) schema st = Some st'.
Proof.
  intros Hnot. apply foldO_total. intros [[props secs] next] [k v] Hin.
  assert (Hk : k <> "__proto__"%string).
  { intros ->. apply Hnot. unfold Obj.keys. apply in_map_iff.
    now exists ("__proto__"%string, v). }
  unfold schemaStep.
  destruct (populate && IProfileProperty.includeInTemplate v); [|eauto].
  destruct (IProfileProperty.secure v); [eauto|].
  assert (H1 : exists props1,
            match IProfileProperty.optionDefinition v with
            | Some od =>
                assign_value k (ICommandOptionDefinition.defaultValue od)
                  props
            | None => Some props
            end = Some props1).
  { destruct (IProfileProperty.optionDefinition v);
      [now apply assign_value_returns | eauto]. }
  destruct H1 as [props1 ->].
  destruct (is_undefined_at k props1); [|eauto].
  destruct (getDefaultValue (IProfileProperty.type v) next) as [d next'].
  destruct (assign_value_returns k d props1 Hk) as [props2 ->]. eauto.
Qed.

(** *** The loop over the profile types *)

Lemma profileSteps_other opts profiles st st' t :
  ~ In t (map IProfileTypeConfiguration.type profiles) ->
  foldO (profileStep opts) profiles st = Some st' ->
  Obj.get t (IConfig.profiles (fst st')) = Obj.get t (IConfig.profiles (fst st)).
Proof.
  revert st. induction profiles as [|a profiles IH]; intros st Hnot H.
  - cbn [foldO] in H. now injection H as <-.
  - cbn [foldO] in H.
    destruct (profileStep opts st a) as [st1|] eqn:E; [|discriminate].
    rewrite (IH st1) by (try assumption; intros Hin; apply Hnot; now right).
    destruct st as [config next], st1 as [config1 next1].
    apply profileStep_inv in E as (props & secs & _ & _ & Hp & _).
    cbn [fst]. rewrite Hp. apply get_set_ne. intros ->. apply Hnot. now left.
Qed.

Lemma profileSteps_own opts profiles st st' profile :
  NoDup (map IProfileTypeConfiguration.type profiles) ->
  In profile profiles ->
  foldO (profileStep opts) profiles st = Some st' ->
  let populate := IConfigBuilderOpts.populateProperties opts in
  let schema :=
    IProfileSchema.properties (IProfileTypeConfiguration.schema profile) in
  let ty := IProfileTypeConfiguration.type profile in
  exists next props secs next',
    foldO (schemaStep populate) schema ([], [], next)
    = Some (props, secs, next')
    /\ Obj.get ty (IConfig.profiles (fst st'))
       = Some {| IConfigProfile.type := Some ty;
                 IConfigProfile.properties := props;
                 IConfigProfile.secure := Some secs |}.
Proof.
  cbv zeta. revert st.
  induction profiles as [|a profiles IH]; intros st Hnd Hin H;
    [contradiction|].
  inversion Hnd as [|? ? Hnot Hnd']; subst. cbn [foldO] in H.
  destruct (profileStep opts st a) as [st1|] eqn:E; [|discriminate].
  destruct Hin as [->|Hin]; [|now apply (IH st1)].
  destruct st as [config next], st1 as [config1 next1].
  apply profileStep_inv in E as (props & secs & Hfold & _ & Hp & _).
  cbv zeta in *. exists next, props, secs, next1. split; [exact Hfold|].
  rewrite (profileSteps_other _ _ _ _ _ Hnot H). cbn [fst]. rewrite Hp.
  apply get_set_eq.
Qed.




(** *** Hoisting and the values given back keep types and secure lists *)







(** *** Nothing populated *)

Lemma profileSteps_unpopulated opts profiles config next :
  IConfigBuilderOpts.populateProperties opts = false ->
  forallb (fun profile => one_segment (IProfileTypeConfiguration.type profile))
    profiles = true ->
  foldO (profileStep opts) profiles (config, next) =
  Some (IConfig.with_profiles config
          (fold_left declare profiles (IConfig.profiles config)), next).
Proof.
  intros Hpop. revert config.
  induction profiles as [|a profiles IH]; intros config Hseg.
  - now destruct config.
  - cbn [forallb] in Hseg. apply andb_prop in Hseg as [Ha Hseg].
    cbn [foldO]. unfold profileStep at 1, lodash_set_profile.
    rewrite Hpop, schemaSteps_unpopulated, Ha.
    rewrite IH by assumption. reflexivity.
Qed.

Lemma flatten_empty b (ps : Obj.t IConfigProfile.t) :
  (forall p, In p (Obj.values ps) -> IConfigProfile.properties p = []) ->
  Hoist.collectProps b ps = [].
Proof.
  intros Hempty. unfold Hoist.collectProps.
  apply fold_left_keeps_In; [|reflexivity].
  intros fl p Hp ->. unfold Hoist.children in Hp.
  apply filter_In in Hp as [Hp _].
  unfold Hoist.collect_profile. now rewrite (Hempty p Hp).
Qed.

Lemma ordinary_empty b (ps : Obj.t IConfigProfile.t) :
  (forall p, In p (Obj.values ps) -> IConfigProfile.properties p = []) ->
  Hoist.ordinary_children b ps = true.
Proof.
  intros Hempty. unfold Hoist.ordinary_children. apply forallb_forall.
  intros p Hp. unfold Hoist.children in Hp.
  apply filter_In in Hp as [Hp _].
  unfold Hoist.ordinary_names. now rewrite (Hempty p Hp).
Qed.

Lemma declared_empty profiles (ps : Obj.t IConfigProfile.t) :
  (forall p, In p (Obj.values ps) -> IConfigProfile.properties p = []) ->
  forall p, In p (Obj.values (fold_left declare profiles ps)) ->
    IConfigProfile.properties p = [].
Proof.
  revert ps. induction profiles as [|a profiles IH]; intros ps Hps;
    [exact Hps|].
  cbn [fold_left]. apply IH. intros p Hp. unfold Obj.values in Hp.
  apply in_map_iff in Hp as ([k q] & <- & Hin). unfold declare in Hin.
  apply In_set in Hin as [Heq|Hin]; [now inversion Heq|].
  apply Hps. unfold Obj.values. apply in_map_iff. now exists (k, q).
Qed.

(** X22. Called without options for types whose names are one segment of a
    lodash path each, [build] does not fail, whatever the base profile: the
    document it returns has one profile for each declared type, under the
    name of the type, with no property and an empty secure list, no
    default, and [autoStore] set. *)
Theorem build_without_options
  (impConfig : IImperativeConfig.t) (next : nat) :
  forallb (fun profile => one_segment (IProfileTypeConfiguration.type profile))
    (IImperativeConfig.profiles impConfig) = true ->
  build impConfig
    {| IConfigBuilderOpts.populateProperties := false;
       IConfigBuilderOpts.getValueBack := None |} next =
  Some (Ok {| IConfig.defaults := [];
              IConfig.profiles :=
                fold_left declare (IImperativeConfig.profiles impConfig) [];
              IConfig.plugins := [];
              IConfig.secure := [];
              IConfig.properties := [];
              IConfig.autoStore := Some true |}).
Proof.
  intros Hseg. unfold build.
  rewrite profileSteps_unpopulated by (reflexivity || assumption).
  cbn [fst Config_empty IConfig.with_profiles IConfig.profiles
       IConfig.defaults IConfig.plugins IConfig.secure IConfig.properties
       IConfig.autoStore IConfigBuilderOpts.getValueBack].
  destruct (IImperativeConfig.baseProfile impConfig) as [baseProfile|];
    [|reflexivity].
  assert (Hempty : forall p,
            In p (Obj.values
                    (fold_left declare (IImperativeConfig.profiles impConfig)
                       [])) ->
            IConfigProfile.properties p = [])
    by (apply declared_empty; intros p []).
  unfold Hoist.hoistTemplateProperties.
  rewrite flattenProps_spec, (ordinary_empty _ _ Hempty). cbn [bind].
  rewrite (flatten_empty _ _ Hempty). reflexivity.
Qed.

(** *** The values given back *)

Lemma valueBack_nullish getValueBack hoisted written props config :
  (forall k v, exists propValue,
     getValueBack k v = Ok propValue /\ not_nullish propValue = false) ->
  foldMO (valueBackStep getValueBack hoisted written) props config
  = Some (Ok config).
Proof.
  intros Hnull. induction props as [|[k v] props IH]; [reflexivity|].
  cbn [foldMO]. unfold valueBackStep at 1.
  destruct (Hnull k v) as (propValue & -> & Hn). rewrite Hn.
  destruct (_ || _); exact IH.
Qed.

(** X23. A callback that gives back null or undefined for every property
    is as good as none: [build] returns the same document with it as
    without it. *)
Theorem nullish_values_back_change_nothing
  (impConfig : IImperativeConfig.t) (populateProperties : bool)
  (getValueBack : string -> IProfileProperty.t -> result value)
  (next : nat) :
  (forall k v, exists propValue,
     getValueBack k v = Ok propValue /\ not_nullish propValue = false) ->
  build impConfig
    {| IConfigBuilderOpts.populateProperties := populateProperties;
       IConfigBuilderOpts.getValueBack := Some getValueBack |} next =
  build impConfig
    {| IConfigBuilderOpts.populateProperties := populateProperties;
       IConfigBuilderOpts.getValueBack := None |} next.
Proof.
  intros Hnull. unfold build.
  change (profileStep
            {| IConfigBuilderOpts.populateProperties := populateProperties;
               IConfigBuilderOpts.getValueBack := Some getValueBack |})
    with (profileStep
            {| IConfigBuilderOpts.populateProperties := populateProperties;
               IConfigBuilderOpts.getValueBack := None |}).
  destruct (foldO _ _ _) as [[config next0]|]; [|reflexivity].
  cbn [IConfigBuilderOpts.getValueBack].
  destruct (IImperativeConfig.baseProfile impConfig) as [baseProfile|];
    [|reflexivity].
  destruct (Hoist.hoistTemplateProperties _ _) as [[hoisted ps']|];
    [|reflexivity].
  now rewrite valueBack_nullish.
Qed.

(** *** The values of the template *)

(** X24. With no base profile, no two declared types of the same name,
    every type name one segment of a lodash path and no schema property
    named [__proto__], [build] returns, and a schema property of a declared
    type that is included in the template, not secure and not named as a
    member of [Object.prototype] is a property of the profile of the type:
    its value is the default of its option definition when that is defined,
    and otherwise the empty value of its type. *)
Theorem template_values
  (impConfig : IImperativeConfig.t) (opts : IConfigBuilderOpts.t)
  (next : nat) (profile : IProfileTypeConfiguration.t)
  (k : string) (v : IProfileProperty.t) :
  IImperativeConfig.baseProfile impConfig = None ->
  NoDup (map IProfileTypeConfiguration.type
           (IImperativeConfig.profiles impConfig)) ->
  (forall declared,
     In declared (IImperativeConfig.profiles impConfig) ->
     one_segment (IProfileTypeConfiguration.type declared) = true
     /\ ~ In "__proto__"%string
          (Obj.keys (IProfileSchema.properties
                       (IProfileTypeConfiguration.schema declared)))) ->
  In profile (IImperativeConfig.profiles impConfig) ->
  Obj.unique_keys
    (IProfileSchema.properties (IProfileTypeConfiguration.schema profile))
  = true ->
  In (k, v)
    (IProfileSchema.properties (IProfileTypeConfiguration.schema profile)) ->
  Obj.inherited k = false ->
  IConfigBuilderOpts.populateProperties opts = true ->
  IProfileProperty.includeInTemplate v = true ->
  IProfileProperty.secure v = false ->
  exists config p n,
    build impConfig opts next = Some (Ok config)
    /\ Obj.get (IProfileTypeConfiguration.type profile)
         (IConfig.profiles config) = Some p
    /\ Obj.get k (IConfigProfile.properties p) = Some (templateValue v n).
Proof.
  intros Hbase Hnd Hcov Hin Hu Hkv Hord Hpop Hinc Hsec.
  destruct (foldO_total (profileStep opts)
              (IImperativeConfig.profiles impConfig) (Config_empty, next))
    as [[config0 next0] Hfold].
  { intros [config n] declared Hd. destruct (Hcov declared Hd) as [Hseg Hnp].
    unfold profileStep, lodash_set_profile.
    destruct (schemaSteps_return (IConfigBuilderOpts.populateProperties opts)
                _ ([], [], n) Hnp) as [[[props secs] n'] ->].
    rewrite Hseg.
    destruct (IConfigBuilderOpts.populateProperties opts); eauto. }
  unfold build. rewrite Hfold, Hbase.
  destruct (profileSteps_own opts _ _ _ profile Hnd Hin Hfold)
    as (n0 & props & secs & n' & Hschema & Hget).
  cbn [fst] in Hget. rewrite Hpop in Hschema.
  apply unique_keys_NoDup in Hu.
  destruct (schemaSteps_own _ n0 k v _ Hu Hkv Hinc Hsec Hord Hschema)
    as [n Hn].
  eexists _, _, n. split; [reflexivity|].
  cbn [IConfig.with_autoStore IConfig.profiles]. split; [exact Hget|].
  cbn [IConfigProfile.properties]. exact Hn.
Qed.

End BuildMore.

(** ** The auth handler *)

Module AuthSpec.

Import Auth.

(** C4, as the code has it. When the token type, the token value, the host
    or the port is absent and the three steps before the checks return (the
    lookup of the loaded profile, the session configuration built from the
    arguments, the session constructor), [processLogout] fails with the
    validation error of the first absent argument; by then it has looked up
    the loaded profile and built the session and stored it in [mSession],
    and it has done nothing else: no logout request, no [save] or [update]
    on the profile store, no message. *)
Theorem processLogout_validation
  (h : Handler) (sv : Services) (args : ICommandArguments.t) (s : state)
  (loadedProfile : IProfileLoaded.t) (sessCfg session : ISession.t) :
  getMeta sv (mProfileType h) false = Ok loadedProfile ->
  createSessCfgFromArgs h args = Ok sessCfg ->
  newSession sv sessCfg = Ok session ->
  ICommandArguments.tokenType args = None
  \/ ICommandArguments.tokenValue args = None
  \/ ICommandArguments.host args = None
  \/ ICommandArguments.port args = None ->
  exists msg,
    firstMissing args = Some msg
    /\ processLogout h sv args s =
       (Throw (ImperativeError msg),
        {| mSession := Some session;
           trace := trace s ++
                    [ GetMeta (mProfileType h) false;
                      CreateSessCfgFromArgs args;
                      NewSession sessCfg ] |}).
Proof.
  intros Hmeta Hcfg Hnew Hmissing.
  unfold processLogout, firstMissing, bindM, call, setSession,
    toNotBeNullOrUndefined, ret, throw.
  rewrite Hmeta, Hcfg, Hnew. cbn [mSession trace].
  rewrite <- !app_assoc. cbn [app].
  destruct (ICommandArguments.tokenType args);
    [|eexists; split; reflexivity].
  destruct (ICommandArguments.tokenValue args);
    [|eexists; split; reflexivity].
  destruct (ICommandArguments.host args);
    [|eexists; split; reflexivity].
  destruct (ICommandArguments.port args);
    [|eexists; split; reflexivity].
  destruct Hmissing as [H|[H|[H|H]]]; discriminate H.
Qed.

(** C5. When the four arguments are there, the steps before the logout
    request return and the request succeeds, and the loaded profile has no
    name or its token value is not the one in the arguments, [processLogout]
    returns; the logout request is made with the session in token mode,
    carrying the token type and the token value of the arguments; there is
    no [save] on the profile store; the session is left with the connection
    data the request left it with, in basic mode, without token type and
    without token value; and the last thing done is the report of the
    success. *)
Theorem processLogout_token_mismatch
  (h : Handler) (sv : Services) (args : ICommandArguments.t) (s : state)
  (loadedProfile : IProfileLoaded.t) (sessCfg session session' : ISession.t)
  (tokenType tokenValue host : string) (port : Z) :
  let requested :=
    {| ISession.hostname := ISession.hostname session;
       ISession.port := ISession.port session;
       ISession.user := ISession.user session;
       ISession.password := ISession.password session;
       ISession.type := Some AUTH_TYPE_TOKEN;
       ISession.tokenType := Some tokenType;
       ISession.tokenValue := Some tokenValue |} in
  getMeta sv (mProfileType h) false = Ok loadedProfile ->
  createSessCfgFromArgs h args = Ok sessCfg ->
  newSession sv sessCfg = Ok session ->
  ICommandArguments.tokenType args = Some tokenType ->
  ICommandArguments.tokenValue args = Some tokenValue ->
  ICommandArguments.host args = Some host ->
  ICommandArguments.port args = Some port ->
  doLogout h requested = (Ok tt, session') ->
  IProfileLoaded.name loadedProfile = None
  \/ strict_equal (Some tokenValue)
       (IProfile.tokenValue (IProfileLoaded.profile loadedProfile)) = false ->
  processLogout h sv args s =
  (Ok tt,
   {| mSession :=
        Some {| ISession.hostname := ISession.hostname session';
                ISession.port := ISession.port session';
                ISession.user := ISession.user session';
                ISession.password := ISession.password session';
                ISession.type := Some AUTH_TYPE_BASIC;
                ISession.tokenType := None;
                ISession.tokenValue := None |};
      trace := trace s ++
               [ GetMeta (mProfileType h) false;
                 CreateSessCfgFromArgs args;
                 NewSession sessCfg;
                 DoLogout requested;
                 ConsoleLog "Logout successful." ] |}).
Proof.
  intros requested Hmeta Hcfg Hnew Hty Hval Hhost Hport Hout Hmismatch.
  unfold processLogout, callDoLogout, bindM, call, setSession, getSession,
    toNotBeNullOrUndefined, ret, throw.
  rewrite Hmeta, Hcfg, Hnew, Hty, Hval, Hhost, Hport.
  cbn [mSession trace]. unfold ISession.with_token at 1 2.
  fold requested. rewrite Hout. cbn [mSession trace].
  assert (Hskip :
    match IProfileLoaded.name loadedProfile with
    | Some name =>
        if strict_equal (Some tokenValue)
             (IProfile.tokenValue (IProfileLoaded.profile loadedProfile))
        then true else false
    | None => false
    end = false).
  { destruct Hmismatch as [-> | ->]; [reflexivity|].
    now destruct (IProfileLoaded.name loadedProfile). }
  destruct (IProfileLoaded.name loadedProfile) as [name|].
  - destruct (strict_equal (Some tokenValue) _); [discriminate|].
    cbn [mSession trace]. rewrite <- !app_assoc. reflexivity.
  - cbn [mSession trace]. rewrite <- !app_assoc. reflexivity.
Qed.

(** C6. When the loaded profile has a name and the steps up to the login
    request return with a token: without [showToken] the profile store
    receives one [update] for that profile, carrying the token type of the
    session and the token, in merge mode, and the token is not written to
    the output; with [showToken] there is no [update], and after the report
    of success the output receives the message that ends with the token,
    each of its three lines after a line feed. *)
Theorem processLogin_update_or_show
  (h : Handler) (sv : Services) (args : ICommandArguments.t) (s : state)
  (loadedProfile : IProfileLoaded.t) (name : string)
  (sessCfg sessCfgWithCreds session session' : ISession.t)
  (tokenValue : string) :
  getMeta sv (mProfileType h) false = Ok loadedProfile ->
  IProfileLoaded.name loadedProfile = Some name ->
  createSessCfgFromArgs h args = Ok sessCfg ->
  addCredsOrPrompt sv sessCfg args true (mDefaultTokenType h)
  = Ok sessCfgWithCreds ->
  newSession sv sessCfgWithCreds = Ok session ->
  doLogin h session = (Ok tokenValue, session') ->
  let before :=
    [ GetMeta (mProfileType h) false;
      CreateSessCfgFromArgs args;
      AddCredsOrPrompt sessCfg true (mDefaultTokenType h);
      NewSession sessCfgWithCreds;
      DoLogin session ] in
  let stored :=
    update sv (mProfileType h) name (ISession.tokenType session') tokenValue
      true in
  let lineFeed := String (ascii_of_nat 10) EmptyString in
  let shown :=
    (lineFeed ++ "Received a token of type = " ++
     match ISession.tokenType session' with
     | Some tokenType => tokenType
     | None => "undefined"
     end ++ "." ++
     lineFeed ++ "The following token was stored in your profile:" ++
     lineFeed ++ tokenValue)%string in
  processLogin h sv args s =
  if ICommandArguments.showToken args then
    (Ok tt,
     {| mSession := Some session';
        trace := trace s ++ before ++
                 [ ConsoleLog "Login successful."; ConsoleLog shown ] |})
  else
    (stored,
     {| mSession := Some session';
        trace := trace s ++ before ++
                 [ Update (mProfileType h) name (ISession.tokenType session')
                     tokenValue true ] ++
                 match stored with
                 | Ok _ => [ConsoleLog "Login successful."]
                 | Throw _ => []
                 end |}).
Proof.
  intros Hmeta Hname Hcfg Hcreds Hnew Hlogin before stored lineFeed shown.
  unfold processLogin, callDoLogin, bindM, call, setSession, getSession, ret.
  rewrite Hmeta, Hcfg, Hcreds, Hnew. cbn [mSession trace].
  rewrite Hlogin. cbn [mSession trace]. rewrite Hname.
  destruct (ICommandArguments.showToken args); cbn [negb mSession trace].
  - unfold before. rewrite <- !app_assoc.
    replace (tokenMessage (ISession.tokenType session') tokenValue)
      with shown; [reflexivity|].
    unfold shown, lineFeed, tokenMessage.
    now destruct (ISession.tokenType session').
  - fold stored. destruct stored as [[]|e]; cbn [mSession trace];
      unfold before; rewrite <- !app_assoc; reflexivity.
Qed.

End AuthSpec.

(** ** The auth handler: the other paths *)

Module AuthMore.

Import Auth.


(** X26. When the token of the arguments is the token of the loaded profile,
    [processLogout] makes the logout request with the session in token
    mode, carrying the token type and the token value of the arguments, and
    then saves that profile once, under its name and type, with overwrite
    set, its token type and token value removed and its other fields kept.
    If the save succeeds, the session is left with the connection data the
    request left it with, in basic mode, without token type and without
    token value, and the success is reported; if it fails the error is
    passed on, the session stays as the request left it and nothing is
    reported. *)
Theorem processLogout_token_match
  (h : Handler) (sv : Services) (args : ICommandArguments.t) (s : state)
  (loadedProfile : IProfileLoaded.t) (name : string)
  (sessCfg session session' : ISession.t)
  (tokenType tokenValue host : string) (port : Z) :
  let requested :=
    {| ISession.hostname := ISession.hostname session;
       ISession.port := ISession.port session;
       ISession.user := ISession.user session;
       ISession.password := ISession.password session;
       ISession.type := Some AUTH_TYPE_TOKEN;
       ISession.tokenType := Some tokenType;
       ISession.tokenValue := Some tokenValue |} in
  getMeta sv (mProfileType h) false = Ok loadedProfile ->
  IProfileLoaded.name loadedProfile = Some name ->
  createSessCfgFromArgs h args = Ok sessCfg ->
  newSession sv sessCfg = Ok session ->
  ICommandArguments.tokenType args = Some tokenType ->
  ICommandArguments.tokenValue args = Some tokenValue ->
  ICommandArguments.host args = Some host ->
  ICommandArguments.port args = Some port ->
  doLogout h requested = (Ok tt, session') ->
  IProfile.tokenValue (IProfileLoaded.profile loadedProfile)
  = Some tokenValue ->
  let cleared :=
    {| IProfile.tokenType := None; IProfile.tokenValue := None;
       IProfile.others :=
         IProfile.others (IProfileLoaded.profile loadedProfile) |} in
  let saved :=
    save sv (mProfileType h) name (IProfileLoaded.type loadedProfile) true
      cleared in
  let calls :=
    [ GetMeta (mProfileType h) false;
      CreateSessCfgFromArgs args;
      NewSession sessCfg;
      DoLogout requested;
      Save (mProfileType h) name (IProfileLoaded.type loadedProfile) true
        cleared ] in
  processLogout h sv args s =
  match saved with
  | Ok _ =>
      (Ok tt,
       {| mSession :=
            Some {| ISession.hostname := ISession.hostname session';
                    ISession.port := ISession.port session';
                    ISession.user := ISession.user session';
                    ISession.password := ISession.password session';
                    ISession.type := Some AUTH_TYPE_BASIC;
                    ISession.tokenType := None;
                    ISession.tokenValue := None |};
          trace := trace s ++ calls ++ [ConsoleLog "Logout successful."] |})
  | Throw e =>
      (Throw e, {| mSession := Some session'; trace := trace s ++ calls |})
  end.
Proof.
  intros requested Hmeta Hname Hcfg Hnew Hty Hval Hhost Hport Hout Hsame
    cleared saved calls.
  unfold processLogout, callDoLogout, bindM, call, setSession, getSession,
    toNotBeNullOrUndefined, ret, throw.
  rewrite Hmeta, Hcfg, Hnew, Hty, Hval, Hhost, Hport.
  cbn [mSession trace]. unfold ISession.with_token at 1 2.
  fold requested. rewrite Hout. cbn [mSession trace].
  rewrite Hname, Hsame. cbn [strict_equal]. rewrite String.eqb_refl.
  fold cleared. fold saved.
  destruct saved as [[]|e]; cbn [mSession trace]; unfold calls;
    rewrite <- !app_assoc; reflexivity.
Qed.

(** X27. When the logout request fails, [processLogout] passes the error on:
    there is no save and no report, and the session is not reset, it stays
    as the request left it. *)
Theorem processLogout_request_fails
  (h : Handler) (sv : Services) (args : ICommandArguments.t) (s : state)
  (loadedProfile : IProfileLoaded.t) (sessCfg session session' : ISession.t)
  (tokenType tokenValue host : string) (port : Z) (e : error) :
  getMeta sv (mProfileType h) false = Ok loadedProfile ->
  createSessCfgFromArgs h args = Ok sessCfg ->
  newSession sv sessCfg = Ok session ->
  ICommandArguments.tokenType args = Some tokenType ->
  ICommandArguments.tokenValue args = Some tokenValue ->
  ICommandArguments.host args = Some host ->
  ICommandArguments.port args = Some port ->
  doLogout h
    (ISession.with_token session (Some AUTH_TYPE_TOKEN) (Some tokenType)
       (Some tokenValue))
  = (Throw e, session') ->
  processLogout h sv args s =
  (Throw e,
   {| mSession := Some session';
      trace := trace s ++
               [ GetMeta (mProfileType h) false;
                 CreateSessCfgFromArgs args;
                 NewSession sessCfg;
                 DoLogout
                   (ISession.with_token session (Some AUTH_TYPE_TOKEN)
                      (Some tokenType) (Some tokenValue)) ] |}).
Proof.
  intros Hmeta Hcfg Hnew Hty Hval Hhost Hport Hout.
  unfold processLogout, callDoLogout, bindM, call, setSession, getSession,
    toNotBeNullOrUndefined, ret, throw.
  rewrite Hmeta, Hcfg, Hnew, Hty, Hval, Hhost, Hport.
  cbn [mSession trace]. rewrite Hout. cbn [mSession trace].
  rewrite <- !app_assoc. reflexivity.
Qed.

(** X28. When no profile is loaded by name, [processLogin] stores the token
    nowhere, whatever [showToken] is: it reports the success, and the token
    is written to the output only with [showToken]. *)
Theorem processLogin_no_profile
  (h : Handler) (sv : Services) (args : ICommandArguments.t) (s : state)
  (loadedProfile : IProfileLoaded.t)
  (sessCfg sessCfgWithCreds session session' : ISession.t)
  (tokenValue : string) :
  getMeta sv (mProfileType h) false = Ok loadedProfile ->
  IProfileLoaded.name loadedProfile = None ->
  createSessCfgFromArgs h args = Ok sessCfg ->
  addCredsOrPrompt sv sessCfg args true (mDefaultTokenType h)
  = Ok sessCfgWithCreds ->
  newSession sv sessCfgWithCreds = Ok session ->
  doLogin h session = (Ok tokenValue, session') ->
  processLogin h sv args s =
  (Ok tt,
   {| mSession := Some session';
      trace := trace s ++
               [ GetMeta (mProfileType h) false;
                 CreateSessCfgFromArgs args;
                 AddCredsOrPrompt sessCfg true (mDefaultTokenType h);
                 NewSession sessCfgWithCreds;
                 DoLogin session;
                 ConsoleLog "Login successful." ] ++
               if ICommandArguments.showToken args
               then [ConsoleLog
                       (tokenMessage (ISession.tokenType session') tokenValue)]
               else [] |}).
Proof.
  intros Hmeta Hname Hcfg Hcreds Hnew Hlogin.
  unfold processLogin, callDoLogin, bindM, call, setSession, getSession, ret.
  rewrite Hmeta, Hcfg, Hcreds, Hnew. cbn [mSession trace].
  rewrite Hlogin. cbn [mSession trace]. rewrite Hname.
  destruct (ICommandArguments.showToken args); cbn [mSession trace];
    rewrite <- !app_assoc; reflexivity.
Qed.

(** X29. When the login request fails, [processLogin] passes the error on:
    the profile is not updated and nothing is written to the output. *)
Theorem processLogin_request_fails
  (h : Handler) (sv : Services) (args : ICommandArguments.t) (s : state)
  (loadedProfile : IProfileLoaded.t)
  (sessCfg sessCfgWithCreds session session' : ISession.t) (e : error) :
  getMeta sv (mProfileType h) false = Ok loadedProfile ->
  createSessCfgFromArgs h args = Ok sessCfg ->
  addCredsOrPrompt sv sessCfg args true (mDefaultTokenType h)
  = Ok sessCfgWithCreds ->
  newSession sv sessCfgWithCreds = Ok session ->
  doLogin h session = (Throw e, session') ->
  processLogin h sv args s =
  (Throw e,
   {| mSession := Some session';
      trace := trace s ++
               [ GetMeta (mProfileType h) false;
                 CreateSessCfgFromArgs args;
                 AddCredsOrPrompt sessCfg true (mDefaultTokenType h);
                 NewSession sessCfgWithCreds;
                 DoLogin session ] |}).
Proof.
  intros Hmeta Hcfg Hcreds Hnew Hlogin.
  unfold processLogin, callDoLogin, bindM, call, setSession, getSession, ret.
  rewrite Hmeta, Hcfg, Hcreds, Hnew. cbn [mSession trace].
  rewrite Hlogin. cbn [mSession trace].
  rewrite <- !app_assoc. reflexivity.
Qed.

(** X30. Whatever the collaborators answer, a login only adds calls to what
    the handler has done, and none of them is a logout request or a save;
    a logout only adds calls, and none of them is a credential prompt, a
    login request or an update. *)
Theorem login_and_logout_keep_apart
  (h : Handler) (sv : Services) (args : ICommandArguments.t) (s : state) :
  (exists calls,
     trace (snd (processLogin h sv args s)) = trace s ++ calls
     /\ forallb (fun e => negb (logout_call e)) calls = true)
  /\ (exists calls,
        trace (snd (processLogout h sv args s)) = trace s ++ calls
        /\ forallb (fun e => negb (login_call e)) calls = true).
Proof.
  split.
  - unfold processLogin, callDoLogin, bindM, call, setSession, getSession,
      ret.
    destruct (getMeta sv (mProfileType h) false) as [loaded|];
      cbn [mSession trace snd];
      [|eexists; split; [reflexivity|reflexivity]].
    destruct (createSessCfgFromArgs h args) as [sessCfg|];
      cbn [mSession trace snd];
      [|eexists; split; [rewrite <- !app_assoc; reflexivity|reflexivity]].
    destruct (addCredsOrPrompt sv sessCfg args true (mDefaultTokenType h))
      as [withCreds|]; cbn [mSession trace snd];
      [|eexists; split; [rewrite <- !app_assoc; reflexivity|reflexivity]].
    destruct (newSession sv withCreds) as [session|];
      cbn [mSession trace snd];
      [|eexists; split; [rewrite <- !app_assoc; reflexivity|reflexivity]].
    destruct (doLogin h session) as [[tokenValue|] session'];
      cbn [mSession trace snd];
      [|eexists; split; [rewrite <- !app_assoc; reflexivity|reflexivity]].
    destruct (IProfileLoaded.name loaded) as [name|];
      destruct (ICommandArguments.showToken args);
      cbn [negb mSession trace snd];
      try destruct (update sv _ _ _ _ _) as [[]|];
      cbn [mSession trace snd];
      eexists; (split; [rewrite <- !app_assoc; reflexivity|reflexivity]).
  - unfold processLogout, callDoLogout, bindM, call, setSession, getSession,
      toNotBeNullOrUndefined, ret, throw.
    destruct (getMeta sv (mProfileType h) false) as [loaded|];
      cbn [mSession trace snd];
      [|eexists; split; [reflexivity|reflexivity]].
    destruct (createSessCfgFromArgs h args) as [sessCfg|];
      cbn [mSession trace snd];
      [|eexists; split; [rewrite <- !app_assoc; reflexivity|reflexivity]].
    destruct (newSession sv sessCfg) as [session|];
      cbn [mSession trace snd];
      [|eexists; split; [rewrite <- !app_assoc; reflexivity|reflexivity]].
    destruct (ICommandArguments.tokenType args);
      cbn [mSession trace snd];
      [|eexists; split; [rewrite <- !app_assoc; reflexivity|reflexivity]].
    destruct (ICommandArguments.tokenValue args);
      cbn [mSession trace snd];
      [|eexists; split; [rewrite <- !app_assoc; reflexivity|reflexivity]].
    destruct (ICommandArguments.host args);
      cbn [mSession trace snd];
      [|eexists; split; [rewrite <- !app_assoc; reflexivity|reflexivity]].
    destruct (ICommandArguments.port args);
      cbn [mSession trace snd];
      [|eexists; split; [rewrite <- !app_assoc; reflexivity|reflexivity]].
    destruct (doLogout h _) as [[[]|] session'];
      cbn [mSession trace snd];
      [|eexists; split; [rewrite <- !app_assoc; reflexivity|reflexivity]].
    destruct (IProfileLoaded.name loaded) as [name|];
      [destruct (strict_equal _ _);
       [destruct (save sv _ _ _ _ _) as [[]|]|]|];
      cbn [mSession trace snd];
      eexists; (split; [rewrite <- !app_assoc; reflexivity|reflexivity]).
Qed.

End AuthMore.

(** ** The properties at concrete inputs *)

Module Witnesses.

Import Js.

(** *** The hoister *)

(** C2 as stated fails: two non-base profiles have [options], the two values
    are equal by value, and the name is not hoisted, because the two empty
    objects are not the same object. *)
Lemma hoist_not_by_value_equality :
  1 < List.length (Hoist.holders "options" "base" Examples.twoObjects)
  /\ (forall v w,
        In v (Hoist.observed "options" "base" Examples.twoObjects) ->
        In w (Hoist.observed "options" "base" Examples.twoObjects) ->
        value_equal v w = true)
  /\ Hoist.hoistTemplateProperties Examples.twoObjects "base"
     = Ok ([], Examples.twoObjects).
Proof.
  split; [simpl; lia|]. split; [|reflexivity].
  simpl. intros v w [<-|[<-|[]]] [<-|[<-|[]]]; reflexivity.
Qed.

(** The profiles of that example are the ones [build] makes. *)
Example build_twoObjects :
  exists config,
    Build.build Examples.twoObjectsConfig Examples.populate 0
    = Some (Ok config)
    /\ IConfig.profiles config = Examples.twoObjects.
Proof. eexists. split; reflexivity. Qed.

Lemma hoistTemplateProperties_spec_witness :
  exists hoisted profiles',
    Hoist.hoistTemplateProperties Examples.sameHost "base"
    = Ok (hoisted, profiles')
    /\ In "host"%string hoisted
    /\ ~ In "port"%string hoisted.
Proof.
  destruct (HoistSpec.hoistTemplateProperties_spec Examples.sameHost "base"
              (Examples.profile "base" [("rejectUnauthorized", VBool true)] [])
              eq_refl eq_refl eq_refl)
    as (hoisted & profiles' & Hrun & Hiff & _).
  exists hoisted, profiles'. split; [exact Hrun|]. split.
  - apply Hiff. split; [simpl; lia|].
    simpl. intros v w [<-|[<-|[]]] [<-|[<-|[]]]; reflexivity.
  - intros Hin. apply Hiff in Hin as [_ Hsame].
    specialize (Hsame (VNum 443) (VNum 22)). simpl in Hsame.
    assert (false = true) by (apply Hsame; tauto). discriminate.
Defined.


(** *** The renamer *)

Lemma convertPropNames_renames_witness :
  exists renamedResult p',
    Rename.convertPropNames Examples.bothNames = Ok renamedResult
    /\ Obj.get "zosmf_lpar1"
         (IConfig.profiles (IConfigConvertResult.config renamedResult))
       = Some p'
    /\ Obj.get "host" (IConfigProfile.properties p')
       = Some (VStr "old.example.com")
    /\ Obj.get "hostname" (IConfigProfile.properties p') = None
    /\ Obj.get "port" (IConfigProfile.properties p') = Some (VNum 443)
    /\ IConfigProfile.secure_names p' = ["password"%string; "user"%string]
    /\ Rename.convertPropNames renamedResult = Ok renamedResult.
Proof.
  destruct (RenameSpec.convertPropNames_renames Examples.bothNames eq_refl)
    as (renamedResult & Hrun & Hprofiles & Hagain).
  destruct (Hprofiles "zosmf_lpar1"%string
              (Examples.profile "zosmf"
                 [("hostname", VStr "old.example.com");
                  ("host", VStr "new.example.com");
                  ("port", VNum 443)]
                 ["pass"; "username"])
              eq_refl)
    as (p' & Hget & Hnew & Hold & Hrest & Hsecure).
  exists renamedResult, p'. split; [exact Hrun|]. split; [exact Hget|].
  split; [|split; [|split; [|split]]].
  - apply (Hnew "hostname"%string "host"%string (VStr "old.example.com"));
      [simpl; tauto | reflexivity].
  - apply (Hold "hostname"%string). simpl. tauto.
  - rewrite (Hrest "port"%string); [reflexivity|].
    simpl. intuition discriminate.
  - rewrite Hsecure. reflexivity.
  - exact Hagain.
Defined.

Lemma convertPropNames_overwrites_witness :
  exists renamedResult p',
    Rename.convertPropNames Examples.bothNames = Ok renamedResult
    /\ Obj.get "zosmf_lpar1"
         (IConfig.profiles (IConfigConvertResult.config renamedResult))
       = Some p'
    /\ Obj.get "hostname" (IConfigProfile.properties p') = None
    /\ Obj.get "host" (IConfigProfile.properties p')
       = Some (VStr "old.example.com").
Proof.
  apply (RenameSpec.convertPropNames_overwrites Examples.bothNames
           "zosmf_lpar1"
           (Examples.profile "zosmf"
              [("hostname", VStr "old.example.com");
               ("host", VStr "new.example.com");
               ("port", VNum 443)]
              ["pass"; "username"])
           "hostname" "host"
           (VStr "old.example.com") (VStr "new.example.com")).
  - reflexivity.
  - reflexivity.
  - simpl. tauto.
  - reflexivity.
  - reflexivity.
Defined.

(** *** The converter and the builder *)


(** So does the base profile of a document [build] returns: the host is
    hoisted into a base profile whose schema declares the host secure. *)
Example build_base_name_in_both :
  exists config p,
    Build.build
      {| IImperativeConfig.profiles :=
           [ Examples.profileType "base" [("host", Examples.tokenProperty)];
             Examples.profileType "zosmf" [("host", Examples.hostProperty)];
             Examples.profileType "tso" [("host", Examples.hostProperty)] ];
         IImperativeConfig.baseProfile :=
           Some (Examples.profileType "base"
                   [("host", Examples.tokenProperty)]) |}
      Examples.populate 0 = Some (Ok config)
    /\ Obj.get "base" (IConfig.profiles config) = Some p
    /\ In "host"%string (Obj.keys (IConfigProfile.properties p))
    /\ In "host"%string (IConfigProfile.secure_names p).
Proof.
  eexists _, _. split; [vm_compute; reflexivity|].
  split; [reflexivity|]. simpl. tauto.
Qed.


(** C7 as stated fails: the file of profile [b] is malformed, the file of
    profile [a] of the same type is read and parsed, and [a] is not among
    the profiles converted: one of its properties has no value, rendering
    it throws, and [a] is recorded as failed as well. *)
Lemma convert_read_profile_not_converted :
  exists result,
    Convert.convert MoreExamples.nullPort "/profiles" = Ok result
    /\ readProfileFile MoreExamples.nullPort "/profiles/zosmf/b.yaml" "zosmf"
       = Throw (ExternalError "malformed YAML")
    /\ readProfileFile MoreExamples.nullPort "/profiles/zosmf/a.yaml" "zosmf"
       = Ok [("host", VStr "example.com"); ("port", VNull)]
    /\ Obj.get "zosmf" (IConfigConvertResult.profilesConverted result) = None
    /\ IConfigConvertResult.profilesFailed result =
       [ {| IConvertFailure.name := Some "a"%string;
            IConvertFailure.type := "zosmf";
            IConvertFailure.error := TypeError |};
         {| IConvertFailure.name := Some "b"%string;
            IConvertFailure.type := "zosmf";
            IConvertFailure.error := ExternalError "malformed YAML" |} ].
Proof.
  eexists. split; [vm_compute; reflexivity|]. repeat split.
Qed.

Lemma convert_records_and_continues_witness :
  exists result,
    Convert.convert Examples.legacy "/profiles" = Ok result
    /\ In {| IConvertFailure.name := Some "b";
             IConvertFailure.type := "zosmf";
             IConvertFailure.error := ExternalError "malformed YAML" |}
          (IConfigConvertResult.profilesFailed result)
    /\ (exists names,
          Obj.get "zosmf" (IConfigConvertResult.profilesConverted result)
          = Some names
          /\ In "a"%string names)
    /\ Obj.get "zosmf" (IConfig.defaults (IConfigConvertResult.config result))
       = Some "zosmf_a"%string.
Proof.
  destruct (ConvertSpec.convert_records_and_continues Examples.legacy
              "/profiles" ["zosmf"%string]
              (conj eq_refl
                 (fun profileType _ => ex_intro _ ["a"; "b"]%string eq_refl)))
    as (result & Hrun & Htypes).
  exists result. split; [exact Hrun|].
  destruct (Htypes "zosmf"%string (or_introl eq_refl)) as [Hnames Hmeta].
  split; [|split].
  - destruct (Hnames "b"%string (or_intror (or_introl eq_refl)))
      as (Hfile & _ & _).
    apply Hfile. reflexivity.
  - destruct (Hnames "a"%string (or_introl eq_refl)) as (_ & _ & Hok).
    eapply Hok; [reflexivity|]. vm_compute. reflexivity.
  - destruct Hmeta as [_ Hdefault]; [discriminate|].
    apply (Hdefault "a"%string); [discriminate | reflexivity].
Defined.

(** *** The auth handler *)

(** C4 as stated fails: the logout has no token type and fails with the
    validation error, yet by then the loaded profile has been looked up and
    a session has been built and stored in [mSession], which was empty. *)
Lemma logout_session_built_before_validation :
  let (outcome, s') :=
    Auth.processLogout Examples.fruitHandler Examples.fruitServices
      Examples.logoutNoTokenType Examples.idle in
  outcome =
    Throw (ImperativeError
             "Token type not supplied, but is required for logout.")
  /\ Auth.mSession Examples.idle = None
  /\ (exists session,
        Auth.mSession s' = Some session
        /\ In (Auth.NewSession session) (Auth.trace s'))
  /\ In (Auth.GetMeta "fruit" false) (Auth.trace s').
Proof.
  simpl. split; [reflexivity|]. split; [reflexivity|]. split.
  - eexists. split; [reflexivity|]. simpl. tauto.
  - tauto.
Qed.

Lemma processLogout_validation_witness :
  exists msg,
    Auth.processLogout Examples.fruitHandler Examples.fruitServices
      Examples.logoutNoTokenType Examples.idle
    = (Throw (ImperativeError msg),
       {| Auth.mSession := Some Examples.fruitSession;
          Auth.trace :=
            [ Auth.GetMeta "fruit" false;
              Auth.CreateSessCfgFromArgs Examples.logoutNoTokenType;
              Auth.NewSession Examples.fruitSession ] |}).
Proof.
  destruct (AuthSpec.processLogout_validation Examples.fruitHandler
              Examples.fruitServices Examples.logoutNoTokenType Examples.idle
              _ Examples.fruitSession Examples.fruitSession
              eq_refl eq_refl eq_refl (or_introl eq_refl))
    as (msg & _ & Hrun).
  exists msg. exact Hrun.
Defined.

Lemma processLogout_token_mismatch_witness :
  Auth.processLogout Examples.fruitHandler Examples.fruitServices
    Examples.logoutOtherToken Examples.idle
  = (Ok tt,
     {| Auth.mSession :=
          Some {| Auth.ISession.hostname := Some "example.com"%string;
                  Auth.ISession.port := Some 443%Z;
                  Auth.ISession.user := None;
                  Auth.ISession.password := None;
                  Auth.ISession.type := Some Auth.AUTH_TYPE_BASIC;
                  Auth.ISession.tokenType := None;
                  Auth.ISession.tokenValue := None |};
        Auth.trace :=
          [ Auth.GetMeta "fruit" false;
            Auth.CreateSessCfgFromArgs Examples.logoutOtherToken;
            Auth.NewSession Examples.fruitSession;
            Auth.DoLogout
              {| Auth.ISession.hostname := Some "example.com"%string;
                 Auth.ISession.port := Some 443%Z;
                 Auth.ISession.user := None;
                 Auth.ISession.password := None;
                 Auth.ISession.type := Some Auth.AUTH_TYPE_TOKEN;
                 Auth.ISession.tokenType := Some "jwtToken"%string;
                 Auth.ISession.tokenValue := Some "anotherToken"%string |};
            Auth.ConsoleLog "Logout successful." ] |}).
Proof.
  exact (AuthSpec.processLogout_token_mismatch Examples.fruitHandler
           Examples.fruitServices Examples.logoutOtherToken Examples.idle
           _ Examples.fruitSession Examples.fruitSession
           {| Auth.ISession.hostname := Some "example.com"%string;
              Auth.ISession.port := Some 443%Z;
              Auth.ISession.user := None;
              Auth.ISession.password := None;
              Auth.ISession.type := Some Auth.AUTH_TYPE_TOKEN;
              Auth.ISession.tokenType := Some "jwtToken"%string;
              Auth.ISession.tokenValue := Some "anotherToken"%string |}
           "jwtToken" "anotherToken" "example.com" 443%Z
           eq_refl eq_refl eq_refl eq_refl eq_refl eq_refl eq_refl eq_refl
           (or_intror eq_refl)).
Defined.

Lemma processLogin_update_or_show_witness :
  Auth.processLogin Examples.fruitHandler Examples.fruitServices
    (Examples.loginArgs false) Examples.idle
  = (Ok tt,
     {| Auth.mSession := Some MoreExamples.fruitSessionWithCreds;
        Auth.trace :=
          [ Auth.GetMeta "fruit" false;
            Auth.CreateSessCfgFromArgs (Examples.loginArgs false);
            Auth.AddCredsOrPrompt Examples.fruitSession true "jwtToken";
            Auth.NewSession MoreExamples.fruitSessionWithCreds;
            Auth.DoLogin MoreExamples.fruitSessionWithCreds;
            Auth.Update "fruit" "my_fruit" (Some "jwtToken"%string)
              "fakeToken" true;
            Auth.ConsoleLog "Login successful." ] |})
  /\ Auth.processLogin Examples.fruitHandler Examples.fruitServices
       (Examples.loginArgs true) Examples.idle
     = (Ok tt,
        {| Auth.mSession := Some MoreExamples.fruitSessionWithCreds;
           Auth.trace :=
             [ Auth.GetMeta "fruit" false;
               Auth.CreateSessCfgFromArgs (Examples.loginArgs true);
               Auth.AddCredsOrPrompt Examples.fruitSession true "jwtToken";
               Auth.NewSession MoreExamples.fruitSessionWithCreds;
               Auth.DoLogin MoreExamples.fruitSessionWithCreds;
               Auth.ConsoleLog "Login successful.";
               Auth.ConsoleLog
                 (String (ascii_of_nat 10)
                    "Received a token of type = jwtToken." ++
                  String (ascii_of_nat 10)
                    "The following token was stored in your profile:" ++
                  String (ascii_of_nat 10) "fakeToken") ] |}).
Proof.
  split.
  - exact (AuthSpec.processLogin_update_or_show Examples.fruitHandler
             Examples.fruitServices (Examples.loginArgs false)
             Examples.idle _ "my_fruit" Examples.fruitSession
             MoreExamples.fruitSessionWithCreds
             MoreExamples.fruitSessionWithCreds
             MoreExamples.fruitSessionWithCreds "fakeToken"
             eq_refl eq_refl eq_refl eq_refl eq_refl eq_refl).
  - exact (AuthSpec.processLogin_update_or_show Examples.fruitHandler
             Examples.fruitServices (Examples.loginArgs true)
             Examples.idle _ "my_fruit" Examples.fruitSession
             MoreExamples.fruitSessionWithCreds
             MoreExamples.fruitSessionWithCreds
             MoreExamples.fruitSessionWithCreds "fakeToken"
             eq_refl eq_refl eq_refl eq_refl eq_refl eq_refl).
Defined.

End Witnesses.

(** ** The further properties at concrete inputs *)

Module MoreWitnesses.

Import Js.

(** *** The hoister *)

Lemma hoistTemplateProperties_without_base_witness :
  Hoist.hoistTemplateProperties MoreExamples.noBase "base" = Throw TypeError.
Proof.
  apply (proj2 (HoistMore.hoistTemplateProperties_without_base
                  MoreExamples.noBase "base" eq_refl eq_refl eq_refl)).
  exists "host"%string. split; [simpl; lia|].
  simpl. intros v w [<-|[<-|[]]] [<-|[<-|[]]]; reflexivity.
Defined.

Lemma hoistTemplateProperties_single_child_witness :
  Hoist.hoistTemplateProperties MoreExamples.oneChild "base"
  = Ok ([], MoreExamples.oneChild).
Proof.
  apply (HoistMore.hoistTemplateProperties_single_child MoreExamples.oneChild
           "base" eq_refl).
  simpl. lia.
Defined.

Lemma hoisted_names_distinct_witness : NoDup ["host"%string; "port"%string].
Proof.
  exact (HoistMore.hoisted_names_distinct MoreExamples.sameHostAndPort
           MoreExamples.sameHostAndPortHoisted "base"
           ["host"%string; "port"%string] eq_refl).
Defined.

Lemma hoisting_invents_nothing_witness :
  Obj.keys MoreExamples.sameHostHoisted = Obj.keys Examples.sameHost.
Proof.
  exact (proj1 (HoistMore.hoisting_invents_nothing Examples.sameHost
                  MoreExamples.sameHostHoisted "base" ["host"%string]
                  eq_refl eq_refl)).
Defined.

Lemma hoisted_properties_come_first_witness :
  exists base',
    Obj.get "base" MoreExamples.sameHostHoisted = Some base'
    /\ IConfigProfile.properties base' =
       [("host", VStr "example.com"); ("rejectUnauthorized", VBool true)].
Proof.
  destruct (HoistMore.hoisted_properties_come_first Examples.sameHost
              MoreExamples.sameHostHoisted "base" MoreExamples.sameHostBase
              ["host"%string] eq_refl eq_refl eq_refl eq_refl eq_refl)
    as (base' & Hget & Hprops).
  - intros k [<-|[]]. reflexivity.
  - exists base'. split; [exact Hget | exact Hprops].
Defined.

(** *** The renamer *)

Lemma convertPropNames_missing_secure_witness :
  Rename.convertPropNames
    (MoreExamples.resultOf [("zosmf_lpar1", MoreExamples.noSecureList)])
  = Throw TypeError.
Proof.
  apply (RenameMore.convertPropNames_missing_secure _
           MoreExamples.noSecureList).
  - simpl. now left.
  - reflexivity.
Defined.

Lemma convertPropNames_leaves_the_rest_witness :
  IConfigConvertResult.profilesConverted MoreExamples.renamedBothNames
  = IConfigConvertResult.profilesConverted Examples.bothNames
  /\ Obj.keys (IConfig.profiles
                 (IConfigConvertResult.config MoreExamples.renamedBothNames))
     = ["zosmf_lpar1"%string].
Proof.
  destruct (RenameMore.convertPropNames_leaves_the_rest Examples.bothNames
              MoreExamples.renamedBothNames eq_refl)
    as (Hconverted & _ & _ & _ & _ & _ & _ & Hkeys & _).
  split; [exact Hconverted | exact Hkeys].
Defined.

Lemma convertPropNames_nothing_to_rename_witness :
  Rename.convertPropNames
    (MoreExamples.resultOf [("zosmf_lpar1", MoreExamples.newNames)])
  = Ok (MoreExamples.resultOf [("zosmf_lpar1", MoreExamples.newNames)]).
Proof.
  exact (RenameMore.convertPropNames_nothing_to_rename
           (MoreExamples.resultOf [("zosmf_lpar1", MoreExamples.newNames)])
           eq_refl eq_refl).
Defined.

Lemma convertPropNames_order_witness :
  exists renamedResult p',
    Rename.convertPropNames
      (MoreExamples.resultOf [("zosmf_lpar1", MoreExamples.oldNames)])
    = Ok renamedResult
    /\ Obj.get "zosmf_lpar1"
         (IConfig.profiles (IConfigConvertResult.config renamedResult))
       = Some p'
    /\ IConfigProfile.properties p' =
       [("port", VNum 443); ("host", VStr "example.com");
        ("user", VStr "ibmuser")].
Proof.
  exact (RenameMore.convertPropNames_order
           (MoreExamples.resultOf [("zosmf_lpar1", MoreExamples.oldNames)])
           "zosmf_lpar1" MoreExamples.oldNames eq_refl eq_refl eq_refl).
Defined.

(** *** The converter *)

Lemma plain_property_kept_witness :
  Obj.get "host" (IConfigProfile.properties MoreExamples.legacyA)
  = Some (VStr "example.com")
  /\ ~ In "host"%string (IConfigProfile.secure_names MoreExamples.legacyA).
Proof.
  apply (ConvertMore.plain_property_kept Examples.legacy "/profiles/zosmf"
           "zosmf" "a" MoreExamples.legacyA MoreExamples.fileOfA
           "host" (VStr "example.com") "example.com");
    try reflexivity.
  simpl. tauto.
Defined.

Lemma missing_secret_dropped_witness :
  Obj.get "pass" (IConfigProfile.properties MoreExamples.emptyVaultA) = None
  /\ ~ In "pass"%string
         (IConfigProfile.secure_names MoreExamples.emptyVaultA).
Proof.
  apply (ConvertMore.missing_secret_dropped MoreExamples.emptyVault
           "/profiles/zosmf" "zosmf" "a" MoreExamples.emptyVaultA
           MoreExamples.fileOfA "pass" (VStr "managed by Zowe CLI")
           "managed by Zowe CLI");
    try reflexivity.
  simpl. tauto.
Defined.

Lemma secret_replaces_placeholder_witness :
  Obj.get "pass" (IConfigProfile.properties MoreExamples.legacyA)
  = Some (VStr "pw").
Proof.
  apply (ConvertMore.secret_replaces_placeholder Examples.legacy
           "/profiles/zosmf" "zosmf" "a" MoreExamples.legacyA
           MoreExamples.fileOfA "pass" (VStr "managed by Zowe CLI")
           (VStr "pw") "managed by Zowe CLI" Examples.secretText);
    try reflexivity.
  simpl. tauto.
Defined.

Lemma empty_property_fails_the_profile_witness :
  Convert.succeeds MoreExamples.nullPort "/profiles" "zosmf" "a" = false
  /\ exists result e,
       Convert.convert MoreExamples.nullPort "/profiles" = Ok result
       /\ In {| IConvertFailure.name := Some "a"%string;
                IConvertFailure.type := "zosmf";
                IConvertFailure.error := e |}
             (IConfigConvertResult.profilesFailed result).
Proof.
  apply (ConvertMore.empty_property_fails_the_profile MoreExamples.nullPort
           "/profiles" ["zosmf"%string] "zosmf" "a"
           [("host", VStr "example.com"); ("port", VNull)] "port" VNull).
  - split; [reflexivity|]. intros profileType _. eexists. reflexivity.
  - simpl. tauto.
  - simpl. tauto.
  - reflexivity.
  - simpl. tauto.
  - now left.
Defined.

Lemma unreadable_secret_fails_the_profile_witness :
  Convert.succeeds MoreExamples.lockedVault "/profiles" "zosmf" "a" = false
  /\ exists result e,
       Convert.convert MoreExamples.lockedVault "/profiles" = Ok result
       /\ In {| IConvertFailure.name := Some "a"%string;
                IConvertFailure.type := "zosmf";
                IConvertFailure.error := e |}
             (IConfigConvertResult.profilesFailed result).
Proof.
  apply (ConvertMore.unreadable_secret_fails_the_profile
           MoreExamples.lockedVault "/profiles" ["zosmf"%string] "zosmf" "a"
           MoreExamples.fileOfA "pass" (VStr "managed by Zowe CLI")
           "managed by Zowe CLI").
  - split; [reflexivity|]. intros profileType _. eexists. reflexivity.
  - simpl. tauto.
  - simpl. tauto.
  - reflexivity.
  - simpl. tauto.
  - reflexivity.
  - reflexivity.
  - left. eexists. reflexivity.
Defined.

Lemma profilesConverted_exactly_witness :
  exists result,
    Convert.convert Examples.legacy "/profiles" = Ok result
    /\ Obj.get "zosmf" (IConfigConvertResult.profilesConverted result)
       = Some ["a"%string]
    /\ Obj.get "tso" (IConfigConvertResult.profilesConverted result) = None.
Proof.
  destruct (ConvertMore.profilesConverted_exactly Examples.legacy "/profiles"
              ["zosmf"%string])
    as (result & Hrun & Hnames).
  - split; [reflexivity|]. intros profileType _. eexists. reflexivity.
  - constructor; [intros [] | constructor].
  - exists result. split; [exact Hrun|].
    split; rewrite Hnames; reflexivity.
Defined.

Lemma reported_failures_happened_witness :
  exists result, Convert.convert Examples.legacy "/profiles" = Ok result.
Proof.
  apply (proj1 (ConvertMore.reported_failures_happened Examples.legacy
                  "/profiles") ["zosmf"%string]).
  split; [reflexivity|]. intros profileType _. eexists. reflexivity.
Defined.

Lemma defaults_come_from_meta_files_witness :
  exists result,
    Convert.convert Examples.legacy "/profiles" = Ok result
    /\ Convert.sound_defaults Examples.legacy "/profiles" ["zosmf"%string]
         result.
Proof.
  apply (ConvertMore.defaults_come_from_meta_files Examples.legacy
           "/profiles" ["zosmf"%string]).
  split; [reflexivity|]. intros profileType _. eexists. reflexivity.
Defined.

Lemma converted_profiles_were_read_witness :
  exists profileType profileName read,
    In profileType ["zosmf"%string]
    /\ In profileName
         (Convert.namesOf Examples.legacy "/profiles" profileType)
    /\ Convert.readProfile Examples.legacy
         (Convert.typeDir Examples.legacy "/profiles" profileType)
         profileType profileName = Ok read
    /\ "zosmf_a"%string
       = getProfileMapKey Examples.legacy profileType profileName
    /\ Examples.convertedA = Rename.renamed read.
Proof.
  destruct (ConvertMore.converted_profiles_were_read Examples.legacy
              "/profiles" ["zosmf"%string])
    as (result & Hrun & Hread).
  - split; [reflexivity|]. intros profileType _. eexists. reflexivity.
  - apply (Hread "zosmf_a"%string Examples.convertedA).
    vm_compute in Hrun. injection Hrun as <-. reflexivity.
Defined.

Lemma convert_without_profiles_witness :
  Convert.convert MoreExamples.noProfiles "/profiles" =
  Ok {| IConfigConvertResult.config := IConfig.with_autoStore Config_empty true;
        IConfigConvertResult.profilesConverted := [];
        IConfigConvertResult.profilesFailed := [] |}.
Proof.
  apply (ConvertMore.convert_without_profiles MoreExamples.noProfiles
           "/profiles" ["zosmf"%string]).
  - reflexivity.
  - intros profileType _. reflexivity.
Defined.

(** *** The builder *)



Lemma build_without_options_witness :
  Build.build Examples.rootBaseConfig
    {| IConfigBuilderOpts.populateProperties := false;
       IConfigBuilderOpts.getValueBack := None |} 0 =
  Some (Ok {| IConfig.defaults := [];
              IConfig.profiles :=
                [ ("zosmf", Build.emptyProfile "zosmf");
                  ("root", Build.emptyProfile "root") ];
              IConfig.plugins := [];
              IConfig.secure := [];
              IConfig.properties := [];
              IConfig.autoStore := Some true |}).
Proof.
  exact (BuildMore.build_without_options Examples.rootBaseConfig 0 eq_refl).
Defined.

Lemma nullish_values_back_change_nothing_witness :
  Build.build Examples.rootBaseConfig
    {| IConfigBuilderOpts.populateProperties := true;
       IConfigBuilderOpts.getValueBack := Some MoreExamples.answerNull |} 0
  = Build.build Examples.rootBaseConfig
      {| IConfigBuilderOpts.populateProperties := true;
         IConfigBuilderOpts.getValueBack := None |} 0.
Proof.
  apply (BuildMore.nullish_values_back_change_nothing Examples.rootBaseConfig
           true MoreExamples.answerNull 0).
  intros k v. exists VNull. split; reflexivity.
Defined.

Lemma template_values_witness :
  exists config p n,
    Build.build MoreExamples.noBaseConfig Examples.populate 0
    = Some (Ok config)
    /\ Obj.get "zosmf" (IConfig.profiles config) = Some p
    /\ Obj.get "port" (IConfigProfile.properties p)
       = Some (Build.templateValue MoreExamples.portProperty n).
Proof.
  apply (BuildMore.template_values MoreExamples.noBaseConfig
           Examples.populate 0 MoreExamples.zosmfType "port"
           MoreExamples.portProperty); try reflexivity.
  - simpl. repeat constructor. intros [].
  - intros declared [<-|[]]. split; [reflexivity|].
    simpl. intuition discriminate.
  - simpl. tauto.
  - simpl. tauto.
Defined.

(** *** The auth handler *)


Lemma processLogout_token_match_witness :
  Auth.processLogout Examples.fruitHandler Examples.fruitServices
    MoreExamples.logoutSameToken Examples.idle
  = (Ok tt,
     {| Auth.mSession :=
          Some {| Auth.ISession.hostname := Some "example.com"%string;
                  Auth.ISession.port := Some 443%Z;
                  Auth.ISession.user := None;
                  Auth.ISession.password := None;
                  Auth.ISession.type := Some Auth.AUTH_TYPE_BASIC;
                  Auth.ISession.tokenType := None;
                  Auth.ISession.tokenValue := None |};
        Auth.trace :=
          [ Auth.GetMeta "fruit" false;
            Auth.CreateSessCfgFromArgs MoreExamples.logoutSameToken;
            Auth.NewSession Examples.fruitSession;
            Auth.DoLogout
              {| Auth.ISession.hostname := Some "example.com"%string;
                 Auth.ISession.port := Some 443%Z;
                 Auth.ISession.user := None;
                 Auth.ISession.password := None;
                 Auth.ISession.type := Some Auth.AUTH_TYPE_TOKEN;
                 Auth.ISession.tokenType := Some "jwtToken"%string;
                 Auth.ISession.tokenValue := Some "storedToken"%string |};
            Auth.Save "fruit" "my_fruit" "fruit" true
              {| Auth.IProfile.tokenType := None;
                 Auth.IProfile.tokenValue := None;
                 Auth.IProfile.others := [("host", VStr "example.com")] |};
            Auth.ConsoleLog "Logout successful." ] |}).
Proof.
  exact (AuthMore.processLogout_token_match Examples.fruitHandler
           Examples.fruitServices MoreExamples.logoutSameToken
           Examples.idle _ "my_fruit" Examples.fruitSession
           Examples.fruitSession MoreExamples.fruitLogoutSession
           "jwtToken" "storedToken" "example.com" 443%Z
           eq_refl eq_refl eq_refl eq_refl eq_refl eq_refl eq_refl
           eq_refl eq_refl eq_refl).
Defined.

Lemma processLogout_request_fails_witness :
  Auth.processLogout MoreExamples.refusedHandler Examples.fruitServices
    MoreExamples.logoutSameToken Examples.idle
  = (Throw (ExternalError "401 Unauthorized"),
     {| Auth.mSession := Some MoreExamples.fruitLogoutSession;
        Auth.trace :=
          [ Auth.GetMeta "fruit" false;
            Auth.CreateSessCfgFromArgs MoreExamples.logoutSameToken;
            Auth.NewSession Examples.fruitSession;
            Auth.DoLogout MoreExamples.fruitLogoutSession ] |}).
Proof.
  exact (AuthMore.processLogout_request_fails MoreExamples.refusedHandler
           Examples.fruitServices MoreExamples.logoutSameToken Examples.idle
           _ Examples.fruitSession Examples.fruitSession
           MoreExamples.fruitLogoutSession
           "jwtToken" "storedToken" "example.com" 443%Z
           (ExternalError "401 Unauthorized")
           eq_refl eq_refl eq_refl eq_refl eq_refl eq_refl eq_refl eq_refl).
Defined.

Lemma processLogin_no_profile_witness :
  Auth.processLogin Examples.fruitHandler MoreExamples.namelessServices
    (Examples.loginArgs false) Examples.idle
  = (Ok tt,
     {| Auth.mSession := Some MoreExamples.fruitSessionWithCreds;
        Auth.trace :=
          [ Auth.GetMeta "fruit" false;
            Auth.CreateSessCfgFromArgs (Examples.loginArgs false);
            Auth.AddCredsOrPrompt Examples.fruitSession true "jwtToken";
            Auth.NewSession MoreExamples.fruitSessionWithCreds;
            Auth.DoLogin MoreExamples.fruitSessionWithCreds;
            Auth.ConsoleLog "Login successful." ] |}).
Proof.
  exact (AuthMore.processLogin_no_profile Examples.fruitHandler
           MoreExamples.namelessServices (Examples.loginArgs false)
           Examples.idle _ Examples.fruitSession
           MoreExamples.fruitSessionWithCreds
           MoreExamples.fruitSessionWithCreds
           MoreExamples.fruitSessionWithCreds "fakeToken"
           eq_refl eq_refl eq_refl eq_refl eq_refl eq_refl).
Defined.

Lemma processLogin_request_fails_witness :
  Auth.processLogin MoreExamples.refusedHandler Examples.fruitServices
    (Examples.loginArgs false) Examples.idle
  = (Throw (ExternalError "401 Unauthorized"),
     {| Auth.mSession := Some MoreExamples.fruitSessionWithCreds;
        Auth.trace :=
          [ Auth.GetMeta "fruit" false;
            Auth.CreateSessCfgFromArgs (Examples.loginArgs false);
            Auth.AddCredsOrPrompt Examples.fruitSession true "jwtToken";
            Auth.NewSession MoreExamples.fruitSessionWithCreds;
            Auth.DoLogin MoreExamples.fruitSessionWithCreds ] |}).
Proof.
  exact (AuthMore.processLogin_request_fails MoreExamples.refusedHandler
           Examples.fruitServices (Examples.loginArgs false) Examples.idle
           _ Examples.fruitSession MoreExamples.fruitSessionWithCreds
           MoreExamples.fruitSessionWithCreds
           MoreExamples.fruitSessionWithCreds
           (ExternalError "401 Unauthorized")
           eq_refl eq_refl eq_refl eq_refl eq_refl).
Defined.

End MoreWitnesses.
